(** * Primerool: coordinate transforms and junction-spanning primer design

    A shallow embedding of the pure core of Primerool ([app.py],
    [ensembl_api.py], [primer_junction.py], [primer_utils.py]) and the
    proofs of its specified properties.

    Conventions of the embedding.
    - Python [int] is [Z]; Python [float] is IEEE binary64, here Rocq's
      primitive [float] with the kernel's operations.
    - Python [str] is [string], over the ASCII alphabet; a list is [list];
      a tuple is a product.
    - A [dict] with string keys is a [gmap string _]; a [set] is a [gset].
    - A function that can raise returns an [outcome]; [print] is left out.
    - primer3 and Python's [round] are collaborators outside the core:
      they are parameters of the sections that use them, and the calls
      made to primer3 are recorded in the order they are made.
    - The Ensembl REST service is a collaborator too: its answers are
      parameters, and the requests for sequences are recorded in the
      order they are sent. Flask's request and response objects are read
      through the entries the routes read and write: the body of a
      request is a JSON object, and a route starts at its first
      [data.get].
    - A collaborator is first a function of its arguments: what it
      answers. That it can raise instead is a parameter of the routes,
      which are the callers with a handler or with none: a call that
      raises ends the run at that call, all earlier calls being made as
      recorded. The one exception is the diagnostic search of the
      junction design, whose exceptions the design catches itself.
    - A key compared by [list.sort] or [sorted] is an integer, a string,
      a float that is a number, or a tuple of these. [<] orders these,
      and then every stable sort computes the same list. A NaN is below,
      above and equal to nothing: where CPython's merge sort leaves a NaN
      key depends on its runs and merges, and is not modelled. The
      properties about the order of a sorted list of scores assume scores
      that are numbers. *)

From Stdlib Require Import ZArith Lia Ascii String Floats.
From stdpp Require Import base decidable list list_numbers sorting
  countable gmap strings pretty.

Local Open Scope string_scope.
Local Open Scope list_scope.
Local Open Scope Z_scope.

(** ** Python built-ins used by the sources *)

Module Py.

Definition len {A} (l : list A) : Z := Z.of_nat (length l).

(** A slice bound, as [PySlice_AdjustIndices] normalises it. *)
Definition slice_bound (n i : Z) : Z :=
  if i <? 0 then Z.max 0 (i + n) else Z.min i n.

(** [l[lo:hi]] *)
Definition slice {A} (l : list A) (lo hi : Z) : list A :=
  let n := len l in
  let a := slice_bound n lo in
  let b := slice_bound n hi in
  take (Z.to_nat (b - a)) (drop (Z.to_nat a) l).

(** [range(lo, hi)] *)
Definition range (lo hi : Z) : list Z := seqZ lo (hi - lo).

(** [sorted(l)] and [l.sort()] compare with [<] only and are stable.
    Every stable sort computes the same list when [<] is a strict weak
    order, as it is on integers, on tuples of integers and on the floats
    that are numbers; the embedding uses the insertion sort that keeps the
    element met first in front of its equals. With a NaN among the keys
    [<] is no such order and the list CPython computes is another. *)
Fixpoint insert {A} (lt : A -> A -> bool) (x : A) (l : list A) : list A :=
  match l with
  | [] => [x]
  | y :: l' => if lt y x then y :: insert lt x l' else x :: y :: l'
  end.

Definition sorted {A} (lt : A -> A -> bool) (l : list A) : list A :=
  foldr (insert lt) [] l.

(** [<] on pairs of integers: lexicographic, as on tuples. *)
Definition lt_pair (a b : Z * Z) : bool :=
  (a.1 <? b.1) || ((a.1 =? b.1) && (a.2 <? b.2)).

(** [sum(...)] over integers. *)
Definition sum (l : list Z) : Z := foldr Z.add 0 l.

(** ASCII letters of [str.upper()]; other bytes are left as they are. *)
Definition upper_char (c : ascii) : ascii :=
  let n := nat_of_ascii c in
  if (Nat.leb 97 n && Nat.leb n 122)%bool then ascii_of_nat (n - 32) else c.

Definition chars (s : string) : list ascii := list_ascii_of_string s.
Definition str (l : list ascii) : string := string_of_list_ascii l.

Definition upper (s : string) : string := str (fmap upper_char (chars s)).

(** [s.replace(" ", "")] *)
Definition remove_spaces (s : string) : string :=
  str (filter (fun c => c <> " "%char) (chars s)).

Definition str_len (s : string) : Z := len (chars s).

(** [s[lo:hi]] *)
Definition str_slice (s : string) (lo hi : Z) : string :=
  str (slice (chars s) lo hi).

(** [s[::-1]] *)
Definition str_reverse (s : string) : string := str (reverse (chars s)).

(** [str.maketrans(x, y)]: a dict, later entries win. *)
Definition maketrans (x y : string) : gmap ascii ascii :=
  foldl (fun m p => <[p.1 := p.2]> m) ∅ (zip (chars x) (chars y)).

(** [s.translate(table)] *)
Definition translate (table : gmap ascii ascii) (s : string) : string :=
  str (fmap (fun c => default c (table !! c)) (chars s)).

(** [x or 0.0] followed by [float(...)], for a value that is a float or
    [None]: a zero of either sign is falsy, a NaN is not. *)
Definition float_or_zero (x : option float) : float :=
  match x with
  | Some f => if PrimFloat.eqb f 0%float then 0%float else f
  | None => 0%float
  end.

End Py.

(** ** Transcript annotations ([ensembl_api.py], [app.py]) *)

(** Genomic interval [(start, end)], 1-based, closed. *)
Abbreviation interval := (Z * Z)%type (only parsing).

(** A value stored in the transcript dictionary built by
    [get_transcript_details]. *)
Inductive tval : Type :=
  | VStr (s : string)
  | VIntervals (l : list interval).

(** [tinfo.get(key, [])] for the interval-valued keys. *)
Definition get_intervals (tinfo : gmap string tval) (key : string) : list interval :=
  match tinfo !! key with
  | Some (VIntervals l) => l
  | _ => []
  end.

(** [tinfo.get("strand") == "-"], and the same test after
    [tinfo.get("strand", "+")]. *)
Definition strand_is_minus (tinfo : gmap string tval) : bool :=
  match tinfo !! "strand" with
  | Some (VStr s) => bool_decide (s = "-")
  | _ => false
  end.

(** [app.py], [_blocks_for_spliced_sequence] *)
Definition _blocks_for_spliced_sequence (tinfo : gmap string tval) (feature : string)
  : list interval :=
  let intervals := get_intervals tinfo feature in
  match intervals with
  | [] => []
  | _ =>
      let blocks := Py.sorted Py.lt_pair intervals in
      if strand_is_minus tinfo then reverse blocks else blocks
  end.

Record junction : Type := Junction {
  j_index : Z;
  j_pos : Z;
  j_label : string
}.

(** The body of the [for i, (s, e) in enumerate(blocks)] loop of
    [_junctions_from_blocks]; [n] is [len(blocks)], [i] the index reached
    and [cum] the running total. *)
Fixpoint junctions_loop (n i cum : Z) (blocks : list interval) : list junction :=
  match blocks with
  | [] => []
  | (s, e) :: rest =>
      let block_len := e - s + 1 in
      let cum := cum + block_len in
      if i <? n - 1
      then Junction i cum ("Exon " +:+ pretty (i + 1) +:+ "|" +:+ pretty (i + 2))
             :: junctions_loop n (i + 1) cum rest
      else junctions_loop n (i + 1) cum rest
  end.

(** [app.py], [_junctions_from_blocks] *)
Definition _junctions_from_blocks (blocks : list interval) : list junction :=
  junctions_loop (Py.len blocks) 0 0 blocks.

(** Length of a closed interval, and of a block list once spliced. *)
Definition block_len (b : interval) : Z := b.2 - b.1 + 1.
Definition spliced_len (blocks : list interval) : Z := Py.sum (fmap block_len blocks).

(** Reverse complement as [build_spliced_sequence], [build_genomic_sequence]
    and [get_flanking_sequence] write it:
    [comp = str.maketrans("ACGTacgt", "TGCAtgca")] and
    [s.translate(comp)[::-1]]. *)
Definition comp : gmap ascii ascii := Py.maketrans "ACGTacgt" "TGCAtgca".

Definition reverse_complement (s : string) : string :=
  Py.str_reverse (Py.translate comp s).

(** The [while j < len(cds_sorted) and cds_sorted[j][1] < exon_start] loop
    of [cds_annotations_in_transcript_coords]. Each turn advances [j], so
    [len(cds_sorted)] turns are enough ([skip_loop_exit]). *)
Fixpoint skip_loop (cds_sorted : list interval) (exon_start : Z) (fuel j : nat) : nat :=
  match fuel with
  | O => j
  | S fuel =>
      match cds_sorted !! j with
      | Some (_, cds_end) =>
          if cds_end <? exon_start
          then skip_loop cds_sorted exon_start fuel (S j)
          else j
      | None => j
      end
  end.

(** The [while k < len(cds_sorted) and cds_sorted[k][0] <= exon_end] loop. *)
Fixpoint overlap_loop (cds_sorted : list interval)
    (exon_start exon_end exon_offset : Z) (fuel k : nat)
    (ann : list (Z * Z)) : list (Z * Z) :=
  match fuel with
  | O => ann
  | S fuel =>
      match cds_sorted !! k with
      | Some (cds_start, cds_end) =>
          if cds_start <=? exon_end then
            let ov_start := Z.max exon_start cds_start in
            let ov_end := Z.min exon_end cds_end in
            let ann :=
              if ov_start <=? ov_end then
                let rel_start := exon_offset + (ov_start - exon_start) in
                let rel_end := exon_offset + (ov_end - exon_start) + 1 in
                ann ++ [(rel_start, rel_end)]
              else ann in
            overlap_loop cds_sorted exon_start exon_end exon_offset fuel (S k) ann
          else ann
      | None => ann
      end
  end.

(** The [for exon_start, exon_end in exons_sorted] loop; the state is
    [(exon_offset, j, ann)]. *)
Fixpoint exon_loop (cds_sorted exons_sorted : list interval)
    (exon_offset : Z) (j : nat) (ann : list (Z * Z)) : list (Z * Z) :=
  match exons_sorted with
  | [] => ann
  | (exon_start, exon_end) :: rest =>
      let exon_len := exon_end - exon_start + 1 in
      let j := skip_loop cds_sorted exon_start (length cds_sorted) j in
      let ann := overlap_loop cds_sorted exon_start exon_end exon_offset
                   (length cds_sorted) j ann in
      exon_loop cds_sorted rest (exon_offset + exon_len) j ann
  end.

(** The reflection applied on the minus strand. *)
Definition reflect (total_len : Z) (iv : Z * Z) : Z * Z :=
  (total_len - iv.2, total_len - iv.1).

(** The projection before the strand is looked at. *)
Definition cds_projection (exons cds : list interval) : list (Z * Z) :=
  exon_loop (Py.sorted Py.lt_pair cds) (Py.sorted Py.lt_pair exons) 0 0%nat [].

(** [ensembl_api.py], [cds_annotations_in_transcript_coords] *)
Definition cds_annotations_in_transcript_coords (tinfo : gmap string tval)
  : list (Z * Z) :=
  let exons := get_intervals tinfo "exons" in
  let cds := get_intervals tinfo "cds" in
  match exons, cds with
  | [], _ | _, [] => []
  | _, _ =>
      let exons_sorted := Py.sorted Py.lt_pair exons in
      let ann := cds_projection exons cds in
      if strand_is_minus tinfo then
        let total_len := Py.sum (fmap (fun e => e.2 - e.1 + 1) exons_sorted) in
        Py.sorted Py.lt_pair (fmap (reflect total_len) ann)
      else ann
  end.

(** ** Junction-spanning primer design ([primer_junction.py]) *)

(** Exceptions the modelled code can raise by itself. *)
Inductive pyexn : Type :=
  TypeError | ValueError | OverflowError | IndexError | AttributeError.

(** Values of a primer3 argument dictionary. *)
Inductive p3val : Type :=
  | PInt (z : Z)
  | PFloat (f : float)
  | PRanges (l : list (Z * Z)).

(** [int(v)]: a float is truncated towards zero. *)
Definition float_trunc (f : float) : pyexn + Z :=
  match Prim2SF f with
  | S754_zero _ => inr 0
  | S754_finite s m e =>
      let mag := if 0 <=? e then Z.pos m * 2 ^ e else Z.pos m / 2 ^ (- e) in
      inr (if s then - mag else mag)
  | S754_infinity _ => inl OverflowError
  | S754_nan => inl ValueError
  end.

Definition py_int (v : p3val) : pyexn + Z :=
  match v with
  | PInt z => inr z
  | PFloat f => float_trunc f
  | PRanges _ => inl TypeError
  end.

(** [float(v)]: an integer is rounded to the nearest double, ties to even. *)
Definition float_of_int (z : Z) : pyexn + float :=
  let f := SF2Prim (binary_normalize prec emax z 0 false) in
  if PrimFloat.is_infinity f then inl OverflowError else inr f.

Definition py_float (v : p3val) : pyexn + float :=
  match v with
  | PInt z => float_of_int z
  | PFloat f => inr f
  | PRanges _ => inl TypeError
  end.

(** [primer_utils.py], [default_primer3_args] *)
Definition default_primer3_args : gmap string p3val :=
  list_to_map [
    ("PRIMER_OPT_SIZE", PInt 20);
    ("PRIMER_MIN_SIZE", PInt 18);
    ("PRIMER_MAX_SIZE", PInt 25);
    ("PRIMER_OPT_TM", PFloat 62.0);
    ("PRIMER_MIN_TM", PFloat 57.0);
    ("PRIMER_MAX_TM", PFloat 67.0);
    ("PRIMER_MIN_GC", PFloat 40.0);
    ("PRIMER_MAX_GC", PFloat 60.0);
    ("PRIMER_NUM_RETURN", PInt 5);
    ("PRIMER_EXPLAIN_FLAG", PInt 1);
    ("PRIMER_PICK_INTERNAL_OLIGO", PInt 0)
  ].

(** Thermodynamic structure report (hairpin, homodimer, heterodimer). *)
Record thermo : Type := Thermo {
  structure_found : bool;
  th_tm : option float;
  th_dg : option float
}.

(** The dictionary [analyze_primer] returns; [None] is a field that
    [_round_or_none] could not round. *)
Record analysis : Type := Analysis {
  a_sequence : string;
  a_length : Z;
  a_gc_percent : option float;
  a_tm : option float;
  a_hairpin : thermo;
  a_homodimer : thermo
}.

(** The dictionary [analyze_pair] returns. *)
Record pair_metrics : Type := PairMetrics { heterodimer : thermo }.

(** The sequence arguments handed to primer3. *)
Record seq_args : Type := SeqArgs {
  SEQUENCE_ID : string;
  SEQUENCE_TEMPLATE : string;
  SEQUENCE_INCLUDED_REGION : option (Z * Z)
}.

(** primer3's result dictionary, read through the keys this module reads:
    each field is [out.get(key)], [None] when the key is absent. The keys
    [PRIMER_RIGHT_{i}...] are indexed by [i]. *)
Record p3_out : Type := P3Out {
  PRIMER_RIGHT_NUM_RETURNED : option Z;
  PRIMER_RIGHT_SEQUENCE : Z -> option string;
  PRIMER_RIGHT : Z -> option (Z * Z);
  PRIMER_RIGHT_TM : Z -> option float;
  PRIMER_RIGHT_GC_PERCENT : Z -> option float
}.

(** What primer3's [calc_hairpin], [calc_homodimer] and [calc_heterodimer]
    return. *)
Record thermo_result : Type := ThermoResult {
  tr_structure_found : bool;
  tr_tm : float;
  tr_dg : float
}.

(** Calls made to primer3, in the order they are made. *)
Inductive event : Type :=
  | CallCalcTm (seq : string)
  | CallCalcHairpin (seq : string)
  | CallCalcHomodimer (seq : string)
  | CallCalcHeterodimer (fwd_seq rev_seq : string)
  | CallDesignPrimers (sa : seq_args) (args : gmap string p3val).

(** A primer of an emitted pair: the analysis with its ["interval"] and
    ["position"] entries. *)
Record primer_out : Type := PrimerOut {
  p_analysis : analysis;
  p_interval : Z * Z;
  p_position : Z * Z
}.

Record primer_pair : Type := PrimerPair {
  pair_number : Z;
  pp_junction_pos : Z;
  junction_spanning : string;
  pp_left : primer_out;
  pp_right : primer_out;
  product_size : Z;
  pp_pair_metrics : pair_metrics
}.

(** The dictionary [design_junction_primer_pairs] returns; [error] is
    [None] when the key is absent. *)
Record design_result : Type := DesignResult {
  num_pairs : Z;
  pairs : list primer_pair;
  error : option string
}.

Inductive outcome : Type :=
  | Returned (r : design_result)
  | Raised (e : pyexn).

Definition error_result (msg : string) : design_result :=
  DesignResult 0 [] (Some msg).

(** [primer_junction.py], [_parse_right_interval] *)
Definition _parse_right_interval (out : p3_out) (i : Z) : option (Z * Z) :=
  match PRIMER_RIGHT out i with
  | None => None
  | Some (right_end, length) =>
      let start := right_end - length + 1 in
      let end_ := right_end + 1 in
      Some (start, end_)
  end.

(** [primer_junction.py], [_clamp] *)
Definition _clamp (v lo hi : Z) : Z := Z.max lo (Z.min hi v).

(** [s.upper().replace(" ", "")], applied to the template on entry and to
    every sequence [primer_utils.py] analyses. *)
Definition clean_template (template : string) : string :=
  Py.remove_spaces (Py.upper template).

(** An integer as a float, where the integer is a count. *)
Definition float_of_count (z : Z) : float :=
  SF2Prim (binary_normalize prec emax z 0 false).

(** [primer_utils.py], [_oligo_gc] *)
Definition _oligo_gc (seq : string) : float :=
  let seq := Py.upper seq in
  if bool_decide (seq = "") then 0.0%float
  else
    let gc := Py.len (filter (fun b => b = "G"%char \/ b = "C"%char) (Py.chars seq)) in
    (100.0 * float_of_count gc / float_of_count (Py.str_len seq))%float.

(** The widened product-size range given to primer3. *)
Definition product_min_actual (product_min : Z) : Z := Z.max 50 (product_min - 50).
Definition product_max_actual (product_max : Z) : Z := Z.min 1000 (product_max + 300).

(** The argument dictionary as it stands before the window is cut
    (lines 52 to 78). *)
Definition junction_args (primer_params : option (gmap string p3val))
    (product_min product_max : Z) : gmap string p3val :=
  let args := default_primer3_args in
  let args := match primer_params with
              | Some p => p ∪ args
              | None => args
              end in
  let args := <["PRIMER_NUM_RETURN" := PInt 5]> args in
  let args := <["PRIMER_EXPLAIN_FLAG" := PInt 1]> args in
  let args := <["PRIMER_MIN_TM" := PFloat 55.0]> args in
  let args := <["PRIMER_MAX_TM" := PFloat 68.0]> args in
  let args := <["PRIMER_MIN_GC" := PFloat 35.0]> args in
  let args := <["PRIMER_MAX_GC" := PFloat 65.0]> args in
  let args := <["PRIMER_PRODUCT_SIZE_RANGE" :=
                  PRanges [(product_min_actual product_min,
                            product_max_actual product_max)]]> args in
  let args := <["PRIMER_PICK_LEFT_PRIMER" := PInt 0]> args in
  let args := <["PRIMER_PICK_RIGHT_PRIMER" := PInt 1]> args in
  <["PRIMER_PICK_INTERNAL_OLIGO" := PInt 0]> args.

(** Candidate Generator, the body of the inner loop (lines 100 to 107):
    the span tried for one pair of overlaps, kept or skipped. *)
Definition span_of (j_local n primer_min primer_max left_ov right_ov : Z)
  : list (Z * Z) :=
  let L := left_ov + right_ov in
  if (L <? primer_min) || (L >? primer_max) then []
  else
    let start := j_local - left_ov in
    let end_ := j_local + right_ov in
    if (start <? 0) || (end_ >? n) then []
    else [(start, end_)].

(** Candidate Generator (lines 97 to 107): the double loop over
    [left_ov] and [right_ov]. *)
Definition generate_candidates (j_local n overlap_min overlap_max
    primer_min primer_max : Z) : list (Z * Z) :=
  left_ov ← Py.range overlap_min (overlap_max + 1);
  right_ov ← Py.range overlap_min (overlap_max + 1);
  span_of j_local n primer_min primer_max left_ov right_ov.

(** Candidate Scorer (lines 142 to 148): the score of one analysis. *)
Definition candidate_score (opt_tm : float) (a : analysis) : float :=
  let tm := Py.float_or_zero (a_tm a) in
  let gc := Py.float_or_zero (a_gc_percent a) in
  let score := PrimFloat.abs (tm - opt_tm)%float in
  if (gc <? 35.0)%float || (65.0 <? gc)%float then (score + 5.0)%float else score.

(** A scored candidate [(score, (start, end), a)]. *)
Abbreviation scored_candidate := (float * (Z * Z) * analysis)%type (only parsing).

(** [scored.sort(key=lambda x: x[0])] compares the scores only. *)
Definition lt_score (x y : scored_candidate) : bool := (x.1.1 <? y.1.1)%float.

Record right_candidate : Type := RightCandidate {
  rc_seq : string;
  rc_interval_local : Z * Z;
  rc_tm : float;
  rc_gc : float;
  rc_idx : Z
}.

(** Lines 191 to 207: the right candidates parsed from primer3's result. *)
Definition collect_right_candidates (right_out : p3_out) (num_right : Z)
  : list right_candidate :=
  omap (fun i =>
    match PRIMER_RIGHT_SEQUENCE right_out i with
    | None => None
    | Some rseq =>
        if bool_decide (rseq = "") then None
        else
          match _parse_right_interval right_out i with
          | None => None
          | Some riv =>
              let rtm := Py.float_or_zero (PRIMER_RIGHT_TM right_out i) in
              let rgc := Py.float_or_zero (PRIMER_RIGHT_GC_PERCENT right_out i) in
              Some (RightCandidate rseq riv rtm rgc i)
          end
    end) (Py.range 0 num_right).

(** Pair Matcher: [max_tm_diff] and the cap on emitted pairs. *)
Definition max_tm_diff : float := 5.0%float.
Definition max_pairs : Z := 10.

(** The Tm test of line 226: [true] when the pair is rejected. *)
Definition tm_incompatible (left_tm right_tm : float) : bool :=
  (max_tm_diff <? PrimFloat.abs (left_tm - right_tm))%float.

(** State of the pairing loops. *)
Record pair_state : Type := PairState {
  pairs_out : list primer_pair;
  seen : gset (string * string * Z);
  calls : list event
}.

Section JunctionDesign.

(** The collaborators. [round1 x] is Python's [round(x, 1)] on a float;
    the [calc_...] functions are primer3's thermodynamic calculators at the
    caller's [therm_params] (after the [TypeError] fallback of
    [primer_utils.py]); [design_primers] is primer3's search. *)
Variable round1 : float -> float.
Variable calc_tm : string -> float.
Variable calc_hairpin : string -> thermo_result.
Variable calc_homodimer : string -> thermo_result.
Variable calc_heterodimer : string -> string -> thermo_result.
Variable design_primers : seq_args -> gmap string p3val -> p3_out.

(** [primer_utils.py], [_round_or_none] with [nd = 1], on a float or
    [None]. *)
Definition _round_or_none (x : option float) : option float :=
  match x with
  | None => None
  | Some f => Some (round1 f)
  end.

Definition rounded_thermo (r : thermo_result) : thermo :=
  Thermo (tr_structure_found r)
    (_round_or_none (Some (tr_tm r))) (_round_or_none (Some (tr_dg r))).

(** [primer_utils.py], [analyze_primer] *)
Definition analyze_primer (seq : string) : analysis :=
  let seq := clean_template seq in
  let tm := calc_tm seq in
  let hp := calc_hairpin seq in
  let hd := calc_homodimer seq in
  Analysis seq (Py.str_len seq)
    (_round_or_none (Some (_oligo_gc seq)))
    (_round_or_none (Some tm))
    (rounded_thermo hp) (rounded_thermo hd).

(** The primer3 calls one [analyze_primer seq] makes. *)
Definition analyze_primer_calls (seq : string) : list event :=
  let seq := clean_template seq in
  [CallCalcTm seq; CallCalcHairpin seq; CallCalcHomodimer seq].

(** [primer_utils.py], [analyze_pair] *)
Definition analyze_pair (fwd_seq rev_seq : string) : pair_metrics :=
  let fwd_seq := clean_template fwd_seq in
  let rev_seq := clean_template rev_seq in
  PairMetrics (rounded_thermo (calc_heterodimer fwd_seq rev_seq)).

Definition analyze_pair_calls (fwd_seq rev_seq : string) : list event :=
  [CallCalcHeterodimer (clean_template fwd_seq) (clean_template rev_seq)].

(** Lines 139 to 150: every candidate is analysed and scored. *)
Definition score_candidates (local : string) (opt_tm : float)
    (candidates : list (Z * Z)) : list scored_candidate :=
  fmap (fun c =>
         let left_seq := Py.str_slice local c.1 c.2 in
         let a := analyze_primer left_seq in
         (candidate_score opt_tm a, c, a)) candidates.

(** Lines 152 and 153: the stable sort on the score, then
    [scored[:max_candidates]]. *)
Definition rank_candidates (scored : list scored_candidate) (max_candidates : Z)
  : list scored_candidate :=
  Py.slice (Py.sorted lt_score scored) 0 max_candidates.

(** Lines 240 to 261: one pair is built and appended. *)
Definition emit_pair (local : string) (win_start junction_pos : Z)
    (start end_ : Z) (left_a_pref : analysis) (rc : right_candidate)
    (prod_size : Z) (st : pair_state) : pair_state :=
  let left_seq := Py.str_slice local start end_ in
  let right_seq := rc_seq rc in
  let left_interval_full := (win_start + start, win_start + end_) in
  let right_interval_full :=
    (win_start + (rc_interval_local rc).1, win_start + (rc_interval_local rc).2) in
  let left_a :=
    PrimerOut left_a_pref left_interval_full
      (left_interval_full.1, left_interval_full.2 - left_interval_full.1) in
  let right_a :=
    PrimerOut (analyze_primer right_seq) right_interval_full
      (right_interval_full.1, right_interval_full.2 - right_interval_full.1) in
  let metrics := analyze_pair left_seq right_seq in
  PairState
    (pairs_out st ++
       [PrimerPair (Py.len (pairs_out st) + 1) junction_pos "left"
          left_a right_a prod_size metrics])
    ({[ (left_seq, right_seq, prod_size) ]} ∪ seen st)
    (calls st ++ analyze_primer_calls right_seq ++ analyze_pair_calls left_seq right_seq).

(** Lines 221 to 264: the [for rc in right_candidates] loop for one left
    candidate; it stops early once [max_pairs] pairs are out. *)
Fixpoint right_loop (local : string) (win_start junction_pos : Z)
    (product_min product_max : Z) (start end_ : Z) (left_a_pref : analysis)
    (rcs : list right_candidate) (st : pair_state) : pair_state :=
  match rcs with
  | [] => st
  | rc :: rest =>
      let continue_ st' :=
        right_loop local win_start junction_pos product_min product_max
          start end_ left_a_pref rest st' in
      let left_seq := Py.str_slice local start end_ in
      let left_tm := Py.float_or_zero (a_tm left_a_pref) in
      if tm_incompatible left_tm (rc_tm rc) then continue_ st
      else
        let prod_size := (rc_interval_local rc).2 - start in
        if (prod_size <? product_min) || (prod_size >? product_max) then continue_ st
        else
          let key := (left_seq, rc_seq rc, prod_size) in
          if decide (key ∈ seen st) then continue_ st
          else
            let st' := emit_pair local win_start junction_pos start end_
                         left_a_pref rc prod_size st in
            if Py.len (pairs_out st') >=? max_pairs then st'
            else continue_ st'
  end.

(** Lines 216 to 267: the [for _, (start, end), left_a_pref in scored]
    loop. *)
Fixpoint left_loop (local : string) (win_start junction_pos : Z)
    (product_min product_max : Z) (right_candidates : list right_candidate)
    (scored : list scored_candidate) (st : pair_state) : pair_state :=
  match scored with
  | [] => st
  | (_, (start, end_), left_a_pref) :: rest =>
      let st' := right_loop local win_start junction_pos product_min product_max
                   start end_ left_a_pref right_candidates st in
      if Py.len (pairs_out st') >=? max_pairs then st'
      else left_loop local win_start junction_pos product_min product_max
             right_candidates rest st'
  end.

(** Pair Matcher (lines 212 to 267), from its initial state. *)
Definition pair_matcher (local : string) (win_start junction_pos : Z)
    (product_min product_max : Z) (scored : list scored_candidate)
    (right_candidates : list right_candidate) (log : list event) : pair_state :=
  left_loop local win_start junction_pos product_min product_max
    right_candidates scored (PairState [] ∅ log).

(** Lines 157 to 271: the downstream search and the pairing, once the
    left candidates are ranked. *)
Definition search_and_pair (args : gmap string p3val) (local : string)
    (win_start junction_pos j_local n primer_min product_min product_max : Z)
    (scored : list scored_candidate) (log : list event) : list event * outcome :=
  let right_region_start := j_local in
  let right_region_len := n - right_region_start in
  if right_region_len <? primer_min then
    (log, Returned (error_result "Window too small for right primers"))
  else
    let right_args := <["PRIMER_PICK_LEFT_PRIMER" := PInt 0]> args in
    let right_args := <["PRIMER_PICK_RIGHT_PRIMER" := PInt 1]> right_args in
    let right_args := <["PRIMER_PICK_INTERNAL_OLIGO" := PInt 0]> right_args in
    let right_args := <["PRIMER_NUM_RETURN" := PInt 20]> right_args in
    let right_seq_args :=
      SeqArgs ("right_search_" +:+ pretty junction_pos) local
        (Some (right_region_start, right_region_len)) in
    let right_out := design_primers right_seq_args right_args in
    let log := log ++ [CallDesignPrimers right_seq_args right_args] in
    let num_right := default 0 (PRIMER_RIGHT_NUM_RETURNED right_out) in
    if num_right =? 0 then
      (log, Returned (error_result "No RIGHT primers found in downstream region"))
    else
      let right_candidates := collect_right_candidates right_out num_right in
      let st := pair_matcher local win_start junction_pos product_min product_max
                  scored right_candidates log in
      (calls st,
       Returned (DesignResult (Py.len (pairs_out st)) (pairs_out st) None)).

(** Lines 80 to 155: the window, the candidates, the diagnostic search and
    the ranking. The diagnostic search only feeds [print]; an exception in
    it is caught on the spot. *)
Definition window_and_candidates (args : gmap string p3val) (template : string)
    (n_full junction_pos overlap_min overlap_max product_min product_max : Z)
    (primer_min primer_max : Z) (left_pad right_pad max_candidates : Z)
  : list event * outcome :=
  let win_start := _clamp (junction_pos - left_pad) 0 n_full in
  let win_end := _clamp (junction_pos + right_pad) 0 n_full in
  let local := Py.str_slice template win_start win_end in
  let j_local := junction_pos - win_start in
  let n := Py.str_len local in
  let candidates :=
    generate_candidates j_local n overlap_min overlap_max primer_min primer_max in
  match candidates with
  | [] => ([], Returned (error_result "No junction candidates in window"))
  | _ =>
      let test_args := <["PRIMER_PICK_LEFT_PRIMER" := PInt 1]> args in
      let test_args := <["PRIMER_PICK_RIGHT_PRIMER" := PInt 1]> test_args in
      let test_seq_args := SeqArgs "diagnostic_test" local None in
      let log := [CallDesignPrimers test_seq_args test_args] in
      match py_float (default (PFloat 60.0) (args !! "PRIMER_OPT_TM")) with
      | inl e => (log, Raised e)
      | inr opt_tm =>
          let scored := score_candidates local opt_tm candidates in
          let log := log ++ (c ← candidates;
                             analyze_primer_calls (Py.str_slice local c.1 c.2)) in
          let scored := rank_candidates scored max_candidates in
          match scored with
          | [] => (log, Raised IndexError)
          | _ =>
              search_and_pair args local win_start junction_pos j_local n
                primer_min product_min product_max scored log
          end
      end
  end.

(** [primer_junction.py], [design_junction_primer_pairs]. The result comes
    with the calls made to the collaborators. *)
Definition design_junction_primer_pairs (template : string) (junction_pos : Z)
    (overlap_min overlap_max product_min product_max : Z)
    (primer_params : option (gmap string p3val))
    (left_pad right_pad max_candidates : Z) : list event * outcome :=
  let template := clean_template template in
  let n_full := Py.str_len template in
  if n_full =? 0 then ([], Returned (error_result "Empty template"))
  else if negb ((0 <? junction_pos) && (junction_pos <? n_full)) then
    ([], Returned (error_result "junction_pos out of range"))
  else
    let args := junction_args primer_params product_min product_max in
    match py_int (default (PInt 18) (args !! "PRIMER_MIN_SIZE")) with
    | inl e => ([], Raised e)
    | inr primer_min =>
        match py_int (default (PInt 25) (args !! "PRIMER_MAX_SIZE")) with
        | inl e => ([], Raised e)
        | inr primer_max =>
            window_and_candidates args template n_full junction_pos
              overlap_min overlap_max product_min product_max
              primer_min primer_max left_pad right_pad max_candidates
        end
    end.

End JunctionDesign.

(** ** Vocabulary of the properties *)

(** *** Sequences *)

(** The complement of one character, read off the table. *)
Definition comp_char (c : ascii) : ascii := default c (comp !! c).

(** A character as [clean_template] leaves it: upper case, not a space. *)
Definition clean_char (c : ascii) : Prop := Py.upper_char c = c /\ c <> " "%char.

(** *** Orders *)

(** [a] may stand before [b] in a list sorted with [lt]: [b < a] does not
    hold. *)
Definition not_after {A} (lt : A -> A -> bool) (a b : A) : Prop := lt b a = false.

(** The order on tuples of integers. *)
Definition le_pair (a b : Z * Z) : Prop :=
  a.1 < b.1 \/ (a.1 = b.1 /\ a.2 <= b.2).

(** A rank of the floats that are numbers: comparing two floats compares
    their ranks lexicographically ([SFcompare_rank]). *)
Definition sf_rank (f : spec_float) : Z * Z * Z :=
  match f with
  | S754_zero _ => (0, 0, 0)
  | S754_infinity s => (if s then -2 else 2, 0, 0)
  | S754_nan => (0, 0, 0)
  | S754_finite s m e => if s then (-1, - e, - Z.pos m) else (1, e, Z.pos m)
  end.

Definition rank_lt (a b : Z * Z * Z) : Prop :=
  a.1.1 < b.1.1 \/ (a.1.1 = b.1.1 /\ (a.1.2 < b.1.2 \/ (a.1.2 = b.1.2 /\ a.2 < b.2))).

Definition sf_number (f : spec_float) : Prop := f <> S754_nan.

Definition float_rank (x : float) : Z * Z * Z := sf_rank (Prim2SF x).

(** A float that is not a NaN. *)
Definition is_number (x : float) : Prop := PrimFloat.is_nan x = false.

(** Scores in the order [scored.sort] puts them, and candidates whose
    score equals [v]. *)
Definition score_le (x y : scored_candidate) : Prop := (x.1.1 <=? y.1.1)%float = true.

Definition same_score (v : float) (x : scored_candidate) : Prop :=
  (x.1.1 =? v)%float = true.

(** [sorted] is [scored] as a stable ascending sort on the score leaves
    it: the same candidates, no score before a smaller one, and the
    candidates of any one score in the order they had. *)
Definition stably_sorted (scored sorted : list scored_candidate) : Prop :=
  sorted ≡ₚ scored
  /\ (forall (i j : nat) x y, (i < j)%nat ->
        sorted !! i = Some x -> sorted !! j = Some y ->
        (x.1.1 <=? y.1.1)%float = true)
  /\ (forall v, filter (fun x => (x.1.1 =? v)%float = true) sorted
                = filter (fun x => (x.1.1 =? v)%float = true) scored).

(** *** Intervals *)

(** A genomic interval with [start <= end]. *)
Definition well_formed (iv : interval) : Prop := iv.1 <= iv.2.

(** Intervals in ascending order of start. *)
Definition by_start (a b : interval) : Prop := a.1 <= b.1.

(** Two closed intervals that share no position. *)
Definition apart (a b : interval) : Prop := a.2 < b.1 \/ b.2 < a.1.

Definition in_order_apart (a b : interval) : Prop := by_start a b /\ apart a b.

(** Pairwise non-overlapping closed intervals. *)
Definition pairwise_disjoint (l : list interval) : Prop :=
  forall (i j : nat) a b, i <> j -> l !! i = Some a -> l !! j = Some b -> apart a b.

(** Every position of a CDS interval lies in some exon. *)
Definition cds_in_coverage (exons cds : list interval) : Prop :=
  forall c x, c ∈ cds -> c.1 <= x <= c.2 -> exists e, e ∈ exons /\ e.1 <= x <= e.2.

(** Spliced intervals [(start, end)], end-exclusive: pairwise
    non-overlapping, ascending, and inside [[0, total_len)]. *)
Definition non_overlapping (l : list (Z * Z)) : Prop :=
  forall (i j : nat) a b, i <> j -> l !! i = Some a -> l !! j = Some b ->
    a.2 <= b.1 \/ b.2 <= a.1.

Definition ascending (l : list (Z * Z)) : Prop :=
  forall (i j : nat) a b, (i < j)%nat -> l !! i = Some a -> l !! j = Some b ->
    a.1 < b.1 /\ a.2 <= b.1.

Definition contained (total_len : Z) (l : list (Z * Z)) : Prop :=
  forall a, a ∈ l -> 0 <= a.1 /\ a.1 < a.2 /\ a.2 <= total_len.

(** Non-empty intervals laid out left to right between [lo] and [hi]. *)
Definition laid_out (lo hi : Z) (l : list (Z * Z)) : Prop :=
  Forall (fun a => lo <= a.1 /\ a.1 < a.2 /\ a.2 <= hi) l
  /\ StronglySorted (fun a b => a.2 <= b.1) l.

(** The projection as the specification words it: for each exon in order,
    its intersection with each CDS interval, shifted by the exon's offset.
    [exon_loop_by_intersection] compares it with the loops of the source. *)
Definition project_overlap (exon_start exon_end exon_offset : Z) (c : interval)
  : option (Z * Z) :=
  let ov_start := Z.max exon_start c.1 in
  let ov_end := Z.min exon_end c.2 in
  if ov_start <=? ov_end
  then Some (exon_offset + (ov_start - exon_start),
             exon_offset + (ov_end - exon_start) + 1)
  else None.

Definition overlaps (exon_start exon_end exon_offset : Z) (cds : list interval)
  : list (Z * Z) :=
  omap (project_overlap exon_start exon_end exon_offset) cds.

Fixpoint projection_by_intersection (cds exons : list interval) (exon_offset : Z)
  : list (Z * Z) :=
  match exons with
  | [] => []
  | e :: rest =>
      overlaps e.1 e.2 exon_offset cds
      ++ projection_by_intersection cds rest (exon_offset + block_len e)
  end.

(** *** Runs of the pairing loops and of the whole design *)

(** [st'] is [st] after a pair was emitted for the left span
    [(start, end_)], its analysis and the right candidate [rc]: that
    happens only past the three tests of the loop body. *)
Definition emitted_from (round1 : float -> float) (calc_tm : string -> float)
    (calc_hairpin calc_homodimer : string -> thermo_result)
    (calc_heterodimer : string -> string -> thermo_result)
    (local : string) (win_start junction_pos product_min product_max : Z)
    (start end_ : Z) (left_a_pref : analysis)
    (rc : right_candidate) (st st' : pair_state) : Prop :=
  let prod_size := (rc_interval_local rc).2 - start in
  tm_incompatible (Py.float_or_zero (a_tm left_a_pref)) (rc_tm rc) = false
  /\ product_min <= prod_size <= product_max
  /\ ((Py.str_slice local start end_, rc_seq rc, prod_size) ∉ seen st)
  /\ st' = emit_pair round1 calc_tm calc_hairpin calc_homodimer calc_heterodimer
             local win_start junction_pos start end_ left_a_pref rc prod_size st.

(** A call to one of primer3's thermodynamic calculators. *)
Definition thermo_call (ev : event) : Prop :=
  match ev with
  | CallDesignPrimers _ _ => False
  | _ => True
  end.

(** A primer3 search that was given the one product-size range
    [[max(50, product_min - 50), min(1000, product_max + 300)]]. *)
Definition widened_search (product_min product_max : Z) (ev : event) : Prop :=
  match ev with
  | CallDesignPrimers _ args =>
      args !! "PRIMER_PRODUCT_SIZE_RANGE"
      = Some (PRanges [(Z.max 50 (product_min - 50), Z.min 1000 (product_max + 300))])
  | _ => True
  end.

(** The key of an emitted pair, read off the pair. *)
Definition pair_key (p : primer_pair) : string * string * Z :=
  (a_sequence (p_analysis (pp_left p)), a_sequence (p_analysis (pp_right p)),
   product_size p).

(** A left candidate that carries the analysis of its own span of [local],
    and a right candidate whose sequence is in the form [clean_template]
    leaves it. *)
Definition left_analysed (local : string) (sc : scored_candidate) : Prop :=
  a_sequence sc.2 = Py.str_slice local sc.1.2.1 sc.1.2.2.

Definition right_clean (rc : right_candidate) : Prop :=
  clean_template (rc_seq rc) = rc_seq rc.


(** The result of a run that returned. *)
Definition returned (o : outcome) : design_result :=
  match o with
  | Returned r => r
  | Raised _ => DesignResult 0 [] None
  end.

(** ** Collaborators for the worked examples *)

(** A template of 240 bases and stand-ins for primer3: the melting
    temperature grows with the length of the oligo, no secondary structure
    is reported, and the downstream search returns two right primers. *)
Fixpoint repeat_str (n : nat) (s : string) : string :=
  match n with
  | O => ""
  | S n => s +:+ repeat_str n s
  end.

Definition test_template : string := repeat_str 30 "ACGTTGCA".

Definition test_round1 (f : float) : float := f.

Definition test_calc_tm (seq : string) : float :=
  (40.0 + float_of_count (Py.str_len seq))%float.

Definition test_calc_thermo (seq : string) : thermo_result :=
  ThermoResult false 0.0 0.0.

Definition test_calc_heterodimer (fwd_seq rev_seq : string) : thermo_result :=
  ThermoResult false 0.0 0.0.

Definition test_right_out : p3_out :=
  P3Out (Some 2)
    (fun i => Some (Py.str_slice test_template (111 + 10 * i) (131 + 10 * i)))
    (fun i => Some (130 + 10 * i, 20))
    (fun i => Some 61.0%float)
    (fun i => Some 50.0%float).

Definition test_design_primers (sa : seq_args) (args : gmap string p3val) : p3_out :=
  test_right_out.


(** A downstream search that returns one right primer twice, in lower
    case and in upper case. *)
Definition test_design_primers_mixed (sa : seq_args) (args : gmap string p3val)
  : p3_out :=
  P3Out (Some 2)
    (fun i => Some (if i =? 0 then "tgcaacgttgcaacgttgca" else "TGCAACGTTGCAACGTTGCA"))
    (fun i => Some (130, 20))
    (fun i => Some 61.0%float)
    (fun i => Some 50.0%float).

(** A left analysis and a right candidate at a chosen melting temperature. *)
Definition test_analysis (tm : float) : analysis :=
  Analysis "ACGTTGCAACGTTGCAACGT" 20 (Some 50.0%float) (Some tm)
    (Thermo false (Some 0.0%float) (Some 0.0%float))
    (Thermo false (Some 0.0%float) (Some 0.0%float)).

Definition test_right_candidate (tm : float) : right_candidate :=
  RightCandidate "TGCAACGTTGCAACGTTGCA" (111, 131) tm 50.0%float 0.

(** A run on the 240-base template with the junction at 40 and the
    caller's window [[80, 220]]. *)
Definition test_run : list event * outcome :=
  design_junction_primer_pairs test_round1 test_calc_tm test_calc_thermo
    test_calc_thermo test_calc_heterodimer test_design_primers
    test_template 40 6 12 80 220 None 250 400 25.


(** The same run when the search returns the right primer in both
    cases. *)
Definition test_run_mixed : list event * outcome :=
  design_junction_primer_pairs test_round1 test_calc_tm test_calc_thermo
    test_calc_thermo test_calc_heterodimer test_design_primers_mixed
    test_template 40 6 12 80 220 None 250 400 25.

(** ** Requests ([app.py]) *)

(** A JSON value, as [request.json] holds it and [data.get] returns it. *)
#[local] Set Warnings "-register-all".
Inductive json : Type :=
  | JNull
  | JBool (b : bool)
  | JInt (z : Z)
  | JFloat (f : float)
  | JStr (s : string)
  | JList (items : list json)
  | JDict (entries : list (string * json)).

(** The truth value: [None], [False], a zero, the empty string, list and
    dict are falsy; a NaN is not. *)
Definition truthy (v : json) : bool :=
  match v with
  | JNull => false
  | JBool b => b
  | JInt z => negb (z =? 0)
  | JFloat f => negb (f =? 0)%float
  | JStr s => negb (bool_decide (s = ""))
  | JList items => negb (bool_decide (items = []))
  | JDict entries => negb (bool_decide (entries = []))
  end.

(** [v or d] *)
Definition json_or (v d : json) : json := if truthy v then v else d.

(** [int(v)]. [int_of_str s] is Python's [int] on the string [s], [None]
    when it raises its [ValueError]. *)
Definition json_int (int_of_str : string -> option Z) (v : json) : pyexn + Z :=
  match v with
  | JBool b => inr (if b then 1 else 0)
  | JInt z => inr z
  | JFloat f => float_trunc f
  | JStr s =>
      match int_of_str s with
      | Some z => inr z
      | None => inl ValueError
      end
  | JNull | JList _ | JDict _ => inl TypeError
  end.

(** Whitespace as [str.strip()] sees it, within ASCII: the characters 9
    to 13 and 28 to 32. *)
Definition is_space (c : ascii) : bool :=
  let n := nat_of_ascii c in
  (Nat.leb 9 n && Nat.leb n 13) || (Nat.leb 28 n && Nat.leb n 32).

(** [s.lstrip()] on the characters, and [s.strip()]. *)
Fixpoint lstrip (l : list ascii) : list ascii :=
  match l with
  | c :: rest => if is_space c then lstrip rest else l
  | [] => []
  end.

Definition str_strip (s : string) : string :=
  Py.str (reverse (lstrip (reverse (lstrip (Py.chars s))))).

(** [v.strip()]: only a string has the method. *)
Definition json_strip (v : json) : pyexn + string :=
  match v with
  | JStr s => inr (str_strip s)
  | _ => inl AttributeError
  end.

(** The calls of a run up to the first one that raises, and that call;
    [None] when none does. *)
Fixpoint first_raise {A} (raises : A -> bool) (log : list A) : option (list A * A) :=
  match log with
  | [] => None
  | call :: rest =>
      if raises call then Some ([call], call)
      else
        match first_raise raises rest with
        | Some (made, failed) => Some (call :: made, failed)
        | None => None
        end
  end.
(** ** Transcript lookup and sequence assembly ([ensembl_api.py]) *)

(** Exceptions that reach the callers of the Ensembl client and of the
    routes that use it: the [HTTPError] of a lookup, a [KeyError], what
    [requests] or the decoding of an answer raises besides [HTTPError] (a
    timeout, a connection error, a body that is not JSON), and an
    exception of a conversion. *)
Inductive api_exn : Type :=
  | HTTPError
  | KeyError (key : string)
  | RequestError
  | Python (e : pyexn).

(** What [_get] does for one request: the decoded answer, or the
    [HTTPError] that [raise_for_status] raises, with status 404 or with
    another status. *)
Inductive http_answer (A : Type) : Type :=
  | Answer (a : A)
  | NotFound
  | HttpFailure.
Arguments Answer {A} a.
Arguments NotFound {A}.
Arguments HttpFailure {A}.

(** The answer of [GET /lookup/id/{id}?expand=1], read through the keys
    [get_transcript_details] reads; [None] is an absent key. *)
Record translation_data : Type := TranslationData {
  tl_start : option Z;
  tl_end : option Z
}.

Record lookup_data : Type := LookupData {
  ld_seq_region_name : option string;
  ld_strand : option Z;
  ld_display_name : option string;
  ld_Exon : list interval;
  ld_Translation : option translation_data
}.

(** The three lists the exon loop of [get_transcript_details] fills. *)
Record features : Type := Features {
  f_cds : list interval;
  f_utr5 : list interval;
  f_utr3 : list interval
}.

(** An integer or [None] used as a condition: [None] and [0] are falsy. *)
Definition truthy_int (x : option Z) : option Z :=
  match x with
  | Some z => if z =? 0 then None else Some z
  | None => None
  end.

(** Lines 126 to 153: the body of [for ex_start, ex_end in exons]. *)
Definition features_step (strand : string) (cds_genomic_start cds_genomic_end : Z)
    (acc : features) (ex : interval) : features :=
  let ex_start := ex.1 in
  let ex_end := ex.2 in
  let ov_start := Z.max ex_start cds_genomic_start in
  let ov_end := Z.min ex_end cds_genomic_end in
  let cds :=
    if ov_start <=? ov_end then f_cds acc ++ [(ov_start, ov_end)] else f_cds acc in
  if bool_decide (strand = "+") then
    let utr5 :=
      if (ex_start <? cds_genomic_start) && (ex_end >=? ex_start) then
        let utr5_end := Z.min ex_end (cds_genomic_start - 1) in
        if ex_start <=? utr5_end then f_utr5 acc ++ [(ex_start, utr5_end)]
        else f_utr5 acc
      else f_utr5 acc in
    let utr3 :=
      if (ex_end >? cds_genomic_end) && (ex_start <=? ex_end) then
        let utr3_start := Z.max ex_start (cds_genomic_end + 1) in
        if utr3_start <=? ex_end then f_utr3 acc ++ [(utr3_start, ex_end)]
        else f_utr3 acc
      else f_utr3 acc in
    Features cds utr5 utr3
  else
    let utr5 :=
      if ex_end >? cds_genomic_end then
        let utr5_start := Z.max ex_start (cds_genomic_end + 1) in
        if utr5_start <=? ex_end then f_utr5 acc ++ [(utr5_start, ex_end)]
        else f_utr5 acc
      else f_utr5 acc in
    let utr3 :=
      if ex_start <? cds_genomic_start then
        let utr3_end := Z.min ex_end (cds_genomic_start - 1) in
        if ex_start <=? utr3_end then f_utr3 acc ++ [(ex_start, utr3_end)]
        else f_utr3 acc
      else f_utr3 acc in
    Features cds utr5 utr3.

(** Lines 114 to 153: the lists start empty and are filled only when the
    translation and both of its bounds are truthy. *)
Definition transcript_features (strand : string)
    (translation : option translation_data) (exons : list interval) : features :=
  match translation with
  | None => Features [] [] []
  | Some translation =>
      match truthy_int (tl_start translation), truthy_int (tl_end translation) with
      | Some cds_genomic_start, Some cds_genomic_end =>
          foldl (features_step strand cds_genomic_start cds_genomic_end)
            (Features [] [] []) exons
      | _, _ => Features [] [] []
      end
  end.

(** [ensembl_api.py], [get_transcript_details]; [lookup_id] is the request
    [_get("/lookup/id/" + transcript_id, {"expand": "1"})]. *)
Definition get_transcript_details (lookup_id : string -> http_answer lookup_data)
    (transcript_id : string) : api_exn + option (gmap string tval) :=
  match lookup_id transcript_id with
  | NotFound => inr None
  | HttpFailure => inl HTTPError
  | Answer data =>
      let chrom := default "" (ld_seq_region_name data) in
      let strand := if bool_decide (default 1 (ld_strand data) = 1) then "+" else "-" in
      let exons := Py.sorted Py.lt_pair (ld_Exon data) in
      let feats := transcript_features strand (ld_Translation data) exons in
      let transcript_name :=
        match ld_display_name data with
        | Some name => if bool_decide (name = "") then transcript_id else name
        | None => transcript_id
        end in
      inr (Some (list_to_map [
        ("transcript_id", VStr transcript_id);
        ("transcript_name", VStr transcript_name);
        ("chrom", VStr chrom);
        ("strand", VStr strand);
        ("exons", VIntervals exons);
        ("cds", VIntervals (Py.sorted Py.lt_pair (f_cds feats)));
        ("utr5", VIntervals (Py.sorted Py.lt_pair (f_utr5 feats)));
        ("utr3", VIntervals (Py.sorted Py.lt_pair (f_utr3 feats)));
        ("utr", VIntervals (Py.sorted Py.lt_pair (f_utr5 feats ++ f_utr3 feats)))
      ]))
  end.

(** A request for a region's sequence, as [get_region_sequence] sends it. *)
Inductive fetch : Type :=
  | FetchRegion (species chrom : string) (start end_ strand : Z).

(** [tinfo[key]] for the string-valued keys ["chrom"] and ["strand"]: an
    absent key raises. A transcript dictionary holds strings under these
    keys. *)
Definition tinfo_str (tinfo : gmap string tval) (key : string) : api_exn + string :=
  match tinfo !! key with
  | Some (VStr s) => inr s
  | _ => inl (KeyError key)
  end.

(** [min(s for s, e in intervals)] and [max(e for s, e in intervals)] of a
    list that is not empty. *)
Definition min_start (first : interval) (rest : list interval) : Z :=
  foldl Z.min first.1 (fmap fst rest).

Definition max_end (first : interval) (rest : list interval) : Z :=
  foldl Z.max first.2 (fmap snd rest).

(** [x or ""] for a string or [None]. *)
Definition or_empty (x : option string) : string := default "" x.

(** [raw.translate(comp)[::-1].upper()] *)
Definition reverse_complement_upper (raw : string) : string :=
  Py.upper (reverse_complement raw).

Section Sequences.

(** The sequence service: [region_seq species chrom start end strand] is
    the ["seq"] entry of the answer to
    [GET /sequence/region/{species}/{chrom}:{start}..{end}:{strand}],
    [None] when the request fails with an [HTTPError] or the answer has no
    such entry. *)
Variable region_seq : string -> string -> Z -> Z -> Z -> option string.

(** [ensembl_api.py], [get_region_sequence], with the requests it sends. *)
Definition get_region_sequence (chrom : string) (start end_ strand : Z)
    (species : string) : list fetch * option string :=
  if end_ <? start then ([], Some "")
  else ([FetchRegion species chrom start end_ strand],
        region_seq species chrom start end_ strand).

(** Lines 223 to 228 of [build_spliced_sequence]: the loop over the sorted
    intervals, left at the first sequence that is [None]. *)
Fixpoint fetch_parts (chrom species : string) (intervals_sorted : list interval)
    (log : list fetch) (parts : list string) : list fetch * option (list string) :=
  match intervals_sorted with
  | [] => (log, Some parts)
  | (start, end_) :: rest =>
      let r := get_region_sequence chrom start end_ 1 species in
      match r.2 with
      | None => (log ++ r.1, None)
      | Some seq => fetch_parts chrom species rest (log ++ r.1) (parts ++ [seq])
      end
  end.

(** [ensembl_api.py], [build_spliced_sequence] *)
Definition build_spliced_sequence (tinfo : gmap string tval) (feature species : string)
  : list fetch * (api_exn + option string) :=
  let intervals := get_intervals tinfo feature in
  match intervals with
  | [] => ([], inr None)
  | _ =>
      match tinfo_str tinfo "chrom" with
      | inl e => ([], inl e)
      | inr chrom =>
          match tinfo_str tinfo "strand" with
          | inl e => ([], inl e)
          | inr strand =>
              let intervals_sorted := Py.sorted Py.lt_pair intervals in
              let r := fetch_parts chrom species intervals_sorted [] [] in
              match r.2 with
              | None => (r.1, inr None)
              | Some parts =>
                  let full := String.concat "" parts in
                  let full :=
                    if bool_decide (strand = "-") then reverse_complement full
                    else full in
                  (r.1, inr (Some (Py.upper full)))
              end
          end
      end
  end.

(** [ensembl_api.py], [build_genomic_sequence] *)
Definition build_genomic_sequence (tinfo : gmap string tval) (species : string)
  : list fetch * (api_exn + option string) :=
  let exons := get_intervals tinfo "exons" in
  match exons with
  | [] => ([], inr None)
  | first :: rest =>
      match tinfo_str tinfo "chrom" with
      | inl e => ([], inl e)
      | inr chrom =>
          match tinfo_str tinfo "strand" with
          | inl e => ([], inl e)
          | inr strand =>
              let gene_start := min_start first rest in
              let gene_end := max_end first rest in
              let r := get_region_sequence chrom gene_start gene_end 1 species in
              match r.2 with
              | None => (r.1, inr None)
              | Some seq =>
                  let seq :=
                    if bool_decide (strand = "-") then reverse_complement seq
                    else seq in
                  (r.1, inr (Some (Py.upper seq)))
              end
          end
      end
  end.

(** [ensembl_api.py], [get_flanking_sequence] *)
Definition get_flanking_sequence (tinfo : gmap string tval)
    (upstream_bp downstream_bp : Z) (use_cds_anchor : bool) (species : string)
  : list fetch * (api_exn + (string * string)) :=
  let exons := get_intervals tinfo "exons" in
  let cds := get_intervals tinfo "cds" in
  match tinfo_str tinfo "strand" with
  | inl e => ([], inl e)
  | inr strand =>
      match tinfo_str tinfo "chrom" with
      | inl e => ([], inl e)
      | inr chrom =>
          match exons with
          | [] => ([], inr ("", ""))
          | first :: rest =>
              let anchor :=
                match use_cds_anchor, cds with
                | true, c :: cs => (min_start c cs, max_end c cs)
                | _, _ => (min_start first rest, max_end first rest)
                end in
              let anchor_start := anchor.1 in
              let anchor_end := anchor.2 in
              if bool_decide (strand = "+") then
                let up :=
                  if upstream_bp >? 0 then
                    let us := Z.max 1 (anchor_start - upstream_bp) in
                    let ue := anchor_start - 1 in
                    let r := get_region_sequence chrom us ue 1 species in
                    (r.1, or_empty r.2)
                  else ([], "") in
                let down :=
                  if downstream_bp >? 0 then
                    let ds := anchor_end + 1 in
                    let de := anchor_end + downstream_bp in
                    let r := get_region_sequence chrom ds de 1 species in
                    (r.1, or_empty r.2)
                  else ([], "") in
                (up.1 ++ down.1, inr (up.2, down.2))
              else
                let up :=
                  if upstream_bp >? 0 then
                    let us := anchor_end + 1 in
                    let ue := anchor_end + upstream_bp in
                    let r := get_region_sequence chrom us ue 1 species in
                    (r.1, reverse_complement_upper (or_empty r.2))
                  else ([], "") in
                let down :=
                  if downstream_bp >? 0 then
                    let ds := Z.max 1 (anchor_start - downstream_bp) in
                    let de := anchor_start - 1 in
                    let r := get_region_sequence chrom ds de 1 species in
                    (r.1, reverse_complement_upper (or_empty r.2))
                  else ([], "") in
                (up.1 ++ down.1, inr (up.2, down.2))
          end
      end
  end.

End Sequences.

(** ** The junction mode of the [/design_primers] route ([app.py]) *)

(** The entries of the request that the junction mode reads, each as
    [data.get] returns it: [data.get("sequence")] and
    [data.get("junction_pos")], [None] for an absent key, and
    [data.get(key, default)] for the others. The mode is entered when
    [data.get("mode", "internal")] is ["internal"] and [junction_pos] is
    not [None]. *)
Record junction_request : Type := JunctionRequest {
  jr_sequence : json;
  jr_junction_pos : json;
  jr_junction_overlap_min : json;
  jr_junction_overlap_max : json;
  jr_amplicon_min : json;
  jr_amplicon_max : json;
  jr_junction_left_pad : json;
  jr_junction_right_pad : json;
  jr_junction_max_candidates : json
}.

(** The numbers of a junction request after the [int(...)] conversions of
    lines 334 to 341. *)
Record junction_numbers : Type := JunctionNumbers {
  jn_junction_pos : Z;
  jn_junction_overlap_min : Z;
  jn_junction_overlap_max : Z;
  jn_amplicon_min : Z;
  jn_amplicon_max : Z;
  jn_junction_left_pad : Z;
  jn_junction_right_pad : Z;
  jn_junction_max_candidates : Z
}.

(** What made the design fail: an exception of
    [design_junction_primer_pairs] itself, or the one primer3 raised at a
    call. *)
Inductive design_failure : Type :=
  | OwnError (e : pyexn)
  | Primer3Error (call : event).

(** The JSON body of a response of the route. [DesignFailed e] is the body
    [{"error": f"Junction primer design failed: {e}"}]; [JunctionPairs]
    is [{"mode": mode, **out}]. *)
Inductive route_body : Type :=
  | ErrorBody (error : string)
  | DesignFailed (e : design_failure)
  | JunctionPairs (mode : string) (out : design_result).

Record response : Type := Response {
  body : route_body;
  status : Z
}.

(** The diagnostic search of [design_junction_primer_pairs] (lines 116 to
    133), the one call to primer3 made inside a [try] that catches every
    exception. *)
Definition diagnostic_search (call : event) : bool :=
  match call with
  | CallDesignPrimers sa _ => bool_decide (SEQUENCE_ID sa = "diagnostic_test")
  | _ => false
  end.

Section Routes.

Variable round1 : float -> float.
Variable calc_tm : string -> float.
Variable calc_hairpin : string -> thermo_result.
Variable calc_homodimer : string -> thermo_result.
Variable calc_heterodimer : string -> string -> thermo_result.
Variable design_primers : seq_args -> gmap string p3val -> p3_out.

(** The calls at which primer3 raises instead of answering (after the
    [TypeError] and [AttributeError] fallbacks of the callers). *)
Variable primer3_raises : event -> bool.

(** Python's [int] on a string. *)
Variable int_of_str : string -> option Z.

(** Lines 333 to 343: the eight conversions, in order; [None] when one of
    them raises, whatever it raises. *)
Definition read_junction_numbers (request : junction_request)
  : option junction_numbers :=
  let number v := match json_int int_of_str v with inr z => Some z | inl _ => None end in
  junction_pos ← number (jr_junction_pos request);
  ov_min ← number (jr_junction_overlap_min request);
  ov_max ← number (jr_junction_overlap_max request);
  amp_min ← number (jr_amplicon_min request);
  amp_max ← number (jr_amplicon_max request);
  left_pad ← number (jr_junction_left_pad request);
  right_pad ← number (jr_junction_right_pad request);
  max_candidates ← number (jr_junction_max_candidates request);
  Some (JunctionNumbers junction_pos ov_min ov_max amp_min amp_max
          left_pad right_pad max_candidates).

(** Lines 360 to 374: the call of [design_junction_primer_pairs] inside
    the [try]. The function has no handler of its own but the one around
    its diagnostic search, so it ends at the first other call at which
    primer3 raises, with the calls made so far; when primer3 answers
    every call it ends as the embedding of the function says. *)
Definition try_design (template : string) (junction_pos ov_min ov_max : Z)
    (amp_min amp_max left_pad right_pad max_candidates : Z)
  : list event * (design_failure + design_result) :=
  let r :=
    design_junction_primer_pairs round1 calc_tm calc_hairpin calc_homodimer
      calc_heterodimer design_primers template junction_pos ov_min ov_max
      amp_min amp_max None left_pad right_pad max_candidates in
  match first_raise (fun call => primer3_raises call && negb (diagnostic_search call))
          r.1 with
  | Some (made, failed) => (made, inl (Primer3Error failed))
  | None =>
      match r.2 with
      | Raised e => (r.1, inl (OwnError e))
      | Returned out => (r.1, inr out)
      end
  end.

(** [app.py], [design_primers], lines 326 to 383: the junction mode. The
    result is the response, or the exception that leaves the route. *)
Definition design_primers_junction_mode (request : junction_request)
  : list event * (pyexn + response) :=
  match json_strip (json_or (jr_sequence request) (JStr "")) with
  | inl e => ([], inl e)
  | inr template =>
      let template := Py.remove_spaces (Py.upper template) in
      let template :=
        Py.str (filter (fun c => c ∈ Py.chars "ACGTN") (Py.chars template)) in
      if bool_decide (template = "") then
        ([], inr (Response (ErrorBody "No template sequence provided") 400))
      else
        match read_junction_numbers request with
        | None =>
            ([], inr (Response (ErrorBody "Invalid junction/amplicon parameters") 400))
        | Some numbers =>
            let junction_pos := jn_junction_pos numbers in
            let ov_min := jn_junction_overlap_min numbers in
            let ov_max := jn_junction_overlap_max numbers in
            let amp_min := jn_amplicon_min numbers in
            let amp_max := jn_amplicon_max numbers in
            let left_pad := jn_junction_left_pad numbers in
            let right_pad := jn_junction_right_pad numbers in
            let max_candidates := jn_junction_max_candidates numbers in
            if (junction_pos <=? 0) || (junction_pos >=? Py.str_len template) then
              ([], inr (Response
                          (ErrorBody "junction_pos out of range for provided sequence")
                          400))
            else
              let ov_min := Z.max 1 ov_min in
              let ov_max := Z.max ov_min ov_max in
              let left_pad := Z.max 80 (Z.min left_pad 800) in
              let right_pad := Z.max 120 (Z.min right_pad 1200) in
              let max_candidates := Z.max 5 (Z.min max_candidates 60) in
              let r :=
                try_design template junction_pos ov_min ov_max amp_min amp_max
                  left_pad right_pad max_candidates in
              match r.2 with
              | inl e => (r.1, inr (Response (DesignFailed e) 500))
              | inr out =>
                  if num_pairs out =? 0 then
                    (r.1, inr (Response
                                 (ErrorBody
                                    "No exon-exon junction primer pairs found. Try a different junction or relax constraints.")
                                 404))
                  else (r.1, inr (Response (JunctionPairs "internal" out) 200))
              end
        end
  end.

End Routes.

(** ** The [/get_sequence] route ([app.py]) *)












Section GetSequence.

Variable lookup_id : string -> http_answer lookup_data.
Variable region_seq : string -> string -> Z -> Z -> Z -> option string.

(** The lookups and the requests for a sequence at which the service
    raises something other than an [HTTPError]. *)
Variable lookup_raises : string -> bool.
Variable region_raises : fetch -> bool.

(** Python's [int] on a string. *)
Variable int_of_str : string -> option Z.





End GetSequence.

(** *** Transcript features *)

(** A position covered by one of the closed intervals of a list. *)
Definition covers (l : list interval) (x : Z) : Prop :=
  exists iv, iv ∈ l /\ iv.1 <= x <= iv.2.

(** The part of a closed interval inside [[lo, hi]], below [bound], and
    above [bound], when there is one. [features_pieces] compares them with
    the exon loop of [get_transcript_details]. *)
Definition clip (lo hi : Z) (iv : interval) : option interval :=
  if Z.max iv.1 lo <=? Z.min iv.2 hi then Some (Z.max iv.1 lo, Z.min iv.2 hi) else None.

Definition below (bound : Z) (iv : interval) : option interval :=
  if iv.1 <=? Z.min iv.2 (bound - 1) then Some (iv.1, Z.min iv.2 (bound - 1)) else None.

Definition above (bound : Z) (iv : interval) : option interval :=
  if Z.max iv.1 (bound + 1) <=? iv.2 then Some (Z.max iv.1 (bound + 1), iv.2) else None.

(** An interval inside some interval of a list. *)
Definition inside (l : list interval) (iv : interval) : Prop :=
  Exists (fun e => e.1 <= iv.1 /\ iv.2 <= e.2) l.

(** Length of a spliced interval [(start, end)], end-exclusive, and of a
    list of them. *)
Definition span_len (a : Z * Z) : Z := a.2 - a.1.
Definition annotated_len (l : list (Z * Z)) : Z := Py.sum (fmap span_len l).

(** Number of positions two closed intervals share. *)
Definition shared_len (e c : interval) : Z :=
  Z.max 0 (Z.min e.2 c.2 - Z.max e.1 c.1 + 1).

(** *** Sequences from the service *)

(** A request the service answered with a sequence. *)
Definition answered (region_seq : string -> string -> Z -> Z -> Z -> option string)
    (f : fetch) : Prop :=
  match f with
  | FetchRegion species chrom start end_ strand =>
      is_Some (region_seq species chrom start end_ strand)
  end.

(** A request for a region that is not empty, on the forward strand. *)
Definition proper_request (f : fetch) : Prop :=
  match f with
  | FetchRegion _ _ start end_ strand => start <= end_ /\ strand = 1
  end.

(** The service answers with as many bases as the region asked for has. *)
Definition full_length (region_seq : string -> string -> Z -> Z -> Z -> option string)
  : Prop :=
  forall species chrom start end_ strand seq,
    start <= end_ ->
    region_seq species chrom start end_ strand = Some seq ->
    Py.str_len seq = end_ - start + 1.

(** A transcript dictionary with its strand set. *)
Definition on_strand (strand : string) (tinfo : gmap string tval) : gmap string tval :=
  <["strand" := VStr strand]> tinfo.

(** A sequence service that reads a 60-base chromosome. *)
Definition test_chromosome : string := repeat_str 6 "AACCGGTTAC".

Definition test_region_seq (species chrom : string) (start end_ strand : Z)
  : option string :=
  if (1 <=? start) && (end_ <=? 60) then Some (Py.str_slice test_chromosome (start - 1) end_)
  else None.

(** *** Returned pairs *)

(** The pair [p] is the one the loop body builds for the ranked left
    candidate [sc] and the right candidate [rc], which passed the Tm and
    the product-size tests. *)
Definition pair_from (round1 : float -> float) (calc_tm : string -> float)
    (calc_hairpin calc_homodimer : string -> thermo_result)
    (calc_heterodimer : string -> string -> thermo_result)
    (local : string) (win_start junction_pos product_min product_max : Z)
    (sc : scored_candidate) (rc : right_candidate) (p : primer_pair) : Prop :=
  let start := sc.1.2.1 in
  let end_ := sc.1.2.2 in
  let prod_size := (rc_interval_local rc).2 - start in
  tm_incompatible (Py.float_or_zero (a_tm sc.2)) (rc_tm rc) = false
  /\ product_min <= prod_size <= product_max
  /\ pp_junction_pos p = junction_pos
  /\ junction_spanning p = "left"
  /\ p_analysis (pp_left p) = sc.2
  /\ p_interval (pp_left p) = (win_start + start, win_start + end_)
  /\ p_analysis (pp_right p)
     = analyze_primer round1 calc_tm calc_hairpin calc_homodimer (rc_seq rc)
  /\ p_interval (pp_right p)
     = (win_start + (rc_interval_local rc).1, win_start + (rc_interval_local rc).2)
  /\ p_position (pp_left p)
     = ((p_interval (pp_left p)).1, (p_interval (pp_left p)).2 - (p_interval (pp_left p)).1)
  /\ p_position (pp_right p)
     = ((p_interval (pp_right p)).1,
        (p_interval (pp_right p)).2 - (p_interval (pp_right p)).1)
  /\ product_size p = prod_size
  /\ pp_pair_metrics p
     = analyze_pair round1 calc_heterodimer (Py.str_slice local start end_) (rc_seq rc).

(** The primer3 searches of a run: the arguments every search is given
    whatever the caller's [primer_params] say, and the two searches. *)
Definition relaxed_search (args : gmap string p3val) : Prop :=
  args !! "PRIMER_MIN_TM" = Some (PFloat 55.0)
  /\ args !! "PRIMER_MAX_TM" = Some (PFloat 68.0)
  /\ args !! "PRIMER_MIN_GC" = Some (PFloat 35.0)
  /\ args !! "PRIMER_MAX_GC" = Some (PFloat 65.0)
  /\ args !! "PRIMER_EXPLAIN_FLAG" = Some (PInt 1)
  /\ args !! "PRIMER_PICK_INTERNAL_OLIGO" = Some (PInt 0)
  /\ args !! "PRIMER_PICK_RIGHT_PRIMER" = Some (PInt 1).

Definition search_calls (log : list event) : list (seq_args * gmap string p3val) :=
  omap (fun ev => match ev with
                  | CallDesignPrimers sa args => Some (sa, args)
                  | _ => None
                  end) log.

(** The left intervals of the pairs, in the order of the list. *)
Definition left_intervals (ps : list primer_pair) : list (Z * Z) :=
  fmap (fun p => p_interval (pp_left p)) ps.

(** Left intervals grouped by ranked candidate, in the order of the
    ranking: the first candidate's interval some number of times, then the
    second's, and so on. *)
Definition grouped_by_rank (win_start : Z) (ranked : list scored_candidate)
    (lefts : list (Z * Z)) : Prop :=
  exists counts : list nat,
    length counts = length ranked
    /\ lefts
       = mjoin (zip_with (fun sc k => replicate k (win_start + sc.1.2.1, win_start + sc.1.2.2))
                  ranked counts).

(** *** Reading a chromosome *)

(** The service reads its sequences off one chromosome: the region
    [start..end] of [chrom], 1-based and closed, is that part of
    [genome]. *)
Definition reads_chromosome
    (region_seq : string -> string -> Z -> Z -> Z -> option string)
    (species chrom genome : string) : Prop :=
  forall start end_, 1 <= start <= end_ -> end_ <= Py.str_len genome ->
    region_seq species chrom start end_ 1 = Some (Py.str_slice genome (start - 1) end_).

(** An interval on the chromosome. *)
Definition on_chromosome (genome : string) (iv : interval) : Prop :=
  1 <= iv.1 /\ iv.1 <= iv.2 /\ iv.2 <= Py.str_len genome.

(** The bases of an interval, as a list. *)
Definition bases_at {A} (G : list A) (iv : interval) : list A :=
  Py.slice G (iv.1 - 1) iv.2.

(** A CDS interval inside one exon. *)
Definition inside_one (e c : interval) : Prop := e.1 <= c.1 /\ c.2 <= e.2.

(** Exons in ascending order, each ending before the next begins. *)
Definition before (a b : interval) : Prop := a.2 < b.1.

(** *** The genomic view *)




(** A lookup service that knows a coding transcript on the minus strand
    and a non-coding one on the plus strand. *)
Definition test_coding : lookup_data :=
  LookupData (Some "7") (Some (-1)) (Some "GENE-201")
    [(21, 30); (1, 10); (41, 50)] (Some (TranslationData (Some 5) (Some 45))).

Definition test_noncoding : lookup_data :=
  LookupData (Some "7") None None [(21, 30); (1, 10)] None.

Definition test_lookup_id (transcript_id : string) : http_answer lookup_data :=
  if bool_decide (transcript_id = "ENST01") then Answer test_coding
  else if bool_decide (transcript_id = "ENST02") then Answer test_noncoding
  else NotFound.

Definition test_tinfo (transcript_id : string) : gmap string tval :=
  match get_transcript_details test_lookup_id transcript_id with
  | inr (Some t) => t
  | _ => ∅
  end.

(** The sequence the test service has for an interval. *)
Definition test_seq_of (iv : interval) : string :=
  Py.str_slice test_chromosome (iv.1 - 1) iv.2.

(** *** The junction route *)

(** One of the letters the route keeps. *)
Definition base_letter (c : ascii) : Prop := c ∈ Py.chars "ACGTN".

(** The letters of a sequence the route designs on: the bases of the
    upper-cased sequence, in order. *)
Definition bases_of (sequence : string) : string :=
  Py.str (filter base_letter (Py.upper_char <$> Py.chars sequence)).

(** The messages the route answers with. *)
Definition no_pairs_message : string :=
  "No exon-exon junction primer pairs found. Try a different junction or relax constraints.".

Definition bad_request_messages : list string :=
  [ "No template sequence provided";
    "Invalid junction/amplicon parameters";
    "junction_pos out of range for provided sequence" ].

(** A request on the 240-base template, in lower case between blanks,
    with its numbers as JSON integers and one of them as a string. *)
Definition test_request_sequence : string :=
  "  " +:+ repeat_str 30 "acgttgca" +:+ " ".

Definition test_int_of_str (s : string) : option Z :=
  if bool_decide (s = "40") then Some 40 else None.

Definition test_junction_request : junction_request :=
  JunctionRequest (JStr test_request_sequence) (JStr "40") (JInt 0) (JInt 12)
    (JInt 80) (JInt 220) (JInt 10) (JInt 400) (JInt 25).

Definition test_request_numbers : junction_numbers :=
  JunctionNumbers 40 0 12 80 220 10 400 25.

(** A primer3 that answers every call, and one that raises at the search
    for right primers. *)
Definition test_primer3_answers (call : event) : bool := false.

Definition test_primer3_raises (call : event) : bool :=
  match call with
  | CallDesignPrimers _ _ => true
  | _ => false
  end.

Definition test_response : list event * (pyexn + response) :=
  design_primers_junction_mode test_round1 test_calc_tm test_calc_thermo
    test_calc_thermo test_calc_heterodimer test_design_primers
    test_primer3_answers test_int_of_str test_junction_request.

(** * Properties *)

(** ** Strings *)

Lemma chars_str (l : list ascii) : Py.chars (Py.str l) = l.
Proof. apply list_ascii_of_string_of_list_ascii. Qed.

Lemma str_chars (s : string) : Py.str (Py.chars s) = s.
Proof. apply string_of_list_ascii_of_string. Qed.

Lemma str_inj (l1 l2 : list ascii) : Py.str l1 = Py.str l2 -> l1 = l2.
Proof. intros H. rewrite <- (chars_str l1), <- (chars_str l2). by rewrite H. Qed.

Lemma comp_char_involutive (c : ascii) : comp_char (comp_char c) = c.
Proof.
  destruct c as [b0 b1 b2 b3 b4 b5 b6 b7].
  destruct b0, b1, b2, b3, b4, b5, b6, b7; vm_compute; reflexivity.
Qed.

Lemma reverse_complement_chars (s : string) :
  Py.chars (reverse_complement s) = reverse (fmap comp_char (Py.chars s)).
Proof.
  unfold reverse_complement, Py.str_reverse, Py.translate.
  by rewrite !chars_str.
Qed.

(** C10. Reverse complement, the substitution [A<->T], [C<->G] in either
    case followed by reversal, is an involution: applied twice to any
    string (so to any string over the table's alphabet) it gives the
    string back. The substitution does swap those letters, keeps the case,
    and leaves every other character alone. *)
Theorem reverse_complement_involutive :
  (forall s : string, reverse_complement (reverse_complement s) = s)
  /\ fmap comp_char (Py.chars "ACGTacgt") = Py.chars "TGCAtgca"
  /\ (forall c : ascii, c ∉ Py.chars "ACGTacgt" -> comp_char c = c)
  /\ (forall s : string, Py.chars (reverse_complement s)
                         = reverse (fmap comp_char (Py.chars s))).
Proof.
  split; [|split; [|split]].
  - intros s. rewrite <- (str_chars (reverse_complement (reverse_complement s))).
    rewrite !reverse_complement_chars.
    rewrite fmap_reverse, reverse_involutive, <- list_fmap_compose.
    rewrite <- (str_chars s) at 2. f_equal.
    rewrite <- (list_fmap_id (Py.chars s)) at 2.
    apply list_fmap_ext. intros i c _. apply comp_char_involutive.
  - vm_compute. reflexivity.
  - intros c Hc. unfold comp_char.
    destruct (comp !! c) as [d|] eqn:E; [|done].
    exfalso. apply Hc.
    destruct c as [b0 b1 b2 b3 b4 b5 b6 b7].
    destruct b0, b1, b2, b3, b4, b5, b6, b7;
      vm_compute in E; try discriminate E;
      apply (bool_decide_unpack _); vm_compute; reflexivity.
  - apply reverse_complement_chars.
Qed.

(** ** The stable sort *)

Section Sorting.

Context {A : Type} (lt : A -> A -> bool).

Lemma insert_Permutation (x : A) (l : list A) : Py.insert lt x l ≡ₚ x :: l.
Proof.
  induction l as [|y l IH]; simpl; [done|].
  destruct (lt y x); [|done].
  rewrite IH. apply Permutation_swap.
Qed.

Lemma sorted_Permutation (l : list A) : Py.sorted lt l ≡ₚ l.
Proof.
  induction l as [|x l IH]; simpl; [done|].
  fold (Py.sorted lt l). by rewrite insert_Permutation, IH.
Qed.

Lemma length_sorted (l : list A) : length (Py.sorted lt l) = length l.
Proof. by rewrite sorted_Permutation. Qed.

Lemma insert_HdRel (R : relation A) (a x : A) (l : list A) :
  R a x -> HdRel R a l -> HdRel R a (Py.insert lt x l).
Proof.
  intros Hax Hal. destruct l as [|y l]; simpl; [by constructor|].
  inversion_clear Hal. destruct (lt y x); by constructor.
Qed.

(** Stability: the elements of a class [P] that [<] does not separate keep
    their order. *)
Lemma filter_insert (P : A -> Prop) `{!forall x, Decision (P x)} (x : A) (l : list A) :
  (forall y, lt y x = true -> P x -> P y -> False) ->
  filter P (Py.insert lt x l) = filter P (x :: l).
Proof.
  intros Hsep. induction l as [|y l IH]; simpl; [done|].
  destruct (lt y x) eqn:E; [|done].
  rewrite (filter_cons P y), IH, !filter_cons.
  destruct (decide (P y)), (decide (P x)); try done.
  exfalso. eauto.
Qed.

Lemma sorted_stable (P : A -> Prop) `{!forall x, Decision (P x)} (l : list A) :
  (forall x y, lt y x = true -> P x -> P y -> False) ->
  filter P (Py.sorted lt l) = filter P l.
Proof.
  intros Hsep. induction l as [|x l IH]; simpl; [done|].
  fold (Py.sorted lt l). rewrite filter_insert by eauto.
  by rewrite !filter_cons, IH.
Qed.

Hypothesis lt_asym : forall x y, lt x y = true -> lt y x = false.

Lemma insert_Sorted (x : A) (l : list A) :
  Sorted (not_after lt) l -> Sorted (not_after lt) (Py.insert lt x l).
Proof.
  induction 1 as [|y l Hl IH Hy]; simpl.
  - repeat constructor.
  - destruct (lt y x) eqn:E.
    + constructor; [done|]. apply insert_HdRel; [|done].
      unfold not_after. by apply lt_asym.
    + repeat constructor; done.
Qed.

Lemma sorted_Sorted (l : list A) : Sorted (not_after lt) (Py.sorted lt l).
Proof.
  induction l as [|x l IH]; simpl; [constructor|].
  by apply insert_Sorted.
Qed.

End Sorting.

Lemma Sorted_weaken {A} (R1 R2 : relation A) (P : A -> Prop) (l : list A) :
  (forall x y, P x -> P y -> R1 x y -> R2 x y) ->
  Forall P l -> Sorted R1 l -> Sorted R2 l.
Proof.
  intros HR HP Hs. induction Hs as [|x l Hl IH Hx]; [constructor|].
  apply Forall_cons in HP as [Hpx HP]. constructor; [by apply IH|].
  destruct Hx as [|y l' Hxy]; constructor.
  apply Forall_cons in HP as [Hpy _]. by apply HR.
Qed.

Lemma lt_pair_true (a b : Z * Z) :
  Py.lt_pair a b = true <-> a.1 < b.1 \/ (a.1 = b.1 /\ a.2 < b.2).
Proof. unfold Py.lt_pair. destruct a, b; simpl. lia. Qed.

Lemma lt_pair_false (a b : Z * Z) : Py.lt_pair b a = false <-> le_pair a b.
Proof.
  unfold le_pair. destruct (Py.lt_pair b a) eqn:E.
  - apply lt_pair_true in E. split; [done|]. lia.
  - split; [|done]. intros _.
    assert (~ (b.1 < a.1 \/ (b.1 = a.1 /\ b.2 < a.2))) as H.
    { rewrite <- lt_pair_true. by rewrite E. }
    lia.
Qed.

#[local] Instance le_pair_trans : Transitive le_pair.
Proof. intros a b c. unfold le_pair. lia. Qed.

#[local] Instance le_pair_antisym : AntiSymm (=) le_pair.
Proof.
  intros [a1 a2] [b1 b2]. unfold le_pair. simpl. intros H1 H2.
  f_equal; lia.
Qed.

Lemma sorted_pairs_Sorted (l : list (Z * Z)) : Sorted le_pair (Py.sorted Py.lt_pair l).
Proof.
  eapply (Sorted_weaken _ _ (fun _ => True)); [| |apply (sorted_Sorted Py.lt_pair)].
  - intros a b _ _ H. by apply lt_pair_false.
  - by apply Forall_true.
  - intros x y H. apply lt_pair_true in H.
    destruct (Py.lt_pair y x) eqn:E; [|done].
    apply lt_pair_true in E. lia.
Qed.

(** Sorting tuples gives the one ascending arrangement of the list. *)
Lemma sorted_pairs_unique (l l' : list (Z * Z)) :
  l' ≡ₚ l -> Sorted le_pair l' -> Py.sorted Py.lt_pair l = l'.
Proof.
  intros Hp Hs. apply (Sorted_unique le_pair); [apply sorted_pairs_Sorted|done|].
  by rewrite sorted_Permutation.
Qed.

(** ** Blocks and junctions *)

Lemma spliced_len_nil : spliced_len [] = 0.
Proof. reflexivity. Qed.

Lemma spliced_len_cons (b : interval) (l : list interval) :
  spliced_len (b :: l) = block_len b + spliced_len l.
Proof. reflexivity. Qed.

Lemma spliced_len_app (l1 l2 : list interval) :
  spliced_len (l1 ++ l2) = spliced_len l1 + spliced_len l2.
Proof.
  induction l1 as [|b l1 IH]; [done|].
  rewrite <- app_comm_cons, !spliced_len_cons, IH. lia.
Qed.

Lemma spliced_len_Permutation (l1 l2 : list interval) :
  l1 ≡ₚ l2 -> spliced_len l1 = spliced_len l2.
Proof.
  induction 1 as [|x l l' _ IH|x y l|l l' l'' _ IH1 _ IH2];
    rewrite ?spliced_len_cons; lia.
Qed.

Lemma spliced_len_nonneg (l : list interval) :
  Forall well_formed l -> 0 <= spliced_len l.
Proof.
  induction 1 as [|b l Hb _ IH]; [done|].
  rewrite spliced_len_cons. unfold well_formed, block_len in *. lia.
Qed.

(** A longer prefix of well-formed blocks is strictly longer once spliced. *)
Lemma spliced_len_take_lt (l : list interval) (p q : nat) :
  Forall well_formed l -> (p < q <= length l)%nat ->
  spliced_len (take p l) < spliced_len (take q l).
Proof.
  intros Hwf. revert p q. induction Hwf as [|b l Hb Hl IH]; intros p q Hpq; simpl in *.
  - lia.
  - destruct q as [|q]; [lia|]. destruct p as [|p]; simpl.
    + rewrite spliced_len_cons, spliced_len_nil.
      pose proof (spliced_len_nonneg (take q l) (Forall_take _ _ _ Hl)) as Hq.
      unfold well_formed, block_len in *. lia.
    + rewrite !spliced_len_cons. specialize (IH p q). lia.
Qed.

Lemma junctions_loop_last (n i cum : Z) (b : interval) :
  n = i + 1 -> junctions_loop n i cum [b] = [].
Proof.
  intros ->. destruct b as [s e]. simpl.
  by replace (i <? i + 1 - 1) with false by lia.
Qed.

Lemma junctions_loop_cons (n i cum : Z) (b b' : interval) (rest : list interval) :
  n = i + Py.len (b :: b' :: rest) ->
  junctions_loop n i cum (b :: b' :: rest)
  = Junction i (cum + block_len b)
      ("Exon " +:+ pretty (i + 1) +:+ "|" +:+ pretty (i + 2))
      :: junctions_loop n (i + 1) (cum + block_len b) (b' :: rest).
Proof.
  intros Hn. destruct b as [s e]. cbn [junctions_loop].
  destruct (Z.ltb_spec i (n - 1)) as [_|Hge]; [reflexivity|].
  exfalso. unfold Py.len in Hn. rewrite !length_cons in Hn. lia.
Qed.

Lemma junctions_loop_length (blocks : list interval) (n i cum : Z) :
  n = i + Py.len blocks ->
  length (junctions_loop n i cum blocks) = pred (length blocks).
Proof.
  revert i cum. induction blocks as [|b [|b' rest] IH]; intros i cum Hn.
  - done.
  - rewrite junctions_loop_last; [done|]. by rewrite Hn.
  - rewrite junctions_loop_cons by done. cbn [length].
    rewrite IH; [done|]. rewrite Hn. unfold Py.len. cbn [length]. lia.
Qed.

Lemma junctions_loop_lookup (blocks : list interval) (n i cum : Z) (p : nat) (j : junction) :
  n = i + Py.len blocks ->
  junctions_loop n i cum blocks !! p = Some j ->
  j_index j = i + Z.of_nat p
  /\ j_pos j = cum + spliced_len (take (S p) blocks)
  /\ j_label j = "Exon " +:+ pretty (i + Z.of_nat p + 1) +:+ "|"
                 +:+ pretty (i + Z.of_nat p + 2).
Proof.
  revert i cum p. induction blocks as [|b [|b' rest] IH]; intros i cum p Hn.
  - done.
  - rewrite junctions_loop_last; [done|]. by rewrite Hn.
  - rewrite junctions_loop_cons by done. destruct p as [|p].
    + intros [= <-]. cbn [j_index j_pos j_label take].
      rewrite spliced_len_cons, spliced_len_nil, !Z.add_0_r. done.
    + cbn [lookup list_lookup]. intros Hj.
      apply IH in Hj as (Hi & Hp & Hl).
      * rewrite Hi, Hp, Hl.
        replace (i + 1 + Z.of_nat p) with (i + Z.of_nat (S p)) by lia.
        split; [done|]. split; [|done].
        change (take (S (S p)) (b :: b' :: rest)) with (b :: take (S p) (b' :: rest)).
        rewrite spliced_len_cons. lia.
      * rewrite Hn. unfold Py.len. cbn [length]. lia.
Qed.

(** The junctions of any list of blocks. *)
Lemma junctions_of_blocks (blocks : list interval) :
  let junctions := _junctions_from_blocks blocks in
  length junctions = pred (length blocks)
  /\ (forall (i : nat) j, junctions !! i = Some j ->
        j_index j = Z.of_nat i /\ j_pos j = spliced_len (take (S i) blocks)).
Proof.
  unfold _junctions_from_blocks. split.
  - by apply junctions_loop_length.
  - intros i j Hj. apply junctions_loop_lookup in Hj as (Hi & Hp & _); [|done].
    rewrite Hi, Hp. split; lia.
Qed.

Lemma blocks_Permutation (tinfo : gmap string tval) (feature : string) :
  _blocks_for_spliced_sequence tinfo feature ≡ₚ get_intervals tinfo feature.
Proof.
  unfold _blocks_for_spliced_sequence.
  destruct (get_intervals tinfo feature) as [|b l] eqn:E; [done|].
  destruct (strand_is_minus tinfo).
  - by rewrite reverse_Permutation, sorted_Permutation.
  - by rewrite sorted_Permutation.
Qed.

(** C1. For a transcript with [k >= 1] exons, each with [start <= end],
    the blocks are the [k] exons in some order and the junction derivation
    gives exactly [k - 1] junctions; the [i]-th junction's [pos] is the
    summed length of the first [i + 1] blocks; [pos] increases strictly
    along the list; and every junction's [pos], the last one's too, is
    strictly below the total spliced length. *)
Theorem junctions_count_and_positions (tinfo : gmap string tval) (k : nat) :
  let exons := get_intervals tinfo "exons" in
  let blocks := _blocks_for_spliced_sequence tinfo "exons" in
  let junctions := _junctions_from_blocks blocks in
  length exons = k -> (1 <= k)%nat -> Forall well_formed exons ->
  length blocks = k
  /\ length junctions = (k - 1)%nat
  /\ (forall (i : nat) j, junctions !! i = Some j ->
        j_index j = Z.of_nat i /\ j_pos j = spliced_len (take (S i) blocks))
  /\ (forall (i i' : nat) j j', (i < i')%nat ->
        junctions !! i = Some j -> junctions !! i' = Some j' ->
        j_pos j < j_pos j')
  /\ (forall j, last junctions = Some j -> j_pos j < spliced_len blocks)
  /\ (forall j, j ∈ junctions -> j_pos j < spliced_len blocks).
Proof.
  intros exons blocks junctions Hk Hk1 Hwf.
  assert (blocks ≡ₚ exons) as Hperm by apply blocks_Permutation.
  assert (length blocks = k) as Hlen by (by rewrite Hperm).
  assert (Forall well_formed blocks) as Hwfb by (by rewrite Hperm).
  destruct (junctions_of_blocks blocks) as [Hjl Hjs].
  fold junctions in Hjl, Hjs.
  assert (forall (i : nat) j, junctions !! i = Some j ->
            (S i < length blocks)%nat) as Hbound.
  { intros i j Hj. apply lookup_lt_Some in Hj. lia. }
  assert (forall (i : nat) j, junctions !! i = Some j ->
            j_pos j < spliced_len blocks) as Hlt.
  { intros i j Hj. destruct (Hjs i j Hj) as [_ ->].
    rewrite <- (firstn_all blocks) at 2.
    apply spliced_len_take_lt; [done|]. apply Hbound in Hj. lia. }
  split; [done|]. split; [lia|]. split; [done|]. split; [|split].
  - intros i i' j j' Hii Hj Hj'.
    destruct (Hjs i j Hj) as [_ ->]. destruct (Hjs i' j' Hj') as [_ ->].
    apply spliced_len_take_lt; [done|]. apply Hbound in Hj'. lia.
  - intros j Hj. rewrite last_lookup in Hj. eauto.
  - intros j Hj. apply list_elem_of_lookup in Hj as [i Hj]. eauto.
Qed.

Lemma junctions_count_and_positions_witness :
  let tinfo : gmap string tval :=
    {[ "strand" := VStr "-"; "exons" := VIntervals [(21, 25); (1, 10); (31, 32)] ]} in
  _junctions_from_blocks (_blocks_for_spliced_sequence tinfo "exons")
  = [Junction 0 2 "Exon 1|2"; Junction 1 7 "Exon 2|3"]
  /\ length (_junctions_from_blocks (_blocks_for_spliced_sequence tinfo "exons")) = 2%nat.
Proof.
  intros tinfo. split; [vm_compute; reflexivity|].
  refine (proj1 (proj2 (junctions_count_and_positions tinfo 3 _ _ _))).
  - vm_compute. reflexivity.
  - lia.
  - repeat constructor; unfold well_formed; simpl; lia.
Defined.

(** ** Candidate Generator *)

Lemma elem_of_range (lo hi k : Z) : k ∈ Py.range lo hi <-> lo <= k < hi.
Proof. unfold Py.range. rewrite elem_of_seqZ. lia. Qed.

Lemma length_bind_le {A B} (f : A -> list B) (l : list A) (k : nat) :
  (forall x, x ∈ l -> (length (f x) <= k)%nat) ->
  (length (l ≫= f) <= length l * k)%nat.
Proof.
  induction l as [|x l IH]; intros Hf; [done|].
  rewrite bind_cons, length_app. cbn [length].
  pose proof (Hf x (list_elem_of_here _ _)).
  assert (length (l ≫= f) <= length l * k)%nat as IH'.
  { apply IH. intros y Hy. apply Hf. by right. }
  lia.
Qed.

Lemma elem_of_span_of (j n pmin pmax l r : Z) (c : Z * Z) :
  c ∈ span_of j n pmin pmax l r <->
  c = (j - l, j + r) /\ pmin <= l + r <= pmax /\ 0 <= j - l /\ j + r <= n.
Proof.
  unfold span_of.
  destruct (Z.ltb_spec (l + r) pmin), (Z.gtb_spec (l + r) pmax),
    (Z.ltb_spec (j - l) 0), (Z.gtb_spec (j + r) n); simpl;
    rewrite ?list_elem_of_singleton, ?elem_of_nil; intuition lia.
Qed.

Lemma generate_candidates_bind (j n omin omax pmin pmax : Z) :
  generate_candidates j n omin omax pmin pmax
  = Py.range omin (omax + 1) ≫= fun left_ov =>
    Py.range omin (omax + 1) ≫= fun right_ov =>
    span_of j n pmin pmax left_ov right_ov.
Proof. reflexivity. Qed.

Lemma elem_of_generate_candidates (j n omin omax pmin pmax : Z) (c : Z * Z) :
  c ∈ generate_candidates j n omin omax pmin pmax <->
  exists left_ov right_ov,
    omin <= left_ov <= omax /\ omin <= right_ov <= omax
    /\ pmin <= left_ov + right_ov <= pmax
    /\ c = (j - left_ov, j + right_ov)
    /\ 0 <= c.1 /\ c.2 <= n.
Proof.
  rewrite generate_candidates_bind, list_elem_of_bind. split.
  - intros (l & Hc & Hl). apply list_elem_of_bind in Hc as (r & Hc & Hr).
    apply elem_of_span_of in Hc as (-> & ? & ? & ?).
    apply elem_of_range in Hl, Hr. exists l, r. simpl. repeat split; lia.
  - intros (l & r & ? & ? & ? & -> & ? & ?). simpl in *.
    exists l. rewrite list_elem_of_bind, elem_of_range. split; [|lia].
    exists r. rewrite elem_of_span_of, elem_of_range. repeat split; lia.
Qed.

Lemma NoDup_generate_candidates (j n omin omax pmin pmax : Z) :
  NoDup (generate_candidates j n omin omax pmin pmax).
Proof.
  rewrite generate_candidates_bind. apply NoDup_bind.
  - intros l1 l2 c _ _ H1 H2.
    apply list_elem_of_bind in H1 as (r1 & H1 & _).
    apply list_elem_of_bind in H2 as (r2 & H2 & _).
    apply elem_of_span_of in H1 as (-> & _). apply elem_of_span_of in H2 as (H2 & _).
    inversion H2. lia.
  - intros l _. apply NoDup_bind.
    + intros r1 r2 c _ _ H1 H2.
      apply elem_of_span_of in H1 as (-> & _). apply elem_of_span_of in H2 as (H2 & _).
      inversion H2. lia.
    + intros r _. unfold span_of.
      repeat case_match; auto using NoDup_nil_2, NoDup_singleton.
    + apply NoDup_seqZ.
  - apply NoDup_seqZ.
Qed.

Lemma length_generate_candidates (j n omin omax pmin pmax : Z) :
  omin <= omax ->
  Py.len (generate_candidates j n omin omax pmin pmax) <= (omax - omin + 1) ^ 2.
Proof.
  intros Ho. rewrite generate_candidates_bind. unfold Py.len.
  set (w := Z.to_nat (omax - omin + 1)).
  assert (length (Py.range omin (omax + 1)) = w) as Hw.
  { unfold Py.range. rewrite length_seqZ. unfold w. f_equal. lia. }
  etrans.
  - apply inj_le. apply (length_bind_le _ _ (w * 1)%nat).
    intros l _. rewrite <- Hw. apply length_bind_le.
    intros r _. unfold span_of. repeat case_match; simpl; lia.
  - rewrite Hw. unfold w. nia.
Qed.

(** C3. For a window of length [n], a junction offset [0 <= j <= n] and
    bounds [overlap_min <= overlap_max],
    [primer_length_min <= primer_length_max], the Candidate Generator emits
    exactly the spans [(j - left_ov, j + right_ov)] with both overlaps in
    [[overlap_min, overlap_max]], their sum in
    [[primer_length_min, primer_length_max]], [start >= 0] and [end <= n].
    Hence every span has a length within the primer bounds, reaches at
    least [overlap_min] bases on each side of the junction, occurs once,
    and there are at most [(overlap_max - overlap_min + 1)^2] spans. *)
Theorem candidate_generator_spans
    (n j overlap_min overlap_max primer_length_min primer_length_max : Z) :
  let candidates :=
    generate_candidates j n overlap_min overlap_max
      primer_length_min primer_length_max in
  0 <= j <= n -> overlap_min <= overlap_max ->
  primer_length_min <= primer_length_max ->
  (forall c, c ∈ candidates <->
     exists left_ov right_ov,
       overlap_min <= left_ov <= overlap_max
       /\ overlap_min <= right_ov <= overlap_max
       /\ primer_length_min <= left_ov + right_ov <= primer_length_max
       /\ c = (j - left_ov, j + right_ov)
       /\ 0 <= c.1 /\ c.2 <= n)
  /\ (forall c, c ∈ candidates ->
        primer_length_min <= c.2 - c.1 <= primer_length_max
        /\ 0 <= c.1 /\ c.1 <= j - overlap_min
        /\ j + overlap_min <= c.2 /\ c.2 <= n)
  /\ NoDup candidates
  /\ Py.len candidates <= (overlap_max - overlap_min + 1) ^ 2.
Proof.
  intros candidates Hj Ho Hp. split; [|split; [|split]].
  - apply elem_of_generate_candidates.
  - intros c Hc. apply elem_of_generate_candidates in Hc
      as (l & r & ? & ? & ? & -> & ? & ?). simpl in *. lia.
  - apply NoDup_generate_candidates.
  - by apply length_generate_candidates.
Qed.

Lemma candidate_generator_spans_witness :
  Py.len (generate_candidates 300 700 6 12 18 25) <= (12 - 6 + 1) ^ 2
  /\ NoDup (generate_candidates 300 700 6 12 18 25)
  /\ (288, 312) ∈ generate_candidates 300 700 6 12 18 25.
Proof.
  destruct (candidate_generator_spans 700 300 6 12 18 25) as (Hiff & _ & Hnd & Hlen);
    [lia | lia | lia |].
  split; [exact Hlen|]. split; [exact Hnd|].
  apply Hiff. exists 12, 12. simpl. repeat split; lia.
Defined.

(** ** Genomic to spliced projection *)

#[local] Instance by_start_trans : Transitive by_start.
Proof. intros a b c. unfold by_start. lia. Qed.

Lemma sorted_by_start (l : list interval) :
  StronglySorted by_start (Py.sorted Py.lt_pair l).
Proof.
  apply Sorted_StronglySorted; [apply _|].
  eapply (Sorted_weaken _ _ (fun _ => True)); [| |apply sorted_pairs_Sorted].
  - intros a b _ _. unfold le_pair, by_start. lia.
  - by apply Forall_true.
Qed.

Lemma StronglySorted_drop {A} (R : relation A) (l : list A) (n : nat) :
  StronglySorted R l -> StronglySorted R (drop n l).
Proof.
  intros H. rewrite <- (take_drop n l) in H. by apply StronglySorted_app_1_r in H.
Qed.

Lemma overlaps_none (es ee off : Z) (cds : list interval) :
  Forall (fun c => c.2 < es \/ ee < c.1) cds -> overlaps es ee off cds = [].
Proof.
  induction 1 as [|c cds Hc _ IH]; [done|].
  unfold overlaps in *. cbn [omap list_omap]. rewrite IH.
  unfold project_overlap.
  destruct (Z.leb_spec (Z.max es c.1) (Z.min ee c.2)); [lia|done].
Qed.

Lemma skip_loop_skipped (cds : list interval) (es : Z) (fuel j : nat) :
  let j' := skip_loop cds es fuel j in
  (j <= j')%nat
  /\ forall (i : nat) c, (j <= i < j')%nat -> cds !! i = Some c -> c.2 < es.
Proof.
  revert j. induction fuel as [|fuel IH]; intros j; simpl.
  - split; [lia|]. intros; lia.
  - destruct (cds !! j) as [[cs ce]|] eqn:E; [|split; [lia|intros; lia]].
    destruct (Z.ltb_spec ce es); [|split; [lia|intros; lia]].
    destruct (IH (S j)) as [Hle Hsk]. split; [lia|].
    intros i c Hi Hc. destruct (decide (i = j)) as [->|].
    + rewrite E in Hc. injection Hc as <-. done.
    + apply (Hsk i); [lia|done].
Qed.

(** The fuel given to [skip_loop] is enough: it stops because its
    condition fails. *)
Lemma skip_loop_exit (cds : list interval) (es : Z) (fuel j : nat) :
  (length cds <= j + fuel)%nat ->
  match cds !! skip_loop cds es fuel j with
  | Some c => es <= c.2
  | None => True
  end.
Proof.
  revert j. induction fuel as [|fuel IH]; intros j Hf; simpl.
  - by rewrite lookup_ge_None_2 by lia.
  - destruct (cds !! j) as [[cs ce]|] eqn:E; [|by rewrite E].
    destruct (Z.ltb_spec ce es); [apply IH; lia|]. by rewrite E.
Qed.

Lemma overlap_loop_by_intersection (cds : list interval) (es ee off : Z)
    (fuel k : nat) (ann : list (Z * Z)) :
  StronglySorted by_start cds -> (length cds <= k + fuel)%nat ->
  overlap_loop cds es ee off fuel k ann = ann ++ overlaps es ee off (drop k cds).
Proof.
  intros Hs. revert k ann. induction fuel as [|fuel IH]; intros k ann Hf; simpl.
  - rewrite drop_ge by lia. by rewrite app_nil_r.
  - destruct (cds !! k) as [[cs ce]|] eqn:E.
    + rewrite (drop_S _ _ _ E).
      destruct (Z.leb_spec cs ee) as [Hle|Hgt].
      * rewrite IH by lia. unfold overlaps. cbn [omap list_omap].
        unfold project_overlap at 2. cbn [fst snd].
        destruct (Z.max es cs <=? Z.min ee ce); [|done].
        by rewrite <- app_assoc.
      * rewrite overlaps_none; [by rewrite app_nil_r|].
        apply (StronglySorted_drop _ _ k) in Hs. rewrite (drop_S _ _ _ E) in Hs.
        apply StronglySorted_cons in Hs as [Hall _].
        constructor; [simpl; lia|].
        eapply Forall_impl; [exact Hall|]. unfold by_start. simpl. lia.
    + apply lookup_ge_None in E. rewrite drop_ge by lia. by rewrite app_nil_r.
Qed.

(** The loops of the source compute the projection by intersection; only
    the order given by [sorted] is used. *)
Lemma exon_loop_by_intersection (cds exons : list interval) (off : Z) (j : nat)
    (ann : list (Z * Z)) :
  StronglySorted by_start cds -> StronglySorted by_start exons ->
  (forall (i : nat) c e, (i < j)%nat -> cds !! i = Some c -> e ∈ exons -> c.2 < e.1) ->
  exon_loop cds exons off j ann = ann ++ projection_by_intersection cds exons off.
Proof.
  intros Hcds Hex. revert off j ann.
  induction Hex as [|[es ee] exons Hex IH Hhd]; intros off j ann Hj.
  - simpl. by rewrite app_nil_r.
  - cbn [exon_loop projection_by_intersection fst snd].
    destruct (skip_loop_skipped cds es (length cds) j) as [Hle Hsk].
    set (j' := skip_loop cds es (length cds) j) in *.
    assert (forall (i : nat) c, (i < j')%nat -> cds !! i = Some c -> c.2 < es) as Hbefore.
    { intros i c Hi Hc. destruct (decide (i < j)%nat).
      - apply (Hj i c (es, ee)); [done|done|by left].
      - apply (Hsk i); [lia|done]. }
    rewrite overlap_loop_by_intersection by (done || lia).
    rewrite IH.
    + rewrite <- app_assoc. f_equal. f_equal.
      rewrite <- (take_drop j' cds) at 2. unfold overlaps at 2.
      rewrite omap_app. fold (overlaps es ee off (take j' cds)).
      rewrite (overlaps_none es ee off (take j' cds)); [done|].
      apply Forall_forall. intros c Hc.
      apply list_elem_of_lookup in Hc as [i Hc].
      apply lookup_take_Some in Hc as [Hc Hi]. left. eauto.
    + intros i c e Hi Hc He.
      assert (c.2 < es) by eauto.
      rewrite Forall_forall in Hhd. specialize (Hhd e He).
      unfold by_start in Hhd. simpl in Hhd. lia.
Qed.

Lemma cds_projection_by_intersection (exons cds : list interval) :
  cds_projection exons cds
  = projection_by_intersection (Py.sorted Py.lt_pair cds) (Py.sorted Py.lt_pair exons) 0.
Proof.
  unfold cds_projection. rewrite exon_loop_by_intersection; [done| | |].
  - apply sorted_by_start.
  - apply sorted_by_start.
  - intros; lia.
Qed.

(** *** Pairwise properties of interval lists *)

Lemma StronglySorted_lookup {A} (R : relation A) (l : list A) (i j : nat) (a b : A) :
  StronglySorted R l -> (i < j)%nat -> l !! i = Some a -> l !! j = Some b -> R a b.
Proof.
  intros Hs. revert i j. induction Hs as [|x l Hs IH Hx]; intros i j Hij Ha Hb; [done|].
  destruct j as [|j]; [lia|]. destruct i as [|i]; simpl in *.
  - injection Ha as <-. rewrite Forall_forall in Hx. apply Hx.
    by apply list_elem_of_lookup_2 in Hb.
  - apply (IH i j); [lia|done|done].
Qed.

Lemma StronglySorted_weaken {A} (R1 R2 : relation A) (P : A -> Prop) (l : list A) :
  (forall x y, P x -> P y -> R1 x y -> R2 x y) ->
  Forall P l -> StronglySorted R1 l -> StronglySorted R2 l.
Proof.
  intros HR HP Hs. induction Hs as [|x l Hs IH Hx]; [constructor|].
  apply Forall_cons in HP as [Hpx HP]. constructor; [by apply IH|].
  rewrite Forall_forall in *. eauto.
Qed.

Lemma StronglySorted_and {A} (R1 R2 : relation A) (l : list A) :
  StronglySorted R1 l -> StronglySorted R2 l ->
  StronglySorted (fun a b => R1 a b /\ R2 a b) l.
Proof.
  induction 1 as [|x l Hs IH Hx]; intros H2; [constructor|].
  apply StronglySorted_cons in H2 as [Hx2 H2]. constructor; [by apply IH|].
  rewrite Forall_forall in *. eauto.
Qed.

Lemma StronglySorted_Permutation {A} (R : relation A) `{!Symmetric R} (l l' : list A) :
  l ≡ₚ l' -> StronglySorted R l -> StronglySorted R l'.
Proof.
  induction 1 as [|x l l' Hp IH|x y l|l l' l'' _ IH1 _ IH2]; intros Hs.
  - done.
  - apply StronglySorted_cons in Hs as [Hx Hs]. constructor; [by apply IH|].
    by rewrite <- Hp.
  - apply StronglySorted_cons in Hs as [Hy Hs].
    apply StronglySorted_cons in Hs as [Hx Hs].
    apply Forall_cons in Hy as [Hyx Hy].
    repeat constructor; done.
  - auto.
Qed.

Lemma StronglySorted_reverse_flip {A} (R : relation A) (l : list A) :
  StronglySorted R l -> StronglySorted (flip R) (reverse l).
Proof.
  induction 1 as [|x l Hs IH Hx]; [constructor|].
  rewrite reverse_cons. apply StronglySorted_app. split; [|split].
  - intros a b Ha Hb. apply list_elem_of_singleton in Hb as ->.
    rewrite elem_of_reverse in Ha. rewrite Forall_forall in Hx.
    unfold flip. by apply Hx.
  - done.
  - repeat constructor.
Qed.

#[local] Instance apart_sym : Symmetric apart.
Proof. intros a b. unfold apart. lia. Qed.

Lemma pairwise_disjoint_StronglySorted (l : list interval) :
  pairwise_disjoint l -> StronglySorted apart l.
Proof.
  induction l as [|x l IH]; intros H; [constructor|]. constructor.
  - apply IH. intros i j a b Hij Ha Hb. apply (H (S i) (S j)); [lia|done|done].
  - apply Forall_forall. intros y Hy. apply list_elem_of_lookup in Hy as [i Hy].
    apply (H 0%nat (S i)); [lia|done|done].
Qed.

(** *** The projection is laid out inside the spliced length *)

Lemma laid_out_nil (lo hi : Z) : laid_out lo hi [].
Proof. split; constructor. Qed.

Lemma laid_out_cons (lo hi : Z) (a : Z * Z) (l : list (Z * Z)) :
  lo <= a.1 -> a.1 < a.2 -> a.2 <= hi -> laid_out a.2 hi l -> laid_out lo hi (a :: l).
Proof.
  intros H1 H2 H3 [Hall Hs]. split.
  - constructor; [done|]. eapply Forall_impl; [exact Hall|]. simpl. lia.
  - constructor; [done|]. eapply Forall_impl; [exact Hall|]. simpl. lia.
Qed.

Lemma laid_out_app (lo mid hi : Z) (l1 l2 : list (Z * Z)) :
  lo <= mid -> mid <= hi ->
  laid_out lo mid l1 -> laid_out mid hi l2 -> laid_out lo hi (l1 ++ l2).
Proof.
  intros Hlo Hhi [Hall1 Hs1] [Hall2 Hs2]. split.
  - apply Forall_app. split; (eapply Forall_impl; [eassumption|]); simpl; lia.
  - apply StronglySorted_app. split; [|done].
    rewrite Forall_forall in Hall1, Hall2.
    intros a b Ha Hb. specialize (Hall1 a Ha). specialize (Hall2 b Hb). lia.
Qed.

Lemma overlaps_laid_out (es ee off lo : Z) (cds : list interval) :
  StronglySorted in_order_apart cds ->
  (forall c, c ∈ cds -> c.1 <= c.2 -> lo <= off + (Z.max es c.1 - es)) ->
  laid_out lo (off + (ee - es + 1)) (overlaps es ee off cds).
Proof.
  intros Hs. revert lo. induction Hs as [|c cds Hs IH Hc]; intros lo Hlo.
  - apply laid_out_nil.
  - unfold overlaps. cbn [omap list_omap]. fold (overlaps es ee off cds).
    unfold project_overlap.
    destruct (Z.leb_spec (Z.max es c.1) (Z.min ee c.2)) as [Hov|Hno].
    + apply laid_out_cons; cbn [fst snd]; try lia.
      * apply Hlo; [by left|lia].
      * apply IH. intros c' Hc' Hwf.
        rewrite Forall_forall in Hc. destruct (Hc c' Hc') as [Hst Hap].
        unfold by_start, apart in *. lia.
    + apply IH. intros c' Hc'. apply Hlo. by right.
Qed.

Lemma projection_laid_out (cds exons : list interval) (off : Z) :
  StronglySorted in_order_apart cds -> Forall well_formed exons ->
  laid_out off (off + spliced_len exons) (projection_by_intersection cds exons off).
Proof.
  intros Hcds Hwf. revert off. induction Hwf as [|e exons He Hwf IH]; intros off.
  - apply laid_out_nil.
  - cbn [projection_by_intersection]. rewrite spliced_len_cons.
    pose proof (spliced_len_nonneg exons Hwf).
    unfold well_formed, block_len in *.
    apply (laid_out_app _ (off + (e.2 - e.1 + 1))); [lia|lia| |].
    + apply overlaps_laid_out; [done|]. intros c _ _. lia.
    + replace (off + (e.2 - e.1 + 1 + spliced_len exons))
        with (off + (e.2 - e.1 + 1) + spliced_len exons) by lia.
      apply IH.
Qed.

Lemma sorted_cds_in_order_apart (cds : list interval) :
  pairwise_disjoint cds -> StronglySorted in_order_apart (Py.sorted Py.lt_pair cds).
Proof.
  intros Hd. apply StronglySorted_and; [apply sorted_by_start|].
  eapply (StronglySorted_Permutation apart); [|by apply pairwise_disjoint_StronglySorted].
  symmetry. apply sorted_Permutation.
Qed.

Lemma cds_projection_laid_out (exons cds : list interval) :
  Forall well_formed exons -> pairwise_disjoint cds ->
  laid_out 0 (spliced_len exons) (cds_projection exons cds).
Proof.
  intros Hwf Hd. rewrite cds_projection_by_intersection.
  rewrite <- (spliced_len_Permutation _ _ (sorted_Permutation Py.lt_pair exons)).
  rewrite <- (Z.add_0_l (spliced_len _)).
  apply projection_laid_out; [by apply sorted_cds_in_order_apart|].
  by rewrite sorted_Permutation.
Qed.

Lemma laid_out_reflect (total : Z) (l : list (Z * Z)) :
  laid_out 0 total l -> laid_out 0 total (reverse (reflect total <$> l)).
Proof.
  intros [Hall Hs]. split.
  - apply Forall_reverse, Forall_fmap. eapply Forall_impl; [exact Hall|].
    intros a. unfold reflect. simpl. lia.
  - change (StronglySorted (flip (fun a b : Z * Z => b.2 <= a.1))
              (reverse (reflect total <$> l))).
    apply StronglySorted_reverse_flip.
    apply (StronglySorted_fmap _ (fun a b => a.2 <= b.1)); [|done].
    intros a b. unfold reflect. cbn [fst snd]. lia.
Qed.

Lemma laid_out_Sorted (lo hi : Z) (l : list (Z * Z)) :
  laid_out lo hi l -> Sorted le_pair l.
Proof.
  intros [Hall Hs]. apply StronglySorted_Sorted.
  eapply StronglySorted_weaken; [|exact Hall|exact Hs].
  intros a b Ha Hb. unfold le_pair. cbn beta in *. lia.
Qed.

Lemma laid_out_properties (total : Z) (l : list (Z * Z)) :
  laid_out 0 total l -> non_overlapping l /\ ascending l /\ contained total l.
Proof.
  intros [Hall Hs]. rewrite Forall_forall in Hall.
  assert (ascending l) as Hasc.
  { intros i j a b Hij Ha Hb.
    pose proof (StronglySorted_lookup _ _ _ _ _ _ Hs Hij Ha Hb) as Hab.
    apply list_elem_of_lookup_2, Hall in Ha. simpl in *. lia. }
  split; [|split; [done|]].
  - intros i j a b Hij Ha Hb.
    destruct (decide (i < j)%nat).
    + left. by apply (Hasc i j).
    + right. apply (Hasc j i); [lia|done|done].
  - intros a Ha. by apply Hall.
Qed.

Lemma projection_by_intersection_no_cds (exons : list interval) (off : Z) :
  projection_by_intersection [] exons off = [].
Proof. revert off. induction exons as [|e exons IH]; intros off; simpl; auto. Qed.

(** What [cds_annotations_in_transcript_coords] returns, in one equation:
    the early return on an empty list agrees with the general case. *)
Lemma cds_annotations_equation (tinfo : gmap string tval) :
  let exons := get_intervals tinfo "exons" in
  let cds := get_intervals tinfo "cds" in
  cds_annotations_in_transcript_coords tinfo
  = if strand_is_minus tinfo
    then Py.sorted Py.lt_pair (reflect (spliced_len exons) <$> cds_projection exons cds)
    else cds_projection exons cds.
Proof.
  cbv zeta. unfold cds_annotations_in_transcript_coords.
  destruct (get_intervals tinfo "exons") as [|e es].
  - unfold cds_projection. simpl. by destruct (strand_is_minus tinfo).
  - destruct (get_intervals tinfo "cds") as [|c cs].
    + rewrite cds_projection_by_intersection.
      change (Py.sorted Py.lt_pair []) with (@nil interval).
      rewrite projection_by_intersection_no_cds.
      by destruct (strand_is_minus tinfo).
    + destruct (strand_is_minus tinfo); [|done].
      do 2 f_equal. f_equal.
      change (Py.sum _) with (spliced_len (Py.sorted Py.lt_pair (e :: es))).
      apply spliced_len_Permutation, sorted_Permutation.
Qed.

(** C2 (amended). For a transcript whose exons have [start <= end] and are
    pairwise non-overlapping, and whose CDS intervals lie in the exon
    coverage and are pairwise non-overlapping too, the projection of the
    CDS on the minus strand is the strand-agnostic projection with every
    interval reflected to [(total_len - end, total_len - start)], listed in
    ascending order; on either strand the intervals returned are pairwise
    non-overlapping, ascending, and inside [[0, total_len)], where
    [total_len] is the sum of the exon lengths. *)
Theorem cds_projection_layout (tinfo : gmap string tval) :
  let exons := get_intervals tinfo "exons" in
  let cds := get_intervals tinfo "cds" in
  let total_len := spliced_len exons in
  let ann := cds_annotations_in_transcript_coords tinfo in
  Forall well_formed exons -> pairwise_disjoint exons ->
  cds_in_coverage exons cds -> pairwise_disjoint cds ->
  (strand_is_minus tinfo = true ->
     ann = reverse (reflect total_len <$> cds_projection exons cds)
     /\ ann ≡ₚ reflect total_len <$> cds_projection exons cds)
  /\ (strand_is_minus tinfo = false -> ann = cds_projection exons cds)
  /\ non_overlapping ann /\ ascending ann /\ contained total_len ann.
Proof.
  intros exons cds total_len ann Hwf _ _ Hcds.
  pose proof (cds_projection_laid_out exons cds Hwf Hcds) as Hplus.
  pose proof (laid_out_reflect _ _ Hplus) as Hminus.
  fold total_len in Hplus, Hminus.
  assert (Py.sorted Py.lt_pair (reflect total_len <$> cds_projection exons cds)
          = reverse (reflect total_len <$> cds_projection exons cds)) as Hsort.
  { apply sorted_pairs_unique; [apply reverse_Permutation|].
    by apply laid_out_Sorted in Hminus. }
  unfold ann. rewrite cds_annotations_equation.
  fold exons. fold cds. fold total_len. rewrite Hsort.
  split; [|split].
  - intros ->. split; [done|]. apply reverse_Permutation.
  - by intros ->.
  - destruct (strand_is_minus tinfo); by apply laid_out_properties.
Qed.

Lemma cds_projection_layout_witness :
  let tinfo : gmap string tval :=
    {[ "strand" := VStr "-";
       "exons" := VIntervals [(21, 30); (1, 10)];
       "cds" := VIntervals [(5, 10); (21, 25)] ]} in
  cds_annotations_in_transcript_coords tinfo = [(5, 10); (10, 16)]
  /\ non_overlapping (cds_annotations_in_transcript_coords tinfo).
Proof.
  intros tinfo. split; [vm_compute; reflexivity|].
  refine (proj1 (proj2 (proj2 (cds_projection_layout tinfo _ _ _ _)))).
  - repeat constructor; unfold well_formed; simpl; lia.
  - intros [|[|i]] [|[|j]] a b Hij Ha Hb; try done;
      vm_compute in Ha, Hb; simplify_eq; unfold apart; simpl; lia.
  - intros c x Hc Hx. vm_compute in Hc.
    apply elem_of_cons in Hc as [->|Hc];
      [|apply elem_of_cons in Hc as [->|Hc]; [|by apply elem_of_nil in Hc]].
    + exists (1, 10). split; [apply (bool_decide_unpack _); vm_compute; reflexivity|].
      simpl in *. lia.
    + exists (21, 30). split; [apply (bool_decide_unpack _); vm_compute; reflexivity|].
      simpl in *. lia.
  - intros [|[|i]] [|[|j]] a b Hij Ha Hb; try done;
      vm_compute in Ha, Hb; simplify_eq; unfold apart; simpl; lia.
Defined.

(** C2 as first stated asks nothing of the CDS intervals among themselves.
    Two CDS intervals that overlap inside one exon are projected to
    overlapping spliced intervals. *)
Lemma cds_projection_overlapping_cds :
  let tinfo : gmap string tval :=
    {[ "strand" := VStr "+";
       "exons" := VIntervals [(1, 10)];
       "cds" := VIntervals [(1, 5); (3, 7)] ]} in
  let exons := get_intervals tinfo "exons" in
  let cds := get_intervals tinfo "cds" in
  Forall well_formed exons /\ pairwise_disjoint exons /\ cds_in_coverage exons cds
  /\ cds_annotations_in_transcript_coords tinfo = [(0, 5); (2, 7)]
  /\ ~ non_overlapping (cds_annotations_in_transcript_coords tinfo).
Proof.
  intros tinfo exons cds. split; [|split; [|split; [|split]]].
  - repeat constructor; unfold well_formed; simpl; lia.
  - intros [|i] [|j] a b Hij Ha Hb; try done; vm_compute in Ha, Hb; done.
  - intros c x Hc Hx. exists (1, 10).
    split; [apply (bool_decide_unpack _); vm_compute; reflexivity|].
    vm_compute in Hc.
    apply elem_of_cons in Hc as [->|Hc];
      [|apply elem_of_cons in Hc as [->|Hc]; [|by apply elem_of_nil in Hc]];
      simpl in *; lia.
  - vm_compute. reflexivity.
  - intros H. specialize (H 0%nat 1%nat (0, 5) (2, 7)).
    simpl in H. destruct H as [H|H]; [lia| | |lia|lia]; vm_compute; reflexivity.
Qed.

(** ** The order of floats *)

Lemma SFcompare_rank (f1 f2 : spec_float) :
  match SFcompare f1 f2 with
  | None => ~ (sf_number f1 /\ sf_number f2)
  | Some Lt => sf_number f1 /\ sf_number f2 /\ rank_lt (sf_rank f1) (sf_rank f2)
  | Some Eq => sf_number f1 /\ sf_number f2 /\ sf_rank f1 = sf_rank f2
  | Some Gt => sf_number f1 /\ sf_number f2 /\ rank_lt (sf_rank f2) (sf_rank f1)
  end.
Proof.
  unfold sf_number, rank_lt.
  destruct f1 as [s1|s1| |s1 m1 e1], f2 as [s2|s2| |s2 m2 e2];
    try destruct s1; try destruct s2; cbn [SFcompare sf_rank fst snd];
    try (split_and!; (done || lia));
    try (intros [? ?]; done).
  all: destruct (Z.compare_spec e1 e2);
    try (split_and!; (done || lia)).
  all: change (Pos.compare_cont Eq m1 m2) with (Pos.compare m1 m2);
    destruct (Pos.compare_spec m1 m2); cbn [CompOpp];
    split_and!; try done; try lia; subst; try done.
Qed.

Lemma rank_lt_irrefl (a : Z * Z * Z) : ~ rank_lt a a.
Proof. unfold rank_lt. lia. Qed.

Lemma rank_lt_trans (a b c : Z * Z * Z) : rank_lt a b -> rank_lt b c -> rank_lt a c.
Proof. unfold rank_lt. lia. Qed.

Lemma rank_trichotomy (a b : Z * Z * Z) : rank_lt a b \/ a = b \/ rank_lt b a.
Proof.
  destruct a as [[a1 a2] a3], b as [[b1 b2] b3]. unfold rank_lt. simpl.
  destruct (decide (a1 = b1)), (decide (a2 = b2)), (decide (a3 = b3));
    subst; auto; lia.
Qed.

(** Closes a goal whose hypotheses order two ranks both ways. *)
Ltac rank_contradiction :=
  repeat match goal with
         | H : _ /\ _ |- _ => destruct H
         | H : _ \/ _ |- _ => destruct H
         end;
  try tauto;
  match goal with
  | H1 : rank_lt ?a ?b, H2 : rank_lt ?b ?a |- _ =>
      exact (rank_lt_irrefl _ (rank_lt_trans _ _ _ H1 H2))
  | H1 : rank_lt ?a ?b, H2 : ?a = ?b |- _ =>
      rewrite H2 in H1; exact (rank_lt_irrefl _ H1)
  | H1 : rank_lt ?a ?b, H2 : ?b = ?a |- _ =>
      rewrite H2 in H1; exact (rank_lt_irrefl _ H1)
  end.

Lemma float_ltb_rank (x y : float) :
  (x <? y)%float = true <->
  sf_number (Prim2SF x) /\ sf_number (Prim2SF y) /\ rank_lt (float_rank x) (float_rank y).
Proof.
  rewrite FloatAxioms.ltb_spec. unfold SFltb, float_rank.
  pose proof (SFcompare_rank (Prim2SF x) (Prim2SF y)) as H.
  destruct (SFcompare (Prim2SF x) (Prim2SF y)) as [[]|];
    split; intros; try done; try tauto; exfalso; rank_contradiction.
Qed.

Lemma float_eqb_rank (x y : float) :
  (x =? y)%float = true <->
  sf_number (Prim2SF x) /\ sf_number (Prim2SF y) /\ float_rank x = float_rank y.
Proof.
  rewrite FloatAxioms.eqb_spec. unfold SFeqb, float_rank.
  pose proof (SFcompare_rank (Prim2SF x) (Prim2SF y)) as H.
  destruct (SFcompare (Prim2SF x) (Prim2SF y)) as [[]|];
    split; intros; try done; try tauto; exfalso; rank_contradiction.
Qed.

Lemma float_leb_rank (x y : float) :
  (x <=? y)%float = true <->
  sf_number (Prim2SF x) /\ sf_number (Prim2SF y)
  /\ (rank_lt (float_rank x) (float_rank y) \/ float_rank x = float_rank y).
Proof.
  rewrite FloatAxioms.leb_spec. unfold SFleb, float_rank.
  pose proof (SFcompare_rank (Prim2SF x) (Prim2SF y)) as H.
  destruct (SFcompare (Prim2SF x) (Prim2SF y)) as [[]|];
    split; intros; try done; try tauto; exfalso; rank_contradiction.
Qed.

Lemma is_number_rank (x : float) : is_number x <-> sf_number (Prim2SF x).
Proof.
  unfold is_number, PrimFloat.is_nan. rewrite negb_false_iff, float_eqb_rank.
  tauto.
Qed.

Lemma float_ltb_asym (x y : float) : (x <? y)%float = true -> (y <? x)%float = false.
Proof.
  intros H. apply float_ltb_rank in H as (_ & _ & H).
  apply not_true_is_false. intros H'. apply float_ltb_rank in H' as (_ & _ & H').
  eapply rank_lt_irrefl, rank_lt_trans; eauto.
Qed.

Lemma float_not_ltb_leb (x y : float) :
  is_number x -> is_number y -> (y <? x)%float = false -> (x <=? y)%float = true.
Proof.
  intros Hx%is_number_rank Hy%is_number_rank H.
  apply float_leb_rank. split; [done|]. split; [done|].
  destruct (rank_trichotomy (float_rank x) (float_rank y)) as [?|[?|Hlt]]; auto.
  exfalso. apply not_true_iff_false in H. apply H, float_ltb_rank. auto.
Qed.

Lemma float_leb_trans (x y z : float) :
  (x <=? y)%float = true -> (y <=? z)%float = true -> (x <=? z)%float = true.
Proof.
  rewrite !float_leb_rank. intros (? & ? & H1) (? & ? & H2).
  split; [done|]. split; [done|].
  destruct H1 as [H1|H1], H2 as [H2|H2]; rewrite ?H1, <- ?H2; auto.
  left. eapply rank_lt_trans; eauto.
Qed.

(** A float below one of two equal floats is not equal to the other. *)
Lemma float_ltb_separates (x y v : float) :
  (y <? x)%float = true -> (x =? v)%float = true -> (y =? v)%float = true -> False.
Proof.
  rewrite float_ltb_rank, !float_eqb_rank.
  intros (_ & _ & Hlt) (_ & _ & Hx) (_ & _ & Hy).
  rewrite Hx, Hy in Hlt. by apply rank_lt_irrefl in Hlt.
Qed.

(** ** Candidate Scorer *)

Lemma len_nonneg {A} (l : list A) : 0 <= Py.len l.
Proof. unfold Py.len. lia. Qed.

Lemma slice_from_start {A} (l : list A) (m : Z) :
  0 <= m -> Py.slice l 0 m = take (Z.to_nat m) l.
Proof.
  intros Hm. unfold Py.slice, Py.slice_bound, Py.len.
  destruct (Z.ltb_spec 0 0); [lia|]. destruct (Z.ltb_spec m 0); [lia|].
  replace (Z.min 0 (Z.of_nat (length l))) with 0 by lia.
  rewrite Z.sub_0_r. change (drop (Z.to_nat 0) l) with l.
  destruct (Z.le_ge_cases m (Z.of_nat (length l))).
  - by replace (Z.min m (Z.of_nat (length l))) with m by lia.
  - replace (Z.min m (Z.of_nat (length l))) with (Z.of_nat (length l)) by lia.
    rewrite Nat2Z.id. by rewrite !take_ge by lia.
Qed.

#[local] Instance same_score_dec (v : float) (x : scored_candidate) :
  Decision (same_score v x).
Proof. unfold same_score. apply _. Defined.

#[local] Instance score_le_trans : Transitive score_le.
Proof. intros x y z. apply float_leb_trans. Qed.

Lemma sorted_scores_ascending (scored : list scored_candidate) :
  Forall (fun x => is_number x.1.1) scored ->
  StronglySorted score_le (Py.sorted lt_score scored).
Proof.
  intros Hnum. apply Sorted_StronglySorted; [apply _|].
  apply (Sorted_weaken (not_after lt_score) _ (fun x => is_number x.1.1)).
  - intros x y Hx Hy H. unfold not_after, lt_score in H.
    by apply float_not_ltb_leb.
  - by rewrite sorted_Permutation.
  - apply sorted_Sorted. intros x y. apply float_ltb_asym.
Qed.

(** On scores that are numbers the sort of the embedding is the stable
    ascending sort. *)
Lemma sorted_stably_sorted (scored : list scored_candidate) :
  Forall (fun x => is_number x.1.1) scored ->
  stably_sorted scored (Py.sorted lt_score scored).
Proof.
  intros Hnum. split; [apply sorted_Permutation|]. split.
  - intros i j x y Hij Hx Hy.
    by apply (StronglySorted_lookup score_le (Py.sorted lt_score scored) i j x y);
      [apply sorted_scores_ascending|..].
  - intros v. apply sorted_stable. intros x y Hlt Hx Hy.
    by apply (float_ltb_separates x.1.1 y.1.1 v).
Qed.

Section Scorer.

Variable round1 : float -> float.
Variable calc_tm : string -> float.
Variable calc_hairpin calc_homodimer : string -> thermo_result.

(** C4. The Candidate Scorer gives the candidate [(start, end)] the score
    [|tm - optimal_temp|], plus [5.0] exactly when [gc] is below 35 or
    above 65, where [tm] is the rounded melting temperature primer3
    computes for the cleaned span and [gc] its rounded GC percentage, each
    read as [0.0] when it is zero. When the scores are numbers and the
    maximum count is not negative, the ranking is the first
    [max_candidates] candidates of the stable ascending sort of the scored
    list: the same candidates, no score before a smaller one, candidates
    of equal score in generation order. The ranking depends on the
    collaborators only through the analyses of the candidates, so
    identical inputs give identical results. *)
Theorem candidate_scorer_ranking (local : string) (opt_tm : float)
    (candidates : list (Z * Z)) (max_candidates : Z) :
  let analyse := analyze_primer round1 calc_tm calc_hairpin calc_homodimer in
  let scored :=
    score_candidates round1 calc_tm calc_hairpin calc_homodimer
      local opt_tm candidates in
  let ranked := rank_candidates scored max_candidates in
  (forall (i : nat) c, candidates !! i = Some c ->
     let seq := Py.remove_spaces (Py.upper (Py.str_slice local c.1 c.2)) in
     let tm := round1 (calc_tm seq) in
     let gc := round1 (_oligo_gc seq) in
     let tm := if (tm =? 0)%float then 0%float else tm in
     let gc := if (gc =? 0)%float then 0%float else gc in
     let distance := PrimFloat.abs (tm - opt_tm)%float in
     let outside_band := (gc <? 35.0)%float || (65.0 <? gc)%float in
     scored !! i
     = Some (if outside_band then (distance + 5.0)%float else distance, c,
             analyse (Py.str_slice local c.1 c.2)))
  /\ (Forall (fun x => is_number x.1.1) scored -> 0 <= max_candidates ->
      exists sorted,
        stably_sorted scored sorted
        /\ ranked = take (Z.to_nat max_candidates) sorted
        /\ Py.len ranked = Z.min max_candidates (Py.len candidates))
  /\ (forall round1' calc_tm' calc_hairpin' calc_homodimer',
        (forall c, c ∈ candidates ->
           analyze_primer round1' calc_tm' calc_hairpin' calc_homodimer'
             (Py.str_slice local c.1 c.2)
           = analyse (Py.str_slice local c.1 c.2)) ->
        rank_candidates
          (score_candidates round1' calc_tm' calc_hairpin' calc_homodimer'
             local opt_tm candidates) max_candidates
        = ranked).
Proof.
  intros analyse scored ranked.
  split; [|split].
  - intros i c Hc. unfold scored, score_candidates.
    rewrite list_lookup_fmap, Hc. reflexivity.
  - intros Hnum Hm. exists (Py.sorted lt_score scored).
    split; [by apply sorted_stably_sorted|].
    unfold ranked, rank_candidates.
    rewrite slice_from_start by done. split; [done|].
    unfold Py.len. rewrite length_take, length_sorted.
    unfold scored, score_candidates. rewrite length_fmap. lia.
  - intros round1' calc_tm' calc_hairpin' calc_homodimer' Hsame.
    unfold ranked, scored, score_candidates. f_equal.
    apply list_fmap_ext. intros i c Hc. apply list_elem_of_lookup_2 in Hc.
    cbv zeta. by rewrite Hsame.
Qed.

End Scorer.

(** *** A worked ranking *)

#[local] Instance is_number_dec (x : float) : Decision (is_number x).
Proof. unfold is_number. apply _. Defined.

Lemma candidate_scorer_ranking_witness :
  let scored :=
    score_candidates test_round1 test_calc_tm test_calc_thermo test_calc_thermo
      test_template 62.0%float (generate_candidates 40 240 6 12 18 25) in
  exists sorted,
    stably_sorted scored sorted
    /\ rank_candidates scored 3 = take 3 sorted
    /\ Py.len (rank_candidates scored 3) = 3.
Proof.
  intros scored.
  assert (Forall (fun x => is_number x.1.1) scored) as Hnum.
  { apply (bool_decide_unpack _). vm_compute. reflexivity. }
  destruct (candidate_scorer_ranking test_round1 test_calc_tm test_calc_thermo
              test_calc_thermo test_template 62.0%float
              (generate_candidates 40 240 6 12 18 25) 3)
    as (_ & Hsort & _).
  destruct (Hsort Hnum ltac:(lia)) as (sorted & Hstable & Htake & Hlen).
  exists sorted. split; [exact Hstable|]. split; [exact Htake|exact Hlen].
Defined.

(** ** Pair Matcher *)

Lemma tm_filter_58_64 : tm_incompatible 58.0 64.0 = true.
Proof. vm_compute. reflexivity. Qed.

Lemma tm_filter_58_70 : tm_incompatible 58.0 70.0 = true.
Proof. vm_compute. reflexivity. Qed.

Lemma tm_filter_58_63 : tm_incompatible 58.0 63.0 = false.
Proof. vm_compute. reflexivity. Qed.

Lemma float_or_zero_58 : Py.float_or_zero (Some 58.0%float) = 58.0%float.
Proof. vm_compute. reflexivity. Qed.

Section PairMatcher.

Variable round1 : float -> float.
Variable calc_tm : string -> float.
Variable calc_hairpin calc_homodimer : string -> thermo_result.
Variable calc_heterodimer : string -> string -> thermo_result.

Variable local : string.
Variables win_start junction_pos product_min product_max : Z.

Local Abbreviation emit :=
  (emit_pair round1 calc_tm calc_hairpin calc_homodimer calc_heterodimer
     local win_start junction_pos).
Local Abbreviation inner :=
  (right_loop round1 calc_tm calc_hairpin calc_homodimer calc_heterodimer
     local win_start junction_pos product_min product_max).
Local Abbreviation outer :=
  (left_loop round1 calc_tm calc_hairpin calc_homodimer calc_heterodimer
     local win_start junction_pos product_min product_max).
Local Abbreviation matcher :=
  (pair_matcher round1 calc_tm calc_hairpin calc_homodimer calc_heterodimer
     local win_start junction_pos product_min product_max).
Local Abbreviation emitted :=
  (emitted_from round1 calc_tm calc_hairpin calc_homodimer calc_heterodimer
     local win_start junction_pos product_min product_max).

(** Whatever holds at the start and is kept by every emission holds when
    the loops end. *)
Lemma right_loop_invariant (P : pair_state -> Prop) (start end_ : Z)
    (left_a_pref : analysis) (rcs : list right_candidate) (st : pair_state) :
  P st ->
  (forall rc st1 st2, rc ∈ rcs -> P st1 ->
     emitted start end_ left_a_pref rc st1 st2 -> P st2) ->
  P (inner start end_ left_a_pref rcs st).
Proof.
  revert st. induction rcs as [|rc rcs IH]; intros st Hst Hstep; [done|].
  assert (forall st', P st' -> P (inner start end_ left_a_pref rcs st')) as Hrest.
  { intros st' Hst'. apply IH; [done|]. intros rc' ????. eapply Hstep; [by right|..]; done. }
  cbn [right_loop].
  destruct (tm_incompatible _ _) eqn:Etm; [by apply Hrest|].
  destruct (_ || _) eqn:Eprod; [by apply Hrest|].
  destruct (decide _) as [Hseen|Hseen]; [by apply Hrest|].
  assert (P (emit start end_ left_a_pref rc ((rc_interval_local rc).2 - start) st)) as Hem.
  { apply (Hstep rc st); [by left|done|]. unfold emitted_from.
    apply orb_false_iff in Eprod as [? ?]. split; [done|]. split; [lia|]. done. }
  destruct (_ >=? _); [done|]. by apply Hrest.
Qed.

Lemma left_loop_invariant (P : pair_state -> Prop)
    (rcs : list right_candidate) (scored : list scored_candidate) (st : pair_state) :
  P st ->
  (forall sc rc st1 st2, sc ∈ scored -> rc ∈ rcs -> P st1 ->
     emitted sc.1.2.1 sc.1.2.2 sc.2 rc st1 st2 -> P st2) ->
  P (outer rcs scored st).
Proof.
  revert st. induction scored as [|[[score [start end_]] a] scored IH];
    intros st Hst Hstep; [done|].
  cbn [left_loop].
  assert (P (inner start end_ a rcs st)) as Hin.
  { apply right_loop_invariant; [done|]. intros rc st1 st2 Hrc H1 Hem.
    apply (Hstep (score, (start, end_), a) rc st1 st2); [by left|done..]. }
  destruct (_ >=? _); [done|]. apply IH; [done|].
  intros sc rc ?????. eapply Hstep; [by right|..]; done.
Qed.

Lemma pair_matcher_invariant (P : pair_state -> Prop)
    (scored : list scored_candidate) (rcs : list right_candidate)
    (log : list event) :
  P (PairState [] ∅ log) ->
  (forall sc rc st1 st2, sc ∈ scored -> rc ∈ rcs -> P st1 ->
     emitted sc.1.2.1 sc.1.2.2 sc.2 rc st1 st2 -> P st2) ->
  P (matcher scored rcs log).
Proof. apply left_loop_invariant. Qed.

(** A right candidate that fails the Tm test leaves the state as it is. *)
Lemma right_loop_tm_rejected (start end_ : Z) (left_a_pref : analysis)
    (rc : right_candidate) (rcs : list right_candidate) (st : pair_state) :
  tm_incompatible (Py.float_or_zero (a_tm left_a_pref)) (rc_tm rc) = true ->
  inner start end_ left_a_pref (rc :: rcs) st = inner start end_ left_a_pref rcs st.
Proof. intros H. cbn [right_loop]. by rewrite H. Qed.

(** A right candidate that passes the three tests is emitted. *)
Lemma right_loop_emitted (start end_ : Z) (left_a_pref : analysis)
    (rc : right_candidate) (rcs : list right_candidate) (st : pair_state) :
  let prod_size := (rc_interval_local rc).2 - start in
  let st' := emit start end_ left_a_pref rc prod_size st in
  tm_incompatible (Py.float_or_zero (a_tm left_a_pref)) (rc_tm rc) = false ->
  product_min <= prod_size <= product_max ->
  (Py.str_slice local start end_, rc_seq rc, prod_size) ∉ seen st ->
  inner start end_ left_a_pref (rc :: rcs) st
  = if Py.len (pairs_out st') >=? max_pairs then st'
    else inner start end_ left_a_pref rcs st'.
Proof.
  intros prod_size st' Htm Hprod Hseen. cbn [right_loop]. rewrite Htm.
  fold prod_size.
  replace ((prod_size <? product_min) || (prod_size >? product_max)) with false
    by (symmetry; apply orb_false_iff; lia).
  destruct (decide _) as [H|H]; [done|]. reflexivity.
Qed.

(** A right candidate whose product size is outside the caller's window
    is skipped. *)
Lemma right_loop_product_rejected (start end_ : Z) (left_a_pref : analysis)
    (rc : right_candidate) (rcs : list right_candidate) (st : pair_state) :
  ~ (product_min <= (rc_interval_local rc).2 - start <= product_max) ->
  inner start end_ left_a_pref (rc :: rcs) st = inner start end_ left_a_pref rcs st.
Proof.
  intros Hout. cbn [right_loop].
  destruct (tm_incompatible _ _); [done|].
  replace (((rc_interval_local rc).2 - start <? product_min)
           || ((rc_interval_local rc).2 - start >? product_max)) with true; [done|].
  symmetry. apply orb_true_iff. lia.
Qed.

(** A right candidate whose key is already in [seen] is skipped. *)
Lemma right_loop_seen (start end_ : Z) (left_a_pref : analysis)
    (rc : right_candidate) (rcs : list right_candidate) (st : pair_state) :
  (Py.str_slice local start end_, rc_seq rc, (rc_interval_local rc).2 - start) ∈ seen st ->
  inner start end_ left_a_pref (rc :: rcs) st = inner start end_ left_a_pref rcs st.
Proof.
  intros Hseen. cbn [right_loop].
  destruct (tm_incompatible _ _); [done|]. destruct (_ || _); [done|].
  destruct (decide _) as [H|H]; done.
Qed.

(** C5 (amended). With [max_tm_diff = 5.0] the Tm filter rejects a left
    candidate at 58.0 against a right candidate at 64.0, the difference
    6.0 being above 5.0, and against a right candidate at 70.0: no pair
    comes out. A right candidate at 63.0, exactly 5.0 away, passes the Tm
    filter and is paired when the product size is in the window. *)
Theorem pair_matcher_tm_filter (score : float) (start end_ : Z)
    (left_a_pref : analysis) (rc : right_candidate) (log : list event) :
  let run :=
    pair_matcher round1 calc_tm calc_hairpin calc_homodimer calc_heterodimer
      local win_start junction_pos product_min product_max
      [(score, (start, end_), left_a_pref)] [rc] log in
  a_tm left_a_pref = Some 58.0%float ->
  (rc_tm rc = 64.0%float -> pairs_out run = [])
  /\ (rc_tm rc = 70.0%float -> pairs_out run = [])
  /\ (rc_tm rc = 63.0%float ->
      product_min <= (rc_interval_local rc).2 - start <= product_max ->
      exists p, pairs_out run = [p]
                /\ product_size p = (rc_interval_local rc).2 - start).
Proof.
  intros run Htm. unfold run, pair_matcher. cbn [left_loop].
  split; [|split].
  - intros Hr. rewrite right_loop_tm_rejected; [done|].
    rewrite Htm, Hr, float_or_zero_58. apply tm_filter_58_64.
  - intros Hr. rewrite right_loop_tm_rejected; [done|].
    rewrite Htm, Hr, float_or_zero_58. apply tm_filter_58_70.
  - intros Hr Hprod. rewrite right_loop_emitted.
    + eexists. split; reflexivity.
    + rewrite Htm, Hr, float_or_zero_58. apply tm_filter_58_63.
    + done.
    + apply not_elem_of_empty.
Qed.

(** The pairing loops only add thermodynamic calls to the calls already
    made. *)
Lemma pair_matcher_calls (scored : list scored_candidate)
    (rcs : list right_candidate) (log : list event) :
  exists extra, calls (matcher scored rcs log) = log ++ extra /\ Forall thermo_call extra.
Proof.
  apply (pair_matcher_invariant
           (fun st => exists extra, calls st = log ++ extra /\ Forall thermo_call extra)).
  - exists []. split; [by rewrite app_nil_r|constructor].
  - intros sc rc st1 st2 _ _ (extra & Hc & Hx) (_ & _ & _ & Hst2). subst st2.
    eexists. cbn [emit_pair calls]. rewrite Hc, <- app_assoc. split; [done|].
    apply Forall_app. split; [done|]. repeat constructor.
Qed.

Lemma pair_matcher_keys (scored : list scored_candidate)
    (rcs : list right_candidate) (log : list event) :
  let st := matcher scored rcs log in
  size (seen st) = length (pairs_out st)
  /\ (Forall (left_analysed local) scored -> Forall right_clean rcs ->
      NoDup (pair_key <$> pairs_out st)
      /\ forall p, p ∈ pairs_out st -> pair_key p ∈ seen st).
Proof.
  apply (pair_matcher_invariant
           (fun st => size (seen st) = length (pairs_out st)
                      /\ (Forall (left_analysed local) scored -> Forall right_clean rcs ->
                          NoDup (pair_key <$> pairs_out st)
                          /\ forall p, p ∈ pairs_out st -> pair_key p ∈ seen st))).
  - split; [done|]. intros _ _. split; [constructor|].
    intros p Hp. by apply elem_of_nil in Hp.
  - intros [[score [start end_]] a] rc st1 st2 Hsc Hrc [Hsize Hkeys]
      (_ & _ & Hfresh & Hst2). subst st2. cbn [fst snd] in *.
    cbn [emit_pair seen pairs_out]. split.
    + rewrite size_union by (by apply disjoint_singleton_l).
      rewrite size_singleton, length_app. cbn [length]. lia.
    + intros Hleft Hright. pose proof (Hkeys Hleft Hright) as [Hnd Hin].
      rewrite Forall_forall in Hleft. rewrite Forall_forall in Hright.
      specialize (Hleft _ Hsc). specialize (Hright _ Hrc).
      unfold left_analysed, right_clean in Hleft, Hright. cbn [fst snd] in Hleft.
      set (k := (Py.str_slice local start end_, rc_seq rc,
                 (rc_interval_local rc).2 - start)) in *.
      assert (forall p0 : primer_pair, pair_key p0 = k -> p0 ∈ pairs_out st1 -> False)
        as Hnew.
      { intros p0 Hk Hp0. apply Hfresh. rewrite <- Hk. by apply Hin. }
      split.
      * rewrite fmap_app. apply NoDup_app. split; [done|]. split.
        -- intros x Hx Hx'. apply list_elem_of_fmap in Hx as (p0 & -> & Hp0).
           apply list_elem_of_singleton in Hx'. apply (Hnew p0); [|done].
           rewrite Hx'. unfold pair_key, k. cbn. by rewrite Hleft, Hright.
        -- apply NoDup_singleton.
      * intros p Hp. apply elem_of_app in Hp as [Hp|Hp].
        -- apply elem_of_union_r. by apply Hin.
        -- apply list_elem_of_singleton in Hp as ->. apply elem_of_union_l.
           apply elem_of_singleton. unfold pair_key, k. cbn.
           by rewrite Hleft, Hright.
Qed.

(** The same left and right candidate met twice give one pair. *)
Lemma pair_matcher_duplicates (score : float) (start end_ : Z)
    (left_a_pref : analysis) (rc : right_candidate) (log : list event) :
  let sc : scored_candidate := (score, (start, end_), left_a_pref) in
  tm_incompatible (Py.float_or_zero (a_tm left_a_pref)) (rc_tm rc) = false ->
  product_min <= (rc_interval_local rc).2 - start <= product_max ->
  length (pairs_out (matcher [sc] [rc; rc] log)) = 1%nat
  /\ length (pairs_out (matcher [sc; sc] [rc] log)) = 1%nat
  /\ length (pairs_out (matcher [sc; sc] [rc; rc] log)) = 1%nat.
Proof.
  intros sc Htm Hprod. unfold sc, pair_matcher.
  set (st0 := PairState [] ∅ log).
  set (st1 := emit start end_ left_a_pref rc ((rc_interval_local rc).2 - start) st0).
  assert (forall rcs, inner start end_ left_a_pref (rc :: rcs) st0
                      = inner start end_ left_a_pref rcs st1) as Hfirst.
  { intros rcs. rewrite right_loop_emitted; [done|done|done|]. apply not_elem_of_empty. }
  assert (forall rcs, inner start end_ left_a_pref (rc :: rcs) st1
                      = inner start end_ left_a_pref rcs st1) as Hagain.
  { intros rcs. apply right_loop_seen. apply elem_of_union_l. by apply elem_of_singleton. }
  assert (forall st, inner start end_ left_a_pref [] st = st) as Hnil by done.
  assert (length (pairs_out st1) = 1%nat) as Hone by done.
  assert ((Py.len (pairs_out st1) >=? max_pairs) = false) as Hcap by done.
  cbn [left_loop]. rewrite !Hfirst, ?Hagain, ?Hnil, ?Hcap, ?Hagain, ?Hnil, ?Hcap.
  done.
Qed.

End PairMatcher.

Lemma pair_matcher_tm_filter_witness :
  pairs_out
    (pair_matcher test_round1 test_calc_tm test_calc_thermo test_calc_thermo
       test_calc_heterodimer test_template 0 40 80 220
       [(4.0%float, (28, 48), test_analysis 58.0)]
       [test_right_candidate 64.0] [])
  = [].
Proof.
  refine (proj1 (pair_matcher_tm_filter test_round1 test_calc_tm test_calc_thermo
                   test_calc_thermo test_calc_heterodimer test_template 0 40 80 220
                   4.0%float 28 48 (test_analysis 58.0) (test_right_candidate 64.0) [] _) _);
    reflexivity.
Defined.

(** C5 as first stated has the pair 58.0 / 64.0 kept. The product size,
    103, is inside the window, and still no pair comes out: the Tm test
    alone rejects it. *)
Lemma tm_filter_rejects_58_64 :
  let run :=
    pair_matcher test_round1 test_calc_tm test_calc_thermo test_calc_thermo
      test_calc_heterodimer test_template 0 40 80 220
      [(4.0%float, (28, 48), test_analysis 58.0)]
      [test_right_candidate 64.0] [] in
  (max_tm_diff <? PrimFloat.abs (58.0 - 64.0))%float = true
  /\ 80 <= (rc_interval_local (test_right_candidate 64.0)).2 - 28 <= 220
  /\ pairs_out run = []
  /\ ~ (exists p, p ∈ pairs_out run).
Proof.
  intros run.
  assert (pairs_out run = []) as Hrun by (vm_compute; reflexivity).
  split; [vm_compute; reflexivity|]. split; [simpl; lia|]. split; [done|].
  rewrite Hrun. intros [p Hp]. by apply elem_of_nil in Hp.
Qed.

(** ** [design_junction_primer_pairs] as a whole *)

Lemma junction_args_range (primer_params : option (gmap string p3val))
    (product_min product_max : Z) :
  junction_args primer_params product_min product_max !! "PRIMER_PRODUCT_SIZE_RANGE"
  = Some (PRanges [(product_min_actual product_min, product_max_actual product_max)]).
Proof.
  unfold junction_args.
  rewrite !lookup_insert_ne by done. by rewrite lookup_insert_eq.
Qed.

Lemma upper_char_idemp (c : ascii) : Py.upper_char (Py.upper_char c) = Py.upper_char c.
Proof.
  destruct c as [b0 b1 b2 b3 b4 b5 b6 b7].
  destruct b0, b1, b2, b3, b4, b5, b6, b7; vm_compute; reflexivity.
Qed.

Lemma clean_template_chars (t : string) :
  Forall clean_char (Py.chars (clean_template t)).
Proof.
  unfold clean_template, Py.remove_spaces, Py.upper. rewrite !chars_str.
  apply Forall_forall. intros c Hc.
  apply list_elem_of_filter in Hc as [Hsp Hc].
  apply list_elem_of_fmap in Hc as (c' & -> & _).
  split; [apply upper_char_idemp|done].
Qed.

Lemma clean_template_fixed (s : string) :
  Forall clean_char (Py.chars s) -> clean_template s = s.
Proof.
  intros H. unfold clean_template, Py.remove_spaces, Py.upper.
  rewrite chars_str. rewrite <- (str_chars s) at 2. f_equal.
  induction H as [|c l [Hu Hs] _ IH]; [done|].
  rewrite fmap_cons, filter_cons, Hu.
  destruct (decide (c <> " "%char)); [|done]. by rewrite IH.
Qed.

Lemma str_slice_chars (P : ascii -> Prop) (s : string) (lo hi : Z) :
  Forall P (Py.chars s) -> Forall P (Py.chars (Py.str_slice s lo hi)).
Proof.
  intros H. unfold Py.str_slice, Py.slice. rewrite chars_str.
  by apply Forall_take, Forall_drop.
Qed.

Lemma elem_of_slice {A} (l : list A) (lo hi : Z) (x : A) :
  x ∈ Py.slice l lo hi -> x ∈ l.
Proof.
  unfold Py.slice. intros H.
  by apply subseteq_take, subseteq_drop in H.
Qed.

Section Design.

Variable round1 : float -> float.
Variable calc_tm : string -> float.
Variable calc_hairpin calc_homodimer : string -> thermo_result.
Variable calc_heterodimer : string -> string -> thermo_result.
Variable design_primers : seq_args -> gmap string p3val -> p3_out.

Variable template : string.
Variables junction_pos overlap_min overlap_max product_min product_max : Z.
Variable primer_params : option (gmap string p3val).
Variables left_pad right_pad max_candidates : Z.

(** The names the source gives to its intermediate values. *)
Local Abbreviation run :=
  (design_junction_primer_pairs round1 calc_tm calc_hairpin calc_homodimer
     calc_heterodimer design_primers template junction_pos overlap_min overlap_max
     product_min product_max primer_params left_pad right_pad max_candidates).
Local Abbreviation n_full := (Py.str_len (clean_template template)).
Local Abbreviation win_start := (_clamp (junction_pos - left_pad) 0 n_full).
Local Abbreviation win_end := (_clamp (junction_pos + right_pad) 0 n_full).
Local Abbreviation local := (Py.str_slice (clean_template template) win_start win_end).
Local Abbreviation j_local := (junction_pos - win_start).
Local Abbreviation n := (Py.str_len local).
Local Abbreviation args := (junction_args primer_params product_min product_max).
Local Abbreviation diagnostic_call :=
  (CallDesignPrimers (SeqArgs "diagnostic_test" local None)
     (<["PRIMER_PICK_RIGHT_PRIMER" := PInt 1]>
        (<["PRIMER_PICK_LEFT_PRIMER" := PInt 1]> args))).
Local Abbreviation right_seq_args :=
  (SeqArgs ("right_search_" +:+ pretty junction_pos) local (Some (j_local, n - j_local))).
Local Abbreviation right_args :=
  (<["PRIMER_NUM_RETURN" := PInt 20]>
     (<["PRIMER_PICK_INTERNAL_OLIGO" := PInt 0]>
        (<["PRIMER_PICK_RIGHT_PRIMER" := PInt 1]>
           (<["PRIMER_PICK_LEFT_PRIMER" := PInt 0]> args)))).
Local Abbreviation right_out := (design_primers right_seq_args right_args).
Local Abbreviation num_right := (default 0 (PRIMER_RIGHT_NUM_RETURNED right_out)).
Local Abbreviation size_min := (py_int (default (PInt 18) (args !! "PRIMER_MIN_SIZE"))).
Local Abbreviation size_max := (py_int (default (PInt 25) (args !! "PRIMER_MAX_SIZE"))).
Local Abbreviation optimum := (py_float (default (PFloat 60.0) (args !! "PRIMER_OPT_TM"))).

(** The paths through [design_junction_primer_pairs], in the order of the
    source: a property of every path is a property of the run. *)
Lemma design_paths (P : list event * outcome -> Prop) :
  (n_full = 0 -> P ([], Returned (error_result "Empty template"))) ->
  (n_full <> 0 -> ~ (0 < junction_pos < n_full) ->
   P ([], Returned (error_result "junction_pos out of range"))) ->
  (forall e, 0 < junction_pos < n_full ->
     size_min = inl e \/ ((exists z, size_min = inr z) /\ size_max = inl e) ->
     P ([], Raised e)) ->
  (forall primer_min primer_max,
     0 < junction_pos < n_full ->
     size_min = inr primer_min -> size_max = inr primer_max ->
     let candidates :=
       generate_candidates j_local n overlap_min overlap_max primer_min primer_max in
     (candidates = [] ->
      P ([], Returned (error_result "No junction candidates in window")))
     /\ (candidates <> [] ->
         (forall e, optimum = inl e -> P ([diagnostic_call], Raised e))
         /\ (forall opt_tm, optimum = inr opt_tm ->
             let log1 :=
               [diagnostic_call]
               ++ (c ← candidates; analyze_primer_calls (Py.str_slice local c.1 c.2)) in
             let scored :=
               rank_candidates
                 (score_candidates round1 calc_tm calc_hairpin calc_homodimer
                    local opt_tm candidates) max_candidates in
             (scored = [] -> P (log1, Raised IndexError))
             /\ (scored <> [] ->
                 (n - j_local < primer_min ->
                  P (log1, Returned (error_result "Window too small for right primers")))
                 /\ (primer_min <= n - j_local ->
                     let log2 := log1 ++ [CallDesignPrimers right_seq_args right_args] in
                     (num_right = 0 ->
                      P (log2, Returned
                           (error_result "No RIGHT primers found in downstream region")))
                     /\ (num_right <> 0 ->
                         let st :=
                           pair_matcher round1 calc_tm calc_hairpin calc_homodimer
                             calc_heterodimer local win_start junction_pos
                             product_min product_max scored
                             (collect_right_candidates right_out num_right) log2 in
                         P (calls st,
                            Returned (DesignResult (Py.len (pairs_out st))
                                        (pairs_out st) None)))))))) ->
  P run.
Proof.
  intros Hempty Hrange Hraise Hmain.
  unfold design_junction_primer_pairs.
  destruct (Z.eqb_spec n_full 0) as [H0|H0]; [by apply Hempty|].
  destruct (negb _) eqn:Ejp.
  { apply Hrange; [done|]. apply negb_true_iff, andb_false_iff in Ejp. lia. }
  assert (0 < junction_pos < n_full) as Hjp.
  { apply negb_false_iff, andb_true_iff in Ejp. lia. }
  destruct size_min as [e|primer_min] eqn:Emin; [apply Hraise; auto|].
  destruct size_max as [e|primer_max] eqn:Emax; [apply Hraise; eauto|].
  destruct (Hmain primer_min primer_max Hjp eq_refl eq_refl) as [Hnone Hsome].
  unfold window_and_candidates.
  destruct (generate_candidates _ _ _ _ _ _) as [|c0 cs] eqn:Ecand; [by apply Hnone|].
  destruct Hsome as [Hopt_raise Hopt]; [done|].
  destruct optimum as [e|opt_tm] eqn:Eopt; [by apply Hopt_raise|].
  destruct (Hopt opt_tm eq_refl) as [Hindex Hscored].
  destruct (rank_candidates _ _) as [|s0 ss] eqn:Escored; [by apply Hindex|].
  destruct Hscored as [Hsmall Hsearch]; [done|].
  unfold search_and_pair.
  destruct (Z.ltb_spec (n - j_local) primer_min) as [Hlt|Hge]; [by apply Hsmall|].
  destruct (Hsearch Hge) as [Hzero Hpairs].
  destruct (Z.eqb_spec num_right 0) as [Hz|Hnz]; [by apply Hzero|].
  by apply Hpairs.
Qed.


(** C9. With a template that is empty once cleaned, or a junction position
    not strictly between 0 and the template length,
    [design_junction_primer_pairs] returns at once: no call to primer3 is
    made (no candidate is analysed, no search is run), nothing is raised,
    and the result has [num_pairs = 0], no pair and an error message. *)
Theorem invalid_input_rejected :
  Py.str_len (clean_template template) = 0
  \/ ~ (0 < junction_pos < Py.str_len (clean_template template)) ->
  exists msg,
    design_junction_primer_pairs round1 calc_tm calc_hairpin calc_homodimer
      calc_heterodimer design_primers template junction_pos overlap_min overlap_max
      product_min product_max primer_params left_pad right_pad max_candidates
    = ([], Returned (DesignResult 0 [] (Some msg)))
    /\ (Py.str_len (clean_template template) = 0 -> msg = "Empty template")
    /\ (Py.str_len (clean_template template) <> 0 ->
        msg = "junction_pos out of range").
Proof.
  intros Hbad. unfold design_junction_primer_pairs.
  destruct (Z.eqb_spec n_full 0) as [H0|H0].
  - exists "Empty template". split; [done|]. split; [done|]. intros; lia.
  - destruct Hbad as [?|Hbad]; [lia|].
    replace (negb _) with true.
    + exists "junction_pos out of range". split; [done|]. split; [lia|done].
    + symmetry. apply negb_true_iff, andb_false_iff. lia.
Qed.

Lemma log1_widened (candidates : list (Z * Z)) :
  Forall (widened_search product_min product_max)
    ([diagnostic_call]
     ++ (c ← candidates; analyze_primer_calls (Py.str_slice local c.1 c.2))).
Proof.
  apply Forall_app. split.
  - repeat constructor. cbn [widened_search].
    rewrite !lookup_insert_ne by done. apply junction_args_range.
  - apply Forall_forall. intros ev Hev.
    apply list_elem_of_bind in Hev as (c & Hev & _).
    unfold analyze_primer_calls in Hev.
    repeat (apply elem_of_cons in Hev as [->|Hev]; [done|]).
    by apply elem_of_nil in Hev.
Qed.

Lemma right_call_widened :
  widened_search product_min product_max (CallDesignPrimers right_seq_args right_args).
Proof.
  cbn [widened_search]. rewrite !lookup_insert_ne by done. apply junction_args_range.
Qed.

Lemma thermo_call_widened (extra : list event) :
  Forall thermo_call extra -> Forall (widened_search product_min product_max) extra.
Proof. intros H. eapply Forall_impl; [exact H|]. by intros []. Qed.

(** C6. Every pair that [design_junction_primer_pairs] returns has
    [product_size] equal to the right primer's interval end minus the left
    primer's interval start, both taken in the local window (the returned
    intervals less [win_start]), and that size lies in the caller's
    [[product_min, product_max]]; this holds although every primer3 search
    of the run was given the widened range
    [[max(50, product_min - 50), min(1000, product_max + 300)]]; and the
    Pair Matcher emits nothing for a left and a right candidate whose
    product size is outside the caller's window. *)
Theorem emitted_pairs_product_size (log : list event) (r : design_result) :
  (design_junction_primer_pairs round1 calc_tm calc_hairpin calc_homodimer
     calc_heterodimer design_primers template junction_pos overlap_min overlap_max
     product_min product_max primer_params left_pad right_pad max_candidates
   = (log, Returned r) ->
   (forall p, p ∈ pairs r ->
      product_size p
      = ((p_interval (pp_right p)).2 - win_start) - ((p_interval (pp_left p)).1 - win_start)
      /\ product_min <= product_size p <= product_max)
   /\ (forall sa args, CallDesignPrimers sa args ∈ log ->
         args !! "PRIMER_PRODUCT_SIZE_RANGE"
         = Some (PRanges [(Z.max 50 (product_min - 50),
                           Z.min 1000 (product_max + 300))])))
  /\ (forall window start_of_window score start end_ left_a_pref rc log0,
        ~ (product_min <= (rc_interval_local rc).2 - start <= product_max) ->
        pairs_out
          (pair_matcher round1 calc_tm calc_hairpin calc_homodimer calc_heterodimer
             window start_of_window junction_pos product_min product_max
             [(score, (start, end_), left_a_pref)] [rc] log0)
        = []).
Proof.
  split.
  2: { intros window start_of_window score start end_ left_a_pref rc log0 Hout.
       unfold pair_matcher. cbn [left_loop].
       by rewrite right_loop_product_rejected. }
  intros Hrun.
  cut ((forall p, p ∈ pairs r ->
          product_size p
          = ((p_interval (pp_right p)).2 - win_start)
            - ((p_interval (pp_left p)).1 - win_start)
          /\ product_min <= product_size p <= product_max)
       /\ Forall (widened_search product_min product_max) log).
  { intros [Hsizes Hlog]. split; [exact Hsizes|]. intros sa args Hcall.
    exact (proj1 (Forall_forall _ _) Hlog _ Hcall). }
  revert log r Hrun.
  apply (design_paths
           (fun x => forall log r, x = (log, Returned r) ->
              (forall p, p ∈ pairs r ->
                 product_size p
                 = ((p_interval (pp_right p)).2 - win_start)
                   - ((p_interval (pp_left p)).1 - win_start)
                 /\ product_min <= product_size p <= product_max)
              /\ Forall (widened_search product_min product_max) log)).
  - intros _ log r [= <- <-]. split; [|constructor]. intros p Hp. by apply elem_of_nil in Hp.
  - intros _ _ log r [= <- <-]. split; [|constructor]. intros p Hp. by apply elem_of_nil in Hp.
  - intros e _ _ log r [=].
  - intros primer_min primer_max _ _ _ candidates. split.
    { intros _ log r [= <- <-]. split; [|constructor]. intros p Hp. by apply elem_of_nil in Hp. }
    intros _. split; [intros e _ log r [=]|].
    intros opt_tm _ log1 scored. split; [intros _ log r [=]|].
    intros _. split.
    { intros _ log r [= <- <-]. split; [|apply log1_widened].
      intros p Hp. by apply elem_of_nil in Hp. }
    intros _ log2.
    assert (Forall (widened_search product_min product_max) log2) as Hlog2.
    { apply Forall_app. split; [apply log1_widened|].
      repeat constructor. apply right_call_widened. }
    split.
    { intros _ log r [= <- <-]. split; [|done]. intros p Hp. by apply elem_of_nil in Hp. }
    intros _ st log r [= <- <-]. cbn [pairs]. split.
    + apply (pair_matcher_invariant round1 calc_tm calc_hairpin calc_homodimer
               calc_heterodimer local win_start junction_pos product_min product_max
               (fun st => forall p, p ∈ pairs_out st ->
                  product_size p
                  = ((p_interval (pp_right p)).2 - win_start)
                    - ((p_interval (pp_left p)).1 - win_start)
                  /\ product_min <= product_size p <= product_max)).
      * intros p Hp. by apply elem_of_nil in Hp.
      * intros sc rc st1 st2 _ _ Hst1 (_ & Hprod & _ & Hst2) p Hp. subst st2.
        cbn [emit_pair pairs_out] in Hp. apply elem_of_app in Hp as [Hp|Hp]; [by apply Hst1|].
        apply list_elem_of_singleton in Hp as ->. cbn. split; [lia|done].
    + destruct (pair_matcher_calls round1 calc_tm calc_hairpin calc_homodimer
                  calc_heterodimer local win_start junction_pos product_min product_max
                  scored (collect_right_candidates right_out num_right) log2)
        as (extra & Hcalls & Hextra).
      fold st in Hcalls. rewrite Hcalls. apply Forall_app. split; [done|].
      by apply thermo_call_widened.
Qed.

Lemma ranked_left_analysed (opt_tm : float) (candidates : list (Z * Z)) :
  Forall (left_analysed local)
    (rank_candidates
       (score_candidates round1 calc_tm calc_hairpin calc_homodimer
          local opt_tm candidates) max_candidates).
Proof.
  apply Forall_forall. intros sc Hsc. unfold rank_candidates in Hsc.
  apply elem_of_slice in Hsc. rewrite sorted_Permutation in Hsc.
  apply list_elem_of_fmap in Hsc as (c & -> & _).
  unfold left_analysed. cbn [fst snd analyze_primer a_sequence].
  apply clean_template_fixed. do 2 apply str_slice_chars.
  apply clean_template_chars.
Qed.

Lemma collected_right_clean (out : p3_out) (num : Z) :
  (forall i s, PRIMER_RIGHT_SEQUENCE out i = Some s -> clean_template s = s) ->
  Forall right_clean (collect_right_candidates out num).
Proof.
  intros Hclean. apply Forall_forall. intros rc Hrc.
  apply list_elem_of_omap in Hrc as (i & _ & Hrc).
  destruct (PRIMER_RIGHT_SEQUENCE out i) as [rseq|] eqn:Eseq; [|done].
  destruct (bool_decide _); [done|].
  destruct (_parse_right_interval out i); [|done].
  injection Hrc as <-. unfold right_clean. cbn [rc_seq]. eauto.
Qed.

(** C7 (amended). With a primer3 that returns its right primers in upper
    case and without spaces, as it does for the cleaned template it is
    given, no two pairs [design_junction_primer_pairs] returns have the
    same [(left.sequence, right.sequence, product_size)]; and the same
    left and right candidate fed twice to the Pair Matcher, on either side
    or on both, give exactly one pair. *)
Theorem pairs_deduplicated (log : list event) (r : design_result) :
  (forall sa a i s,
     PRIMER_RIGHT_SEQUENCE (design_primers sa a) i = Some s ->
     Py.remove_spaces (Py.upper s) = s) ->
  (design_junction_primer_pairs round1 calc_tm calc_hairpin calc_homodimer
     calc_heterodimer design_primers template junction_pos overlap_min overlap_max
     product_min product_max primer_params left_pad right_pad max_candidates
   = (log, Returned r) ->
   NoDup ((fun p => (a_sequence (p_analysis (pp_left p)),
                     a_sequence (p_analysis (pp_right p)),
                     product_size p)) <$> pairs r))
  /\ (forall window start_of_window score start end_ left_a_pref rc log0,
        let sc : scored_candidate := (score, (start, end_), left_a_pref) in
        let matcher :=
          pair_matcher round1 calc_tm calc_hairpin calc_homodimer calc_heterodimer
            window start_of_window junction_pos product_min product_max in
        tm_incompatible (Py.float_or_zero (a_tm left_a_pref)) (rc_tm rc) = false ->
        product_min <= (rc_interval_local rc).2 - start <= product_max ->
        length (pairs_out (matcher [sc] [rc; rc] log0)) = 1%nat
        /\ length (pairs_out (matcher [sc; sc] [rc] log0)) = 1%nat
        /\ length (pairs_out (matcher [sc; sc] [rc; rc] log0)) = 1%nat).
Proof.
  intros Hclean. split.
  - revert log r.
    apply (design_paths
             (fun x => forall log r, x = (log, Returned r) ->
                NoDup (pair_key <$> pairs r))).
    + intros _ log r [= <- <-]. constructor.
    + intros _ _ log r [= <- <-]. constructor.
    + intros e _ _ log r [=].
    + intros primer_min primer_max _ _ _ candidates. split.
      { intros _ log r [= <- <-]. constructor. }
      intros _. split; [intros e _ log r [=]|].
      intros opt_tm _ log1 scored. split; [intros _ log r [=]|].
      intros _. split.
      { intros _ log r [= <- <-]. constructor. }
      intros _ log2. split.
      { intros _ log r [= <- <-]. constructor. }
      intros _ st log r [= <- <-]. cbn [pairs].
      apply pair_matcher_keys.
      * apply ranked_left_analysed.
      * apply collected_right_clean. intros i s. apply Hclean.
  - intros window start_of_window score start end_ left_a_pref rc log0.
    apply pair_matcher_duplicates.
Qed.



End Design.

(** ** Worked runs *)

Lemma test_run_returns : test_run = (test_run.1, Returned (returned test_run.2)).
Proof. vm_compute. reflexivity. Qed.

Lemma test_run_pairs :
  fmap (fun p => (pair_number p, p_interval (pp_left p), p_interval (pp_right p),
                 product_size p))
    (pairs (returned test_run.2))
  = [(1, (30, 52), (111, 131), 101); (2, (30, 52), (121, 141), 111);
     (3, (29, 51), (111, 131), 102); (4, (29, 51), (121, 141), 112);
     (5, (28, 50), (111, 131), 103); (6, (28, 50), (121, 141), 113);
     (7, (31, 52), (111, 131), 100); (8, (31, 52), (121, 141), 110);
     (9, (30, 51), (111, 131), 101); (10, (30, 51), (121, 141), 111)].
Proof. vm_compute. reflexivity. Qed.

Lemma test_template_clean : Forall clean_char (Py.chars test_template).
Proof.
  replace test_template with (clean_template test_template)
    by (vm_compute; reflexivity).
  apply clean_template_chars.
Qed.

Lemma invalid_input_rejected_witness :
  design_junction_primer_pairs test_round1 test_calc_tm test_calc_thermo
    test_calc_thermo test_calc_heterodimer test_design_primers
    test_template 240 6 12 80 220 None 250 400 25
  = ([], Returned (DesignResult 0 [] (Some "junction_pos out of range"))).
Proof.
  destruct (invalid_input_rejected test_round1 test_calc_tm test_calc_thermo
              test_calc_thermo test_calc_heterodimer test_design_primers
              test_template 240 6 12 80 220 None 250 400 25)
    as (msg & Hrun & _ & Hmsg).
  - right. vm_compute. intros [_ H]. discriminate H.
  - rewrite Hrun, Hmsg; [reflexivity|]. vm_compute. discriminate.
Defined.

Lemma emitted_pairs_product_size_witness :
  Py.len (pairs (returned test_run.2)) = 10
  /\ forall p, p ∈ pairs (returned test_run.2) -> 80 <= product_size p <= 220.
Proof.
  split; [vm_compute; reflexivity|]. intros p Hp.
  exact (proj2 (proj1 (proj1 (emitted_pairs_product_size test_round1 test_calc_tm
                                test_calc_thermo test_calc_thermo test_calc_heterodimer
                                test_design_primers test_template 40 6 12 80 220 None
                                250 400 25 _ _) test_run_returns) p Hp)).
Defined.

Lemma pairs_deduplicated_witness :
  NoDup ((fun p => (a_sequence (p_analysis (pp_left p)),
                    a_sequence (p_analysis (pp_right p)),
                    product_size p)) <$> pairs (returned test_run.2)).
Proof.
  refine (proj1 (pairs_deduplicated test_round1 test_calc_tm test_calc_thermo
                   test_calc_thermo test_calc_heterodimer test_design_primers
                   test_template 40 6 12 80 220 None 250 400 25 _ _ _)
            test_run_returns).
  intros sa a i s [= <-]. apply clean_template_fixed, str_slice_chars.
  apply test_template_clean.
Defined.

(** C7 as first stated has the keys of the returned pairs pairwise
    distinct for every answer of the search. The de-duplication compares
    the right sequence as primer3 returned it; the pair holds it cleaned
    by [analyze_primer]. A right primer returned in lower case and in
    upper case passes twice, and the two pairs that come out have the same
    sequences and product size. *)
Lemma pairs_differing_in_case_only :
  let key p :=
    (a_sequence (p_analysis (pp_left p)), a_sequence (p_analysis (pp_right p)),
     product_size p) in
  exists r p q,
    test_run_mixed.2 = Returned r
    /\ pairs r !! 0%nat = Some p /\ pairs r !! 1%nat = Some q
    /\ key p = ("CAACGTTGCAACGTTGCAACGT", "TGCAACGTTGCAACGTTGCA", 101)
    /\ key q = ("CAACGTTGCAACGTTGCAACGT", "TGCAACGTTGCAACGTTGCA", 101)
    /\ ~ NoDup (key <$> pairs r).
Proof.
  intros key.
  destruct test_run_mixed.2 as [r|e] eqn:Hrun; [|by vm_compute in Hrun].
  destruct (pairs r) as [|p [|q ps]] eqn:Hpairs.
  1,2: exfalso; vm_compute in Hrun; injection Hrun as <-; by vm_compute in Hpairs.
  assert (key p = ("CAACGTTGCAACGTTGCAACGT", "TGCAACGTTGCAACGTTGCA", 101)
          /\ key q = ("CAACGTTGCAACGTTGCAACGT", "TGCAACGTTGCAACGTTGCA", 101))
    as [Hp Hq].
  { vm_compute in Hrun. injection Hrun as <-. vm_compute in Hpairs.
    injection Hpairs as <- <- _. split; vm_compute; reflexivity. }
  exists r, p, q. rewrite Hpairs. split; [done|]. split; [done|]. split; [done|].
  split; [exact Hp|]. split; [exact Hq|].
  rewrite !fmap_cons, Hp, Hq. intros Hnd. apply NoDup_cons in Hnd as [Hnotin _].
  apply Hnotin. by left.
Qed.



(** ** Transcript features *)

Lemma features_step_pieces (strand : string) (cs ce : Z) (acc : features) (ex : interval) :
  features_step strand cs ce acc ex
  = Features (f_cds acc ++ option_list (clip cs ce ex))
      (f_utr5 acc ++ option_list (if bool_decide (strand = "+") then below cs ex
                                  else above ce ex))
      (f_utr3 acc ++ option_list (if bool_decide (strand = "+") then above ce ex
                                  else below cs ex)).
Proof.
  destruct ex as [s e]. unfold features_step, clip, below, above. cbn [fst snd].
  assert (forall l : list interval, l ++ [] = l) as Hnil by apply app_nil_r.
  destruct (bool_decide (strand = "+"));
    repeat match goal with
    | |- context [?a <=? ?b] => destruct (Z.leb_spec a b)
    | |- context [?a <? ?b] => destruct (Z.ltb_spec a b)
    | |- context [?a >? ?b] => rewrite (Z.gtb_ltb a b)
    | |- context [?a >=? ?b] => rewrite (Z.geb_leb a b)
    end; cbn [andb option_list]; rewrite ?Hnil; try reflexivity; lia.
Qed.

Lemma features_pieces (strand : string) (cs ce : Z) (exons : list interval) (acc : features) :
  foldl (features_step strand cs ce) acc exons
  = Features (f_cds acc ++ omap (clip cs ce) exons)
      (f_utr5 acc ++ omap (if bool_decide (strand = "+") then below cs else above ce) exons)
      (f_utr3 acc ++ omap (if bool_decide (strand = "+") then above ce else below cs) exons).
Proof.
  revert acc. induction exons as [|ex exons IH]; intros acc.
  - destruct acc. cbn. by rewrite !app_nil_r.
  - cbn [foldl]. rewrite IH, features_step_pieces. cbn [f_cds f_utr5 f_utr3].
    rewrite <- !app_assoc. f_equal; f_equal.
    + cbn [omap list_omap]. by destruct (clip cs ce ex).
    + cbn [omap list_omap]. by destruct (bool_decide _), (below cs ex), (above ce ex).
    + cbn [omap list_omap]. by destruct (bool_decide _), (below cs ex), (above ce ex).
Qed.

Lemma covers_Permutation (l l' : list interval) (x : Z) :
  l ≡ₚ l' -> covers l x <-> covers l' x.
Proof.
  intros Hp. unfold covers. split; intros (iv & Hiv & Hx); exists iv.
  - by rewrite <- Hp.
  - by rewrite Hp.
Qed.

Lemma covers_sorted (l : list interval) (x : Z) :
  covers (Py.sorted Py.lt_pair l) x <-> covers l x.
Proof. apply covers_Permutation, sorted_Permutation. Qed.

Lemma covers_app (l1 l2 : list interval) (x : Z) :
  covers (l1 ++ l2) x <-> covers l1 x \/ covers l2 x.
Proof.
  unfold covers. split.
  - intros (iv & Hiv & Hx). apply elem_of_app in Hiv as [?|?]; eauto.
  - intros [(iv & Hiv & Hx)|(iv & Hiv & Hx)]; exists iv; rewrite elem_of_app; auto.
Qed.

Lemma covers_clip (lo hi : Z) (l : list interval) (x : Z) :
  covers (omap (clip lo hi) l) x <-> covers l x /\ lo <= x <= hi.
Proof.
  unfold covers. split.
  - intros (iv & Hiv & Hx). apply list_elem_of_omap in Hiv as (e & He & Hc).
    unfold clip in Hc. destruct (Z.leb_spec (Z.max e.1 lo) (Z.min e.2 hi)); [|done].
    injection Hc as <-. cbn [fst snd] in Hx. split; [exists e; split; [done|]|]; lia.
  - intros [(e & He & Hx) Hb]. exists (Z.max e.1 lo, Z.min e.2 hi). split.
    + apply list_elem_of_omap. exists e. split; [done|]. unfold clip.
      destruct (Z.leb_spec (Z.max e.1 lo) (Z.min e.2 hi)); [done|lia].
    + cbn [fst snd]. lia.
Qed.

Lemma covers_below (bound : Z) (l : list interval) (x : Z) :
  covers (omap (below bound) l) x <-> covers l x /\ x < bound.
Proof.
  unfold covers. split.
  - intros (iv & Hiv & Hx). apply list_elem_of_omap in Hiv as (e & He & Hc).
    unfold below in Hc. destruct (Z.leb_spec e.1 (Z.min e.2 (bound - 1))); [|done].
    injection Hc as <-. cbn [fst snd] in Hx. split; [exists e; split; [done|]|]; lia.
  - intros [(e & He & Hx) Hb]. exists (e.1, Z.min e.2 (bound - 1)). split.
    + apply list_elem_of_omap. exists e. split; [done|]. unfold below.
      destruct (Z.leb_spec e.1 (Z.min e.2 (bound - 1))); [done|lia].
    + cbn [fst snd]. lia.
Qed.

Lemma covers_above (bound : Z) (l : list interval) (x : Z) :
  covers (omap (above bound) l) x <-> covers l x /\ bound < x.
Proof.
  unfold covers. split.
  - intros (iv & Hiv & Hx). apply list_elem_of_omap in Hiv as (e & He & Hc).
    unfold above in Hc. destruct (Z.leb_spec (Z.max e.1 (bound + 1)) e.2); [|done].
    injection Hc as <-. cbn [fst snd] in Hx. split; [exists e; split; [done|]|]; lia.
  - intros [(e & He & Hx) Hb]. exists (Z.max e.1 (bound + 1), e.2). split.
    + apply list_elem_of_omap. exists e. split; [done|]. unfold above.
      destruct (Z.leb_spec (Z.max e.1 (bound + 1)) e.2); [done|lia].
    + cbn [fst snd]. lia.
Qed.

(** The dictionary [get_transcript_details] builds from an answer. *)
Lemma get_transcript_details_answer (lookup_id : string -> http_answer lookup_data)
    (transcript_id : string) (data : lookup_data) (t : gmap string tval) :
  lookup_id transcript_id = Answer data ->
  get_transcript_details lookup_id transcript_id = inr (Some t) ->
  let strand := if bool_decide (default 1 (ld_strand data) = 1) then "+" else "-" in
  let exons := Py.sorted Py.lt_pair (ld_Exon data) in
  let feats := transcript_features strand (ld_Translation data) exons in
  t !! "strand" = Some (VStr strand)
  /\ t !! "chrom" = Some (VStr (default "" (ld_seq_region_name data)))
  /\ get_intervals t "exons" = exons
  /\ get_intervals t "cds" = Py.sorted Py.lt_pair (f_cds feats)
  /\ get_intervals t "utr5" = Py.sorted Py.lt_pair (f_utr5 feats)
  /\ get_intervals t "utr3" = Py.sorted Py.lt_pair (f_utr3 feats)
  /\ get_intervals t "utr" = Py.sorted Py.lt_pair (f_utr5 feats ++ f_utr3 feats).
Proof.
  intros Hans Ht. unfold get_transcript_details in Ht. rewrite Hans in Ht.
  injection Ht as <-. cbv zeta. unfold get_intervals.
  repeat split; reflexivity.
Qed.

(** X1. In the dictionary [get_transcript_details] builds for a coding
    transcript (translation bounds [cs] and [ce], both truthy), a genomic
    position is covered by the CDS list exactly when it lies in an exon
    and in [[cs, ce]]; by the 5'UTR list exactly when it lies in an exon
    and before the CDS in transcript direction (below [cs] on the plus
    strand, above [ce] on the minus strand); by the 3'UTR list exactly
    when it lies in an exon and after the CDS; and by the UTR list exactly
    when it lies in an exon and outside [[cs, ce]]. *)
Theorem transcript_features_classify (lookup_id : string -> http_answer lookup_data)
    (transcript_id : string) (data : lookup_data) (translation : translation_data)
    (cs ce : Z) (t : gmap string tval) :
  lookup_id transcript_id = Answer data ->
  get_transcript_details lookup_id transcript_id = inr (Some t) ->
  ld_Translation data = Some translation ->
  truthy_int (tl_start translation) = Some cs ->
  truthy_int (tl_end translation) = Some ce ->
  let plus := bool_decide (default 1 (ld_strand data) = 1) in
  let exon x := covers (ld_Exon data) x in
  t !! "strand" = Some (VStr (if plus then "+" else "-"))
  /\ forall x,
       (covers (get_intervals t "cds") x <-> exon x /\ cs <= x <= ce)
       /\ (covers (get_intervals t "utr5") x
           <-> exon x /\ if plus then x < cs else ce < x)
       /\ (covers (get_intervals t "utr3") x
           <-> exon x /\ if plus then ce < x else x < cs)
       /\ (covers (get_intervals t "utr") x <-> exon x /\ (x < cs \/ ce < x)).
Proof.
  intros Hans Ht Htr Hcs Hce plus exon.
  destruct (get_transcript_details_answer _ _ _ _ Hans Ht)
    as (Hstrand & _ & _ & Hcds & Hutr5 & Hutr3 & Hutr).
  split; [done|]. intros x.
  rewrite Hcds, Hutr5, Hutr3, Hutr. clear Hcds Hutr5 Hutr3 Hutr Hstrand.
  unfold transcript_features. rewrite Htr, Hcs, Hce, features_pieces.
  cbn [f_cds f_utr5 f_utr3 app]. rewrite !covers_sorted, covers_app.
  fold plus. unfold exon.
  assert (bool_decide ((if plus then "+" else "-") = "+") = plus) as ->
    by (by destruct plus).
  destruct plus;
    rewrite ?covers_clip, ?covers_below, ?covers_above, !covers_sorted; tauto.
Qed.

Lemma transcript_features_classify_witness :
  covers (get_intervals (test_tinfo "ENST01") "utr5") 47
  <-> covers (ld_Exon test_coding) 47 /\ 45 < 47.
Proof.
  refine (proj1 (proj2 (proj2 (transcript_features_classify test_lookup_id "ENST01"
            test_coding (TranslationData (Some 5) (Some 45)) 5 45
            (test_tinfo "ENST01") _ _ _ _ _) 47))); reflexivity.
Defined.

(** ** The CDS of a transcript and its projection *)

Lemma sum_cons (x : Z) (l : list Z) : Py.sum (x :: l) = x + Py.sum l.
Proof. reflexivity. Qed.

Lemma sum_app (l1 l2 : list Z) : Py.sum (l1 ++ l2) = Py.sum l1 + Py.sum l2.
Proof. induction l1 as [|x l1 IH]; simpl; lia. Qed.

Lemma sum_Permutation (l1 l2 : list Z) : l1 ≡ₚ l2 -> Py.sum l1 = Py.sum l2.
Proof. induction 1; simpl; lia. Qed.

Lemma annotated_len_app (l1 l2 : list (Z * Z)) :
  annotated_len (l1 ++ l2) = annotated_len l1 + annotated_len l2.
Proof. unfold annotated_len. by rewrite fmap_app, sum_app. Qed.

Lemma annotated_len_Permutation (l1 l2 : list (Z * Z)) :
  l1 ≡ₚ l2 -> annotated_len l1 = annotated_len l2.
Proof. intros Hp. unfold annotated_len. apply sum_Permutation. by rewrite Hp. Qed.

Lemma annotated_len_reflect (total : Z) (l : list (Z * Z)) :
  annotated_len (reflect total <$> l) = annotated_len l.
Proof.
  unfold annotated_len. rewrite <- list_fmap_compose. f_equal.
  apply list_fmap_ext. intros _ a _. unfold span_len, reflect. simpl. lia.
Qed.

Lemma overlaps_len (es ee off : Z) (cds : list interval) :
  annotated_len (overlaps es ee off cds) = Py.sum (shared_len (es, ee) <$> cds).
Proof.
  induction cds as [|c cds IH]; [done|].
  unfold overlaps in *. cbn [omap list_omap fmap list_fmap].
  rewrite sum_cons. rewrite <- IH.
  unfold project_overlap, shared_len. cbn [fst snd].
  destruct (Z.leb_spec (Z.max es c.1) (Z.min ee c.2)).
  - change (annotated_len (?a :: ?l)) with (span_len a + annotated_len l).
    unfold span_len. cbn [fst snd]. lia.
  - lia.
Qed.

Lemma projection_len (cds exons : list interval) (off : Z) :
  annotated_len (projection_by_intersection cds exons off)
  = Py.sum ((fun e => Py.sum (shared_len e <$> cds)) <$> exons).
Proof.
  revert off. induction exons as [|[es ee] exons IH]; intros off; [done|].
  cbn [projection_by_intersection fmap list_fmap fst snd].
  rewrite annotated_len_app, overlaps_len, IH. done.
Qed.

Lemma shared_len_swap (exons cds : list interval) :
  Py.sum ((fun e => Py.sum (shared_len e <$> cds)) <$> exons)
  = Py.sum ((fun c => Py.sum ((fun e => shared_len e c) <$> exons)) <$> cds).
Proof.
  induction exons as [|e exons IH].
  - cbn [fmap list_fmap]. induction cds as [|c cds IH]; [done|].
    cbn [fmap list_fmap]. rewrite sum_cons, <- IH. done.
  - cbn [fmap list_fmap]. rewrite sum_cons, IH.
    clear IH. induction cds as [|c cds IH]; [done|].
    cbn [fmap list_fmap]. rewrite !sum_cons, <- IH. lia.
Qed.

Lemma shared_len_apart (exons : list interval) (c : interval) :
  Forall (fun e => apart e c) exons -> Py.sum ((fun e => shared_len e c) <$> exons) = 0.
Proof.
  induction 1 as [|e exons He _ IH]; [done|].
  cbn [fmap list_fmap]. rewrite sum_cons.
  rewrite IH. unfold apart, shared_len in *. lia.
Qed.

Lemma shared_len_inside (exons : list interval) (c : interval) :
  StronglySorted apart exons -> inside exons c -> well_formed c ->
  Py.sum ((fun e => shared_len e c) <$> exons) = block_len c.
Proof.
  intros Hs Hin Hwf. apply Exists_exists in Hin as (e0 & He0 & Hlo & Hhi).
  unfold well_formed in Hwf.
  induction Hs as [|e exons Hs IH He]; [by apply elem_of_nil in He0|].
  cbn [fmap list_fmap]. rewrite sum_cons.
  apply elem_of_cons in He0 as [<-|He0].
  - rewrite shared_len_apart.
    + unfold shared_len, block_len. lia.
    + eapply Forall_impl; [exact He|]. intros e'. unfold apart. lia.
  - rewrite IH by done. rewrite Forall_forall in He. specialize (He e0 He0).
    unfold apart, shared_len in *. lia.
Qed.

Lemma cds_projection_len (exons cds : list interval) :
  pairwise_disjoint exons -> Forall (inside exons) cds -> Forall well_formed cds ->
  annotated_len (cds_projection exons cds) = spliced_len cds.
Proof.
  intros Hd Hin Hwf.
  rewrite cds_projection_by_intersection, projection_len, shared_len_swap.
  rewrite <- (spliced_len_Permutation _ _ (sorted_Permutation Py.lt_pair cds)).
  unfold spliced_len. f_equal. apply Forall_fmap_ext.
  rewrite Forall_forall in Hin, Hwf.
  apply Forall_forall. intros c Hc. rewrite sorted_Permutation in Hc.
  apply shared_len_inside; [| |by apply Hwf].
  - eapply (StronglySorted_Permutation apart);
      [|by apply pairwise_disjoint_StronglySorted].
    symmetry. apply sorted_Permutation.
  - specialize (Hin c Hc). unfold inside in *. by rewrite sorted_Permutation.
Qed.

Lemma cds_annotations_laid_out (tinfo : gmap string tval) :
  Forall well_formed (get_intervals tinfo "exons") ->
  pairwise_disjoint (get_intervals tinfo "cds") ->
  laid_out 0 (spliced_len (get_intervals tinfo "exons"))
    (cds_annotations_in_transcript_coords tinfo).
Proof.
  intros Hwf Hcds.
  pose proof (cds_projection_laid_out _ _ Hwf Hcds) as Hplus.
  pose proof (laid_out_reflect _ _ Hplus) as Hminus.
  rewrite cds_annotations_equation. destruct (strand_is_minus tinfo); [|done].
  erewrite sorted_pairs_unique; [exact Hminus|apply reverse_Permutation|].
  by apply laid_out_Sorted in Hminus.
Qed.

Lemma cds_annotations_len (tinfo : gmap string tval) :
  annotated_len (cds_annotations_in_transcript_coords tinfo)
  = annotated_len (cds_projection (get_intervals tinfo "exons")
                     (get_intervals tinfo "cds")).
Proof.
  rewrite cds_annotations_equation. destruct (strand_is_minus tinfo); [|done].
  by rewrite (annotated_len_Permutation _ _ (sorted_Permutation _ _)),
    annotated_len_reflect.
Qed.

Lemma StronglySorted_pairwise_disjoint (l : list interval) :
  StronglySorted apart l -> pairwise_disjoint l.
Proof.
  intros Hs i j a b Hij Ha Hb. destruct (decide (i < j)%nat).
  - by apply (StronglySorted_lookup apart l i j).
  - symmetry. apply (StronglySorted_lookup apart l j i); [done|lia|done|done].
Qed.

Lemma clip_inside (lo hi : Z) (e c : interval) :
  clip lo hi e = Some c -> e.1 <= c.1 /\ c.1 <= c.2 /\ c.2 <= e.2.
Proof.
  unfold clip. destruct (Z.leb_spec (Z.max e.1 lo) (Z.min e.2 hi)); [|done].
  intros [= <-]. cbn [fst snd]. lia.
Qed.

Lemma clip_StronglySorted (lo hi : Z) (l : list interval) :
  StronglySorted apart l -> StronglySorted apart (omap (clip lo hi) l).
Proof.
  induction 1 as [|e l Hs IH He]; [constructor|].
  cbn [omap list_omap]. destruct (clip lo hi e) as [c|] eqn:Ec; [|done].
  constructor; [done|]. apply Forall_forall. intros c' Hc'.
  apply list_elem_of_omap in Hc' as (e' & He' & Ec').
  rewrite Forall_forall in He. specialize (He e' He').
  apply clip_inside in Ec, Ec'. unfold apart in *. lia.
Qed.

Lemma omap_None {A B} (l : list A) : omap (fun _ => @None B) l = [].
Proof. induction l as [|x l IH]; [done|exact IH]. Qed.

(** The CDS list of the dictionary [get_transcript_details] builds. *)
Lemma transcript_details_cds (lookup_id : string -> http_answer lookup_data)
    (transcript_id : string) (data : lookup_data) (t : gmap string tval) :
  lookup_id transcript_id = Answer data ->
  get_transcript_details lookup_id transcript_id = inr (Some t) ->
  get_intervals t "exons" = Py.sorted Py.lt_pair (ld_Exon data)
  /\ exists lo hi keep,
       get_intervals t "cds"
       = Py.sorted Py.lt_pair
           (omap (fun e => if keep : bool then clip lo hi e else None)
              (Py.sorted Py.lt_pair (ld_Exon data))).
Proof.
  intros Hans Ht.
  destruct (get_transcript_details_answer _ _ _ _ Hans Ht)
    as (_ & _ & Hex & Hcds & _).
  split; [done|]. rewrite Hcds. unfold transcript_features.
  destruct (ld_Translation data) as [tr|]; [|exists 0, 0, false; by rewrite omap_None].
  destruct (truthy_int (tl_start tr)) as [cs|]; [|exists 0, 0, false; by rewrite omap_None].
  destruct (truthy_int (tl_end tr)) as [ce|]; [|exists 0, 0, false; by rewrite omap_None].
  exists cs, ce, true. by rewrite features_pieces.
Qed.

(** X2. The dictionary [get_transcript_details] builds meets what the
    projection of the CDS asks for: when the exons of the answer have
    [start <= end] and are pairwise non-overlapping, the CDS intervals of
    the dictionary are pairwise non-overlapping and each lies inside one
    exon, so the intervals [cds_annotations_in_transcript_coords] returns
    for it are pairwise non-overlapping, ascending and inside
    [[0, total_len)], on either strand. *)
Theorem transcript_details_cds_layout (lookup_id : string -> http_answer lookup_data)
    (transcript_id : string) (data : lookup_data) (t : gmap string tval) :
  lookup_id transcript_id = Answer data ->
  get_transcript_details lookup_id transcript_id = inr (Some t) ->
  Forall well_formed (ld_Exon data) -> pairwise_disjoint (ld_Exon data) ->
  let cds := get_intervals t "cds" in
  let ann := cds_annotations_in_transcript_coords t in
  pairwise_disjoint cds
  /\ Forall (inside (ld_Exon data)) cds
  /\ non_overlapping ann /\ ascending ann /\ contained (spliced_len (ld_Exon data)) ann.
Proof.
  intros Hans Ht Hwf Hd cds ann.
  destruct (transcript_details_cds _ _ _ _ Hans Ht) as (Hex & lo & hi & keep & Hcds).
  assert (pairwise_disjoint cds) as Hcd.
  { unfold cds. rewrite Hcds. apply StronglySorted_pairwise_disjoint.
    eapply (StronglySorted_Permutation apart); [symmetry; apply sorted_Permutation|].
    destruct keep.
    - apply clip_StronglySorted.
      eapply (StronglySorted_Permutation apart); [symmetry; apply sorted_Permutation|].
      by apply pairwise_disjoint_StronglySorted.
    - rewrite (omap_None (B := interval)). constructor. }
  split; [done|]. split.
  - unfold cds. rewrite Hcds. apply Forall_forall. intros c Hc.
    rewrite sorted_Permutation in Hc.
    apply list_elem_of_omap in Hc as (e & He & Hc). rewrite sorted_Permutation in He.
    destruct keep; [|done]. apply clip_inside in Hc.
    apply Exists_exists. exists e. split; [done|lia].
  - rewrite (spliced_len_Permutation _ _ (symmetry (sorted_Permutation Py.lt_pair _))).
    rewrite <- Hex. apply laid_out_properties, cds_annotations_laid_out; [|done].
    by rewrite Hex, sorted_Permutation.
Qed.

Lemma transcript_details_cds_layout_witness :
  cds_annotations_in_transcript_coords (test_tinfo "ENST01") = [(5, 10); (10, 20); (20, 26)]
  /\ non_overlapping (cds_annotations_in_transcript_coords (test_tinfo "ENST01")).
Proof.
  split; [vm_compute; reflexivity|].
  refine (proj1 (proj2 (proj2 (transcript_details_cds_layout test_lookup_id "ENST01"
            test_coding (test_tinfo "ENST01") _ _ _ _)))).
  - reflexivity.
  - reflexivity.
  - repeat constructor; unfold well_formed; simpl; lia.
  - intros [|[|[|i]]] [|[|[|j]]] a b Hij Ha Hb; try done;
      vm_compute in Ha, Hb; simplify_eq; unfold apart; simpl; lia.
Defined.

(** X3. When the exons of a transcript dictionary are pairwise
    non-overlapping and every CDS interval has [start <= end] and lies
    inside one exon, the intervals
    [cds_annotations_in_transcript_coords] returns cover as many bases as
    the CDS has: no base of the CDS is lost or counted twice by the
    projection, on either strand. *)
Theorem cds_annotations_length (tinfo : gmap string tval) :
  let exons := get_intervals tinfo "exons" in
  let cds := get_intervals tinfo "cds" in
  pairwise_disjoint exons -> Forall (inside exons) cds -> Forall well_formed cds ->
  annotated_len (cds_annotations_in_transcript_coords tinfo) = spliced_len cds.
Proof.
  intros exons cds Hd Hin Hwf. rewrite cds_annotations_len. by apply cds_projection_len.
Qed.

Lemma cds_annotations_length_witness :
  annotated_len (cds_annotations_in_transcript_coords (test_tinfo "ENST01")) = 21.
Proof.
  refine (cds_annotations_length (test_tinfo "ENST01") _ _ _).
  - intros [|[|[|i]]] [|[|[|j]]] a b Hij Ha Hb; try done;
      vm_compute in Ha, Hb; simplify_eq; unfold apart; simpl; lia.
  - apply (bool_decide_unpack _). vm_compute. reflexivity.
  - apply (bool_decide_unpack _). vm_compute. reflexivity.
Defined.

(** X4. For a transcript without a usable translation (no [Translation]
    entry, or a [start] or [end] in it that is missing or zero), the
    dictionary [get_transcript_details] builds has empty [cds], [utr5],
    [utr3] and [utr] lists; so the CDS has no annotation and no block, and
    [build_spliced_sequence] returns [None] for the CDS without sending a
    request. *)
Theorem noncoding_transcript_has_no_cds (lookup_id : string -> http_answer lookup_data)
    (transcript_id : string) (data : lookup_data) (t : gmap string tval) :
  lookup_id transcript_id = Answer data ->
  get_transcript_details lookup_id transcript_id = inr (Some t) ->
  match ld_Translation data with
  | Some translation =>
      truthy_int (tl_start translation) = None \/ truthy_int (tl_end translation) = None
  | None => True
  end ->
  get_intervals t "cds" = [] /\ get_intervals t "utr5" = []
  /\ get_intervals t "utr3" = [] /\ get_intervals t "utr" = []
  /\ cds_annotations_in_transcript_coords t = []
  /\ _blocks_for_spliced_sequence t "cds" = []
  /\ forall region_seq species,
       build_spliced_sequence region_seq t "cds" species = ([], inr None).
Proof.
  intros Hans Ht Hno.
  destruct (get_transcript_details_answer _ _ _ _ Hans Ht)
    as (_ & _ & _ & Hcds & Hutr5 & Hutr3 & Hutr).
  assert (transcript_features
            (if bool_decide (default 1 (ld_strand data) = 1) then "+" else "-")
            (ld_Translation data) (Py.sorted Py.lt_pair (ld_Exon data))
          = Features [] [] []) as Hf.
  { unfold transcript_features. destruct (ld_Translation data) as [tr|]; [|done].
    destruct Hno as [-> | ->]; [done|]. by destruct (truthy_int (tl_start tr)). }
  rewrite Hf in Hcds, Hutr5, Hutr3, Hutr.
  split; [done|]. split; [done|]. split; [done|]. split; [done|]. split; [|split].
  - unfold cds_annotations_in_transcript_coords. rewrite Hcds.
    by destruct (get_intervals t "exons").
  - unfold _blocks_for_spliced_sequence. by rewrite Hcds.
  - intros region_seq species. unfold build_spliced_sequence. by rewrite Hcds.
Qed.

Lemma noncoding_transcript_has_no_cds_witness :
  _blocks_for_spliced_sequence (test_tinfo "ENST02") "cds" = []
  /\ _blocks_for_spliced_sequence (test_tinfo "ENST02") "exons" = [(1, 10); (21, 30)].
Proof.
  split; [|vm_compute; reflexivity].
  refine (proj1 (proj2 (proj2 (proj2 (proj2 (proj2
            (noncoding_transcript_has_no_cds test_lookup_id "ENST02" test_noncoding
               (test_tinfo "ENST02") _ _ _))))))).
  - reflexivity.
  - reflexivity.
  - exact I.
Defined.

(** ** Strings, continued *)

Lemma chars_inj (s1 s2 : string) : Py.chars s1 = Py.chars s2 -> s1 = s2.
Proof. intros H. rewrite <- (str_chars s1), <- (str_chars s2). by rewrite H. Qed.

Lemma chars_app (s1 s2 : string) : Py.chars (s1 +:+ s2) = Py.chars s1 ++ Py.chars s2.
Proof.
  unfold Py.chars. induction s1 as [|c s1 IH]; [done|].
  change (String c s1 +:+ s2) with (String c (s1 +:+ s2)).
  cbn [list_ascii_of_string]. by rewrite IH.
Qed.

Lemma str_app (l1 l2 : list ascii) : Py.str (l1 ++ l2) = Py.str l1 +:+ Py.str l2.
Proof.
  apply chars_inj. by rewrite chars_app, !chars_str.
Qed.

Lemma concat_cons (s : string) (parts : list string) :
  String.concat "" (s :: parts) = s +:+ String.concat "" parts.
Proof.
  destruct parts as [|s' parts]; [|done].
  apply chars_inj. rewrite chars_app. cbn. by rewrite app_nil_r.
Qed.

Lemma chars_concat (parts : list string) :
  Py.chars (String.concat "" parts) = mjoin (Py.chars <$> parts).
Proof.
  induction parts as [|s parts IH]; [done|].
  rewrite concat_cons, chars_app, IH. done.
Qed.

Lemma chars_upper (s : string) : Py.chars (Py.upper s) = Py.upper_char <$> Py.chars s.
Proof. unfold Py.upper. by rewrite chars_str. Qed.

Lemma str_len_upper (s : string) : Py.str_len (Py.upper s) = Py.str_len s.
Proof. unfold Py.str_len, Py.len. by rewrite chars_upper, length_fmap. Qed.

Lemma str_len_reverse_complement (s : string) :
  Py.str_len (reverse_complement s) = Py.str_len s.
Proof.
  unfold Py.str_len, Py.len.
  by rewrite reverse_complement_chars, length_reverse, length_fmap.
Qed.

Lemma str_len_app (s1 s2 : string) :
  Py.str_len (s1 +:+ s2) = Py.str_len s1 + Py.str_len s2.
Proof. unfold Py.str_len, Py.len. rewrite chars_app, length_app. lia. Qed.

Lemma upper_comp_char (c : ascii) :
  Py.upper_char (comp_char c) = comp_char (Py.upper_char c).
Proof.
  destruct c as [b0 b1 b2 b3 b4 b5 b6 b7].
  destruct b0, b1, b2, b3, b4, b5, b6, b7; vm_compute; reflexivity.
Qed.

(** Upper-casing commutes with the reverse complement. *)
Lemma upper_reverse_complement (s : string) :
  Py.upper (reverse_complement s) = reverse_complement (Py.upper s).
Proof.
  apply chars_inj. rewrite chars_upper, !reverse_complement_chars, chars_upper.
  rewrite fmap_reverse, <- !list_fmap_compose. f_equal.
  apply list_fmap_ext. intros _ c _. apply upper_comp_char.
Qed.

Lemma upper_concat (parts : list string) :
  Py.upper (String.concat "" parts) = String.concat "" (Py.upper <$> parts).
Proof.
  induction parts as [|s parts IH]; [done|].
  rewrite fmap_cons, !concat_cons, <- IH.
  apply chars_inj. by rewrite chars_upper, !chars_app, fmap_app, !chars_upper.
Qed.

Lemma reverse_complement_app (s1 s2 : string) :
  reverse_complement (s1 +:+ s2) = reverse_complement s2 +:+ reverse_complement s1.
Proof.
  apply chars_inj.
  rewrite chars_app, !reverse_complement_chars, chars_app, fmap_app, reverse_app. done.
Qed.

Lemma concat_app (l1 l2 : list string) :
  String.concat "" (l1 ++ l2) = String.concat "" l1 +:+ String.concat "" l2.
Proof.
  induction l1 as [|s l1 IH]; [done|].
  rewrite <- app_comm_cons, !concat_cons, IH.
  apply chars_inj. by rewrite !chars_app, app_assoc.
Qed.

Lemma append_empty_r (s : string) : s +:+ "" = s.
Proof. apply chars_inj. rewrite chars_app. cbn. by rewrite app_nil_r. Qed.

(** The reverse complement of a concatenation is the concatenation, in
    reverse order, of the reverse complements. *)
Lemma reverse_complement_concat (parts : list string) :
  reverse_complement (String.concat "" parts)
  = String.concat "" (reverse (reverse_complement <$> parts)).
Proof.
  induction parts as [|s parts IH]; [done|].
  rewrite fmap_cons, reverse_cons, concat_app, concat_cons, reverse_complement_app, IH.
  done.
Qed.

Lemma str_len_concat (parts : list string) :
  Py.str_len (String.concat "" parts) = Py.sum (Py.str_len <$> parts).
Proof.
  induction parts as [|s parts IH]; [done|].
  rewrite concat_cons, str_len_app, IH. done.
Qed.

(** ** Sequences assembled from the service *)

Lemma slice_app_l {A} (l1 l2 : list A) : Py.slice (l1 ++ l2) 0 (Py.len l1) = l1.
Proof.
  rewrite slice_from_start by apply len_nonneg. unfold Py.len.
  by rewrite Nat2Z.id, take_app_length.
Qed.

Lemma slice_app_r {A} (l1 l2 : list A) :
  Py.slice (l1 ++ l2) (Py.len l1) (Py.len (l1 ++ l2)) = l2.
Proof.
  unfold Py.slice, Py.slice_bound, Py.len. rewrite length_app.
  destruct (Z.ltb_spec (Z.of_nat (length l1)) 0); [lia|].
  destruct (Z.ltb_spec (Z.of_nat (length l1 + length l2)) 0); [lia|].
  replace (Z.min (Z.of_nat (length l1)) _) with (Z.of_nat (length l1)) by lia.
  rewrite Nat2Z.id, drop_app_length.
  apply take_ge. lia.
Qed.

Lemma str_slice_app_l (s1 s2 : string) : Py.str_slice (s1 +:+ s2) 0 (Py.str_len s1) = s1.
Proof.
  unfold Py.str_slice, Py.str_len. by rewrite chars_app, slice_app_l, str_chars.
Qed.

Lemma str_slice_app_r (s1 s2 : string) :
  Py.str_slice (s1 +:+ s2) (Py.str_len s1) (Py.str_len (s1 +:+ s2)) = s2.
Proof.
  unfold Py.str_slice, Py.str_len. by rewrite chars_app, slice_app_r, str_chars.
Qed.

Section SequenceProperties.

Variable region_seq : string -> string -> Z -> Z -> Z -> option string.

Local Abbreviation region_of chrom species iv :=
  (get_region_sequence region_seq chrom iv.1 iv.2 1 species).

(** When every interval has a sequence, the loop collects them all. *)
Lemma fetch_parts_all (chrom species : string) (seq_of : interval -> string)
    (ivs : list interval) (log : list fetch) (parts : list string) :
  (forall iv, iv ∈ ivs -> (region_of chrom species iv).2 = Some (seq_of iv)) ->
  (fetch_parts region_seq chrom species ivs log parts).2
  = Some (parts ++ (seq_of <$> ivs)).
Proof.
  revert log parts. induction ivs as [|[s e] ivs IH]; intros log parts Hall.
  - cbn. by rewrite app_nil_r.
  - cbn [fetch_parts]. pose proof (Hall (s, e) ltac:(by left)) as Hse.
    cbn [fst snd] in Hse. rewrite Hse.
    rewrite IH by (intros iv Hiv; apply Hall; by right).
    by rewrite <- app_assoc.
Qed.

(** What the loop leaves behind: every request is proper, every request
    but the last was answered, and the last was answered exactly when the
    loop ran to its end. *)
Lemma fetch_parts_log (chrom species : string) (ivs : list interval)
    (log : list fetch) (parts : list string) :
  Forall proper_request log -> Forall (answered region_seq) log ->
  let r := fetch_parts region_seq chrom species ivs log parts in
  Forall proper_request r.1
  /\ match r.2 with
     | Some _ => Forall (answered region_seq) r.1
     | None => exists log' f, r.1 = log' ++ [f] /\ Forall (answered region_seq) log'
                              /\ ~ answered region_seq f
     end.
Proof.
  revert log parts. induction ivs as [|[s e] ivs IH]; intros log parts Hp Ha; [done|].
  cbv zeta in *. cbn [fetch_parts]. unfold get_region_sequence.
  destruct (Z.ltb_spec e s) as [Hlt|Hge]; cbn [fst snd].
  - rewrite app_nil_r. by apply IH.
  - destruct (region_seq species chrom s e 1) as [seq|] eqn:Eseq.
    + apply IH; apply Forall_app; (split; [done|]); repeat constructor; cbn; [lia|].
      by rewrite Eseq.
    + cbn [fst snd]. split.
      * apply Forall_app. split; [done|]. repeat constructor. cbn. lia.
      * exists log, (FetchRegion species chrom s e 1). split; [done|]. split; [done|].
        cbn. rewrite Eseq. by intros [? ?].
Qed.


Lemma tinfo_str_lookup (tinfo : gmap string tval) (key s : string) :
  tinfo !! key = Some (VStr s) -> tinfo_str tinfo key = inr s.
Proof. intros H. unfold tinfo_str. by rewrite H. Qed.

Lemma strand_is_minus_lookup (tinfo : gmap string tval) (strand : string) :
  tinfo !! "strand" = Some (VStr strand) ->
  strand_is_minus tinfo = bool_decide (strand = "-").
Proof. intros H. unfold strand_is_minus. by rewrite H. Qed.

(** What [build_spliced_sequence] returns when every interval has a
    sequence, as the source computes it. *)
Lemma build_spliced_sequence_parts (tinfo : gmap string tval) (feature species : string)
    (chrom strand : string) (seq_of : interval -> string) :
  tinfo !! "chrom" = Some (VStr chrom) ->
  tinfo !! "strand" = Some (VStr strand) ->
  get_intervals tinfo feature <> [] ->
  (forall iv, iv ∈ get_intervals tinfo feature ->
     (region_of chrom species iv).2 = Some (seq_of iv)) ->
  let full :=
    String.concat "" (seq_of <$> Py.sorted Py.lt_pair (get_intervals tinfo feature)) in
  (build_spliced_sequence region_seq tinfo feature species).2
  = inr (Some (Py.upper (if bool_decide (strand = "-") then reverse_complement full
                         else full))).
Proof.
  intros Hchrom Hstrand Hne Hall. unfold build_spliced_sequence.
  destruct (get_intervals tinfo feature) as [|iv0 ivs] eqn:Eiv; [done|].
  rewrite (tinfo_str_lookup _ _ _ Hchrom), (tinfo_str_lookup _ _ _ Hstrand).
  cbv zeta. rewrite (fetch_parts_all chrom species seq_of); [done|].
  intros iv Hiv. apply Hall. by rewrite sorted_Permutation in Hiv.
Qed.

(** X5. When the service has a sequence for every interval of the
    feature, [build_spliced_sequence] returns the concatenation, in the
    order of [_blocks_for_spliced_sequence] (transcript order), of the
    sequences of the blocks, each read in transcript direction (reverse
    complemented on the minus strand), in upper case. *)
Theorem spliced_sequence_by_blocks (tinfo : gmap string tval) (feature species : string)
    (chrom strand : string) (seq_of : interval -> string) :
  tinfo !! "chrom" = Some (VStr chrom) ->
  tinfo !! "strand" = Some (VStr strand) ->
  get_intervals tinfo feature <> [] ->
  Forall (fun iv => (get_region_sequence region_seq chrom iv.1 iv.2 1 species).2
                    = Some (seq_of iv)) (get_intervals tinfo feature) ->
  let oriented iv :=
    if bool_decide (strand = "-") then reverse_complement (seq_of iv) else seq_of iv in
  (build_spliced_sequence region_seq tinfo feature species).2
  = inr (Some (Py.upper (String.concat ""
                 (oriented <$> _blocks_for_spliced_sequence tinfo feature)))).
Proof.
  intros Hchrom Hstrand Hne Hall oriented. rewrite Forall_forall in Hall.
  rewrite (build_spliced_sequence_parts tinfo feature species chrom strand seq_of)
    by done.
  unfold _blocks_for_spliced_sequence, oriented.
  destruct (get_intervals tinfo feature) as [|iv0 ivs] eqn:Eiv; [done|].
  rewrite (strand_is_minus_lookup _ _ Hstrand).
  destruct (bool_decide (strand = "-")); [|done].
  by rewrite reverse_complement_concat, fmap_reverse, <- list_fmap_compose.
Qed.

Lemma upper_app (s1 s2 : string) : Py.upper (s1 +:+ s2) = Py.upper s1 +:+ Py.upper s2.
Proof. apply chars_inj. by rewrite chars_app, !chars_upper, chars_app, fmap_app. Qed.

(** X6. When, besides, the intervals have [start <= end] and the service
    answers with as many bases as an interval has, the spliced sequence
    is as long as the intervals together, and every junction of
    [_junctions_from_blocks] lies strictly inside it, exactly between two
    blocks: the sequence up to [pos] is that of the blocks up to the
    junction, the sequence from [pos] on is that of the blocks after it. *)
Theorem junctions_split_spliced_sequence (tinfo : gmap string tval)
    (feature species : string) (chrom strand : string) (seq_of : interval -> string)
    (i : nat) (j : junction) :
  tinfo !! "chrom" = Some (VStr chrom) ->
  tinfo !! "strand" = Some (VStr strand) ->
  Forall (fun iv => (get_region_sequence region_seq chrom iv.1 iv.2 1 species).2
                    = Some (seq_of iv)) (get_intervals tinfo feature) ->
  Forall well_formed (get_intervals tinfo feature) ->
  Forall (fun iv => Py.str_len (seq_of iv) = block_len iv) (get_intervals tinfo feature) ->
  let blocks := _blocks_for_spliced_sequence tinfo feature in
  let oriented iv :=
    if bool_decide (strand = "-") then reverse_complement (seq_of iv) else seq_of iv in
  _junctions_from_blocks blocks !! i = Some j ->
  exists spliced,
    (build_spliced_sequence region_seq tinfo feature species).2 = inr (Some spliced)
    /\ Py.str_len spliced = spliced_len (get_intervals tinfo feature)
    /\ 0 < j_pos j < Py.str_len spliced
    /\ Py.str_slice spliced 0 (j_pos j)
       = Py.upper (String.concat "" (oriented <$> take (S i) blocks))
    /\ Py.str_slice spliced (j_pos j) (Py.str_len spliced)
       = Py.upper (String.concat "" (oriented <$> drop (S i) blocks)).
Proof.
  intros Hchrom Hstrand Hall Hwf Hlen blocks oriented Hj.
  rewrite Forall_forall in Hall. rewrite Forall_forall in Hlen.
  assert (blocks ≡ₚ get_intervals tinfo feature) as Hperm by apply blocks_Permutation.
  assert (get_intervals tinfo feature <> []) as Hne.
  { intros Hnil. unfold blocks, _blocks_for_spliced_sequence in Hj.
    by rewrite Hnil in Hj. }
  destruct (junctions_of_blocks blocks) as [Hcount Hpos].
  destruct (Hpos i j Hj) as [_ Hp].
  assert (S i < length blocks)%nat as Hi.
  { apply lookup_lt_Some in Hj. lia. }
  assert (Forall well_formed blocks) as Hwfb by (by rewrite Hperm).
  assert (forall l, l ⊆ blocks ->
            Py.str_len (Py.upper (String.concat "" (oriented <$> l))) = spliced_len l)
    as Hlens.
  { intros l Hl. rewrite str_len_upper, str_len_concat. unfold spliced_len.
    rewrite <- list_fmap_compose. f_equal. apply list_fmap_ext. intros k b Hb.
    apply list_elem_of_lookup_2, Hl in Hb. rewrite Hperm in Hb.
    cbn. unfold oriented.
    destruct (bool_decide _); rewrite ?str_len_reverse_complement; by apply Hlen. }
  set (before := Py.upper (String.concat "" (oriented <$> take (S i) blocks))).
  set (after := Py.upper (String.concat "" (oriented <$> drop (S i) blocks))).
  assert (Py.upper (String.concat "" (oriented <$> blocks)) = before +:+ after) as Hsplit.
  { unfold before, after.
    by rewrite <- upper_app, <- concat_app, <- fmap_app, take_drop. }
  assert (Py.str_len before = j_pos j) as Hbefore.
  { unfold before. rewrite Hlens, Hp; [done|apply subseteq_take]. }
  exists (before +:+ after). split; [|split; [|split; [|split]]].
  - rewrite <- Hsplit.
    rewrite (build_spliced_sequence_parts tinfo feature species chrom strand seq_of)
      by done.
    unfold blocks, _blocks_for_spliced_sequence, oriented.
    destruct (get_intervals tinfo feature) as [|iv0 ivs] eqn:Eiv; [done|].
    rewrite (strand_is_minus_lookup _ _ Hstrand).
    destruct (bool_decide (strand = "-")); [|done].
    by rewrite reverse_complement_concat, fmap_reverse, <- list_fmap_compose.
  - rewrite <- Hsplit, Hlens by done. by apply spliced_len_Permutation.
  - rewrite <- Hsplit, Hlens, Hp by done. split.
    + pose proof (spliced_len_take_lt blocks 0 (S i) Hwfb). 
      change (spliced_len (take 0 blocks)) with 0 in *. lia.
    + rewrite <- (firstn_all blocks) at 2. apply spliced_len_take_lt; [done|lia].
  - rewrite <- Hbefore. apply str_slice_app_l.
  - rewrite <- Hbefore. apply str_slice_app_r.
Qed.

Lemma get_intervals_on_strand (s1 s2 : string) (tinfo : gmap string tval)
    (feature : string) :
  get_intervals (on_strand s1 tinfo) feature = get_intervals (on_strand s2 tinfo) feature.
Proof.
  unfold get_intervals, on_strand. destruct (decide (feature = "strand")) as [->|Hne].
  - by rewrite !lookup_insert_eq.
  - by rewrite !lookup_insert_ne.
Qed.

Lemma tinfo_str_on_strand (s : string) (tinfo : gmap string tval) :
  tinfo_str (on_strand s tinfo) "strand" = inr s
  /\ tinfo_str (on_strand s tinfo) "chrom" = tinfo_str tinfo "chrom".
Proof.
  unfold tinfo_str, on_strand. by rewrite lookup_insert_eq, lookup_insert_ne.
Qed.

(** X7. Strand symmetry of the assembled sequences: for two transcript
    dictionaries that differ in their strand only, [build_spliced_sequence]
    and [build_genomic_sequence] send the same requests, and what they
    return on the minus strand is the reverse complement of what they
    return on the plus strand ([None] and a [KeyError] alike on both). *)
Theorem assembled_sequence_strand_symmetry (tinfo : gmap string tval)
    (feature species : string) :
  let spliced strand :=
    build_spliced_sequence region_seq (on_strand strand tinfo) feature species in
  let genomic strand :=
    build_genomic_sequence region_seq (on_strand strand tinfo) species in
  (spliced "-").1 = (spliced "+").1
  /\ (spliced "-").2 = sum_map id (fmap reverse_complement) (spliced "+").2
  /\ (genomic "-").1 = (genomic "+").1
  /\ (genomic "-").2 = sum_map id (fmap reverse_complement) (genomic "+").2.
Proof.
  cbv zeta. unfold build_spliced_sequence, build_genomic_sequence.
  rewrite (get_intervals_on_strand "-" "+" tinfo feature).
  rewrite (get_intervals_on_strand "-" "+" tinfo "exons").
  destruct (tinfo_str_on_strand "+" tinfo) as [-> ->].
  destruct (tinfo_str_on_strand "-" tinfo) as [-> ->].
  split; [|split; [|split]].
  - destruct (get_intervals _ feature); [done|]. destruct (tinfo_str tinfo "chrom"); [done|].
    by destruct (fetch_parts _ _ _ _ _ _).2.
  - destruct (get_intervals _ feature); [done|]. destruct (tinfo_str tinfo "chrom"); [done|].
    destruct (fetch_parts _ _ _ _ _ _).2; [|done].
    change (bool_decide ("-" = "-")) with true.
    change (bool_decide ("+" = "-")) with false.
    cbv [snd sum_map id fmap option_fmap option_map].
    by rewrite upper_reverse_complement.
  - destruct (get_intervals _ "exons"); [done|]. destruct (tinfo_str tinfo "chrom"); [done|].
    by destruct (get_region_sequence _ _ _ _ _ _).2.
  - destruct (get_intervals _ "exons"); [done|]. destruct (tinfo_str tinfo "chrom"); [done|].
    destruct (get_region_sequence _ _ _ _ _ _).2; [|done].
    change (bool_decide ("-" = "-")) with true.
    change (bool_decide ("+" = "-")) with false.
    cbv [snd sum_map id fmap option_fmap option_map].
    by rewrite upper_reverse_complement.
Qed.


(** X8. Strand symmetry of the flanks: on the minus strand
    [get_flanking_sequence] returns, as upstream and downstream flank, the
    reverse complements (in upper case) of the downstream and upstream
    flank it returns on the plus strand when the two lengths asked for
    are exchanged. *)
Theorem flanking_strand_symmetry (tinfo : gmap string tval)
    (upstream_bp downstream_bp : Z) (use_cds_anchor : bool) (species : string) :
  (get_flanking_sequence region_seq (on_strand "-" tinfo)
     upstream_bp downstream_bp use_cds_anchor species).2
  = sum_map id
      (fun flanks => (reverse_complement_upper flanks.2, reverse_complement_upper flanks.1))
      (get_flanking_sequence region_seq (on_strand "+" tinfo)
         downstream_bp upstream_bp use_cds_anchor species).2.
Proof.
  unfold get_flanking_sequence.
  rewrite (get_intervals_on_strand "-" "+" tinfo "exons").
  rewrite (get_intervals_on_strand "-" "+" tinfo "cds").
  destruct (tinfo_str_on_strand "+" tinfo) as [-> ->].
  destruct (tinfo_str_on_strand "-" tinfo) as [-> ->].
  destruct (tinfo_str tinfo "chrom"); [done|].
  destruct (get_intervals _ "exons"); [done|].
  change (bool_decide ("-" = "+")) with false.
  change (bool_decide ("+" = "+")) with true.
  cbv zeta. cbv [snd sum_map id fst].
  assert (reverse_complement_upper "" = "") as Hnil by reflexivity.
  destruct (upstream_bp >? 0), (downstream_bp >? 0); by rewrite ?Hnil.
Qed.

(** X9. The requests [build_spliced_sequence] sends: never one for an
    empty region; when it returns a sequence, every request was answered;
    when it returns [None], either the feature has no interval and no
    request was sent, or the last request sent is the one that was not
    answered, so nothing is asked for after a failure; a missing [chrom]
    or [strand] key raises before any request. *)
Theorem spliced_sequence_requests (tinfo : gmap string tval) (feature species : string) :
  let r := build_spliced_sequence region_seq tinfo feature species in
  Forall proper_request r.1
  /\ match r.2 with
     | inr (Some _) => Forall (answered region_seq) r.1
     | inr None =>
         (get_intervals tinfo feature = [] /\ r.1 = [])
         \/ exists log f, r.1 = log ++ [f] /\ Forall (answered region_seq) log
                          /\ ~ answered region_seq f
     | inl _ => r.1 = []
     end.
Proof.
  cbv zeta. unfold build_spliced_sequence.
  destruct (get_intervals tinfo feature) as [|iv ivs]; [split; [done|by left]|].
  destruct (tinfo_str tinfo "chrom") as [?|chrom]; [done|].
  destruct (tinfo_str tinfo "strand") as [?|strand]; [done|].
  destruct (fetch_parts_log chrom species (Py.sorted Py.lt_pair (iv :: ivs)) [] [])
    as [Hp Ha]; [done|done|].
  destruct (fetch_parts _ _ _ _ _ _).2; cbn [fst snd]; [done|]. split; [done|by right].
Qed.

Lemma or_empty_len (x : option string) (bound : Z) :
  0 <= bound -> (forall s, x = Some s -> Py.str_len s <= bound) ->
  Py.str_len (or_empty x) <= bound.
Proof. intros Hb H. destruct x as [s|]; [by apply H|done]. Qed.

Lemma str_len_reverse_complement_upper (s : string) :
  Py.str_len (reverse_complement_upper s) = Py.str_len s.
Proof.
  unfold reverse_complement_upper. by rewrite str_len_upper, str_len_reverse_complement.
Qed.

Lemma get_region_sequence_len (chrom species : string) (start end_ : Z) (seq : string) :
  full_length region_seq ->
  (get_region_sequence region_seq chrom start end_ 1 species).2 = Some seq ->
  Py.str_len seq = Z.max 0 (end_ - start + 1).
Proof.
  intros Hfull. unfold get_region_sequence.
  destruct (Z.ltb_spec end_ start); cbn [snd].
  - intros [= <-]. change (Py.str_len "") with 0. lia.
  - intros Hseq. apply Hfull in Hseq; lia.
Qed.

(** X10. When the service answers with as many bases as a region has,
    the flanks [get_flanking_sequence] returns are never longer than
    asked for: at most [upstream_bp] and [downstream_bp] bases (none for a
    length that is not positive), on either strand and with either
    anchor; and no request is for an empty region. *)
Theorem flanking_lengths (tinfo : gmap string tval) (upstream_bp downstream_bp : Z)
    (use_cds_anchor : bool) (species : string) (log : list fetch)
    (upstream_seq downstream_seq : string) :
  full_length region_seq ->
  get_flanking_sequence region_seq tinfo upstream_bp downstream_bp use_cds_anchor species
  = (log, inr (upstream_seq, downstream_seq)) ->
  Py.str_len upstream_seq <= Z.max 0 upstream_bp
  /\ Py.str_len downstream_seq <= Z.max 0 downstream_bp
  /\ Forall proper_request log.
Proof.
  intros Hfull. unfold get_flanking_sequence.
  destruct (tinfo_str tinfo "strand") as [?|strand]; [done|].
  destruct (tinfo_str tinfo "chrom") as [?|chrom]; [done|].
  destruct (get_intervals tinfo "exons") as [|first rest].
  { intros [= <- <- <-]. change (Py.str_len "") with 0. split; [lia|]. split; [lia|done]. }
  cbv zeta.
  set (anchor := match use_cds_anchor, get_intervals tinfo "cds" with
                 | true, c :: cs => (min_start c cs, max_end c cs)
                 | _, _ => (min_start first rest, max_end first rest)
                 end).
  assert (forall a b, Forall proper_request
            (get_region_sequence region_seq chrom a b 1 species).1) as Hreq.
  { intros a b. unfold get_region_sequence.
    destruct (Z.ltb_spec b a); repeat constructor. cbn. lia. }
  assert (forall a b bound, 0 <= bound -> b - a + 1 <= bound ->
            Py.str_len (or_empty (get_region_sequence region_seq chrom a b 1 species).2)
            <= bound) as Hlen.
  { intros a b bound H0 Hb. apply or_empty_len; [done|]. intros s Hs.
    apply get_region_sequence_len in Hs; [lia|done]. }
  destruct (bool_decide (strand = "+"));
    destruct (Z.gtb_spec upstream_bp 0), (Z.gtb_spec downstream_bp 0);
    intros [= <- <- <-]; cbn [fst snd];
    rewrite ?str_len_reverse_complement_upper;
    (split; [|split]);
    try (apply Forall_app; split); try done; try apply Hreq;
    try (apply Hlen; lia); change (Py.str_len "") with 0; lia.
Qed.

End SequenceProperties.

Lemma len_slice {A} (l : list A) (lo hi : Z) :
  0 <= lo <= hi -> hi <= Py.len l -> Py.len (Py.slice l lo hi) = hi - lo.
Proof.
  intros Hlo Hhi. unfold Py.slice, Py.slice_bound, Py.len in *.
  destruct (Z.ltb_spec lo 0); [lia|]. destruct (Z.ltb_spec hi 0); [lia|].
  rewrite length_take, length_drop. lia.
Qed.

Lemma str_len_slice (s : string) (lo hi : Z) :
  0 <= lo <= hi -> hi <= Py.str_len s -> Py.str_len (Py.str_slice s lo hi) = hi - lo.
Proof.
  intros Hlo Hhi. unfold Py.str_len, Py.str_slice in *. rewrite chars_str.
  by apply len_slice.
Qed.

Lemma test_region_seq_full_length : full_length test_region_seq.
Proof.
  intros species chrom s e strand seq Hse. unfold test_region_seq.
  destruct (Z.leb_spec 1 s); [|done]. destruct (Z.leb_spec e 60); [|done].
  intros [= <-]. rewrite str_len_slice; [lia|lia|].
  change (Py.str_len test_chromosome) with 60. lia.
Qed.

Lemma spliced_sequence_by_blocks_witness :
  (build_spliced_sequence test_region_seq (test_tinfo "ENST01") "exons" "homo_sapiens").2
  = inr (Some "GTAACCGGTTGTAACCGGTTGTAACCGGTT").
Proof.
  refine (eq_trans (spliced_sequence_by_blocks test_region_seq (test_tinfo "ENST01")
                      "exons" "homo_sapiens" "7" "-" test_seq_of _ _ _ _) _).
  - reflexivity.
  - reflexivity.
  - vm_compute. discriminate.
  - apply (bool_decide_unpack _). vm_compute. reflexivity.
  - vm_compute. reflexivity.
Defined.

Lemma junctions_split_spliced_sequence_witness :
  exists spliced,
    (build_spliced_sequence test_region_seq (test_tinfo "ENST01") "exons"
       "homo_sapiens").2 = inr (Some spliced)
    /\ Py.str_len spliced = 30
    /\ 0 < 10 < Py.str_len spliced.
Proof.
  destruct (junctions_split_spliced_sequence test_region_seq (test_tinfo "ENST01")
              "exons" "homo_sapiens" "7" "-" test_seq_of 0 (Junction 0 10 "Exon 1|2"))
    as (spliced & H1 & H2 & H3 & _).
  - reflexivity.
  - reflexivity.
  - apply (bool_decide_unpack _). vm_compute. reflexivity.
  - apply (bool_decide_unpack _). vm_compute. reflexivity.
  - apply (bool_decide_unpack _). vm_compute. reflexivity.
  - vm_compute. reflexivity.
  - exists spliced. split; [exact H1|]. split; [exact H2|exact H3].
Defined.

Lemma flanking_lengths_witness :
  Py.str_len "AAC" <= Z.max 0 3 /\ Py.str_len "GGTT" <= Z.max 0 10
  /\ Forall proper_request [FetchRegion "homo_sapiens" "7" 46 48 1;
                            FetchRegion "homo_sapiens" "7" 1 4 1].
Proof.
  apply (flanking_lengths test_region_seq (test_tinfo "ENST01") 3 10 true "homo_sapiens").
  - exact test_region_seq_full_length.
  - vm_compute. reflexivity.
Defined.

(** ** Pairs returned by a design run *)

Section ReturnedPairs.

Variable round1 : float -> float.
Variable calc_tm : string -> float.
Variable calc_hairpin calc_homodimer : string -> thermo_result.
Variable calc_heterodimer : string -> string -> thermo_result.

Variable local : string.
Variables win_start junction_pos product_min product_max : Z.

Local Abbreviation inner :=
  (right_loop round1 calc_tm calc_hairpin calc_homodimer calc_heterodimer
     local win_start junction_pos product_min product_max).
Local Abbreviation outer :=
  (left_loop round1 calc_tm calc_hairpin calc_homodimer calc_heterodimer
     local win_start junction_pos product_min product_max).
Local Abbreviation matcher :=
  (pair_matcher round1 calc_tm calc_hairpin calc_homodimer calc_heterodimer
     local win_start junction_pos product_min product_max).
Local Abbreviation from :=
  (pair_from round1 calc_tm calc_hairpin calc_homodimer calc_heterodimer
     local win_start junction_pos product_min product_max).

(** Every pair that comes out of the pairing loops was built for a ranked
    left candidate and a right candidate that passed the tests. *)
Lemma pair_matcher_provenance (scored : list scored_candidate)
    (rcs : list right_candidate) (log : list event) :
  Forall (fun p => exists sc rc, sc ∈ scored /\ rc ∈ rcs /\ from sc rc p)
    (pairs_out (matcher scored rcs log)).
Proof.
  apply (pair_matcher_invariant round1 calc_tm calc_hairpin calc_homodimer
           calc_heterodimer local win_start junction_pos product_min product_max
           (fun st => Forall (fun p => exists sc rc, sc ∈ scored /\ rc ∈ rcs /\ from sc rc p)
                        (pairs_out st))).
  - constructor.
  - intros sc rc st1 st2 Hsc Hrc Hst1 (Htm & Hprod & _ & ->).
    cbn [emit_pair pairs_out]. apply Forall_app. split; [done|].
    repeat constructor. exists sc, rc. split; [done|]. split; [done|].
    unfold pair_from. cbn. repeat split; done || lia.
Qed.

(** The pairs carry their position in the list, counted from 1. *)
Lemma pair_matcher_numbered (scored : list scored_candidate)
    (rcs : list right_candidate) (log : list event) :
  forall (i : nat) p, pairs_out (matcher scored rcs log) !! i = Some p ->
    pair_number p = Z.of_nat i + 1.
Proof.
  apply (pair_matcher_invariant round1 calc_tm calc_hairpin calc_homodimer
           calc_heterodimer local win_start junction_pos product_min product_max
           (fun st => forall (i : nat) p, pairs_out st !! i = Some p ->
              pair_number p = Z.of_nat i + 1)).
  - intros i p H. done.
  - intros sc rc st1 st2 _ _ Hst1 (_ & _ & _ & ->) i p.
    cbn [emit_pair pairs_out]. intros H.
    apply lookup_app_Some in H as [H|[Hi H]]; [by apply Hst1|].
    apply list_lookup_singleton_Some in H as [Hi' <-]. cbn. unfold Py.len. lia.
Qed.

(** The loops stop at [max_pairs]. *)
Lemma right_loop_cap (start end_ : Z) (left_a_pref : analysis)
    (rcs : list right_candidate) (st : pair_state) :
  Py.len (pairs_out st) < max_pairs ->
  Py.len (pairs_out (inner start end_ left_a_pref rcs st)) <= max_pairs.
Proof.
  revert st. induction rcs as [|rc rcs IH]; intros st Hst; cbn [right_loop]; [lia|].
  destruct (tm_incompatible _ _); [by apply IH|].
  destruct (_ || _); [by apply IH|].
  destruct (decide _); [by apply IH|].
  destruct (Z.geb_spec
              (Py.len (pairs_out (emit_pair round1 calc_tm calc_hairpin calc_homodimer
                                    calc_heterodimer local win_start junction_pos
                                    start end_ left_a_pref rc
                                    ((rc_interval_local rc).2 - start) st))) max_pairs)
    as [Hge|Hlt]; [|by apply IH].
  cbn [emit_pair pairs_out] in *. unfold Py.len in *. rewrite length_app in *. cbn in *. lia.
Qed.

Lemma left_loop_cap (rcs : list right_candidate) (scored : list scored_candidate)
    (st : pair_state) :
  Py.len (pairs_out st) < max_pairs ->
  Py.len (pairs_out (outer rcs scored st)) <= max_pairs.
Proof.
  revert st. induction scored as [|[[score [start end_]] a] scored IH]; intros st Hst;
    cbn [left_loop]; [lia|].
  pose proof (right_loop_cap start end_ a rcs st Hst) as Hin.
  destruct (Z.geb_spec (Py.len (pairs_out (inner start end_ a rcs st))) max_pairs);
    [done|by apply IH].
Qed.

Lemma pair_matcher_cap (scored : list scored_candidate)
    (rcs : list right_candidate) (log : list event) :
  Py.len (pairs_out (matcher scored rcs log)) <= max_pairs.
Proof. apply left_loop_cap. done. Qed.


(** One turn of the outer loop adds pairs for its own left span only. *)
Lemma right_loop_lefts (start end_ : Z) (left_a_pref : analysis)
    (rcs : list right_candidate) (st : pair_state) :
  exists k, left_intervals (pairs_out (inner start end_ left_a_pref rcs st))
            = left_intervals (pairs_out st)
              ++ replicate k (win_start + start, win_start + end_).
Proof.
  revert st. induction rcs as [|rc rcs IH]; intros st; cbn [right_loop].
  { exists 0%nat. by rewrite app_nil_r. }
  destruct (tm_incompatible _ _); [apply IH|].
  destruct (_ || _); [apply IH|].
  destruct (decide _); [apply IH|].
  set (st' := emit_pair _ _ _ _ _ _ _ _ _ _ _ _ _ st).
  assert (left_intervals (pairs_out st')
          = left_intervals (pairs_out st) ++ [(win_start + start, win_start + end_)])
    as Hst'.
  { unfold st', left_intervals. cbn [emit_pair pairs_out]. by rewrite fmap_app. }
  destruct (_ >=? _).
  - exists 1%nat. exact Hst'.
  - destruct (IH st') as [k Hk]. exists (S k).
    rewrite Hk, Hst', <- app_assoc. done.
Qed.

(** The pairs come grouped by left candidate, in the order of the list
    the outer loop goes through. *)
Lemma left_loop_lefts (rcs : list right_candidate) (scored : list scored_candidate)
    (st : pair_state) :
  exists lefts,
    grouped_by_rank win_start scored lefts
    /\ left_intervals (pairs_out (outer rcs scored st))
       = left_intervals (pairs_out st) ++ lefts.
Proof.
  revert st. induction scored as [|[[score [start end_]] a] scored IH]; intros st;
    cbn [left_loop].
  { exists []. split; [by exists []|by rewrite app_nil_r]. }
  destruct (right_loop_lefts start end_ a rcs st) as [k Hk].
  destruct (_ >=? _).
  - exists (replicate k (win_start + start, win_start + end_)). split; [|done].
    exists (k :: replicate (length scored) 0%nat). split.
    + cbn. by rewrite length_replicate.
    + cbn [zip_with mjoin list_join fst snd].
      replace (mjoin (zip_with _ scored (replicate (length scored) 0%nat)))
        with (@nil (Z * Z)); [by rewrite app_nil_r|].
      clear. induction scored as [|sc scored IH]; [done|]. exact IH.
  - destruct (IH (inner start end_ a rcs st)) as (lefts & (counts & Hlen & ->) & Hl).
    eexists. split; [|by rewrite Hl, Hk, <- app_assoc].
    exists (k :: counts). split; [cbn; by rewrite Hlen|done].
Qed.

End ReturnedPairs.

Lemma ranked_candidates_from (round1 : float -> float) (calc_tm : string -> float)
    (calc_hairpin calc_homodimer : string -> thermo_result)
    (local : string) (opt_tm : float) (candidates : list (Z * Z))
    (max_candidates : Z) (sc : scored_candidate) :
  sc ∈ rank_candidates
         (score_candidates round1 calc_tm calc_hairpin calc_homodimer
            local opt_tm candidates) max_candidates ->
  sc.1.2 ∈ candidates
  /\ sc.2 = analyze_primer round1 calc_tm calc_hairpin calc_homodimer
              (Py.str_slice local sc.1.2.1 sc.1.2.2).
Proof.
  intros Hsc. unfold rank_candidates in Hsc.
  apply elem_of_slice in Hsc. rewrite sorted_Permutation in Hsc.
  by apply list_elem_of_fmap in Hsc as (c & -> & Hc).
Qed.

Lemma elem_of_collect_right_candidates (out : p3_out) (num : Z) (rc : right_candidate) :
  rc ∈ collect_right_candidates out num ->
  exists right_end length,
    0 <= rc_idx rc < num
    /\ PRIMER_RIGHT_SEQUENCE out (rc_idx rc) = Some (rc_seq rc)
    /\ rc_seq rc <> ""
    /\ PRIMER_RIGHT out (rc_idx rc) = Some (right_end, length)
    /\ rc_interval_local rc = (right_end - length + 1, right_end + 1)
    /\ rc_tm rc = Py.float_or_zero (PRIMER_RIGHT_TM out (rc_idx rc)).
Proof.
  intros Hrc. apply list_elem_of_omap in Hrc as (i & Hi & Hrc).
  apply elem_of_range in Hi.
  destruct (PRIMER_RIGHT_SEQUENCE out i) as [rseq|] eqn:Eseq; [|done].
  case_bool_decide as Hne; [done|].
  unfold _parse_right_interval in Hrc.
  destruct (PRIMER_RIGHT out i) as [[right_end length]|] eqn:Epos; [|done].
  injection Hrc as <-. cbn. exists right_end, length. by rewrite Eseq, Epos.
Qed.

Lemma take_drop_take_drop {A} (l : list A) (a K s e : nat) :
  (s <= e <= K)%nat ->
  take (e - s) (drop s (take K (drop a l))) = take (e - s) (drop (a + s) l).
Proof.
  intros H. rewrite <- drop_drop.
  generalize (drop a l). intros l'.
  rewrite !take_drop_commute, take_take. do 2 f_equal. lia.
Qed.

(** A slice of a slice, in the coordinates of the whole. *)
Lemma slice_slice {A} (l : list A) (a b s e : Z) :
  0 <= a -> 0 <= s <= e -> e <= Py.len (Py.slice l a b) ->
  Py.slice (Py.slice l a b) s e = Py.slice l (a + s) (a + e).
Proof.
  intros Ha Hs. unfold Py.slice.
  set (K := Z.to_nat (Py.slice_bound (Py.len l) b - Py.slice_bound (Py.len l) a)).
  clearbody K. unfold Py.slice_bound, Py.len.
  destruct (Z.ltb_spec a 0); [lia|]. destruct (Z.ltb_spec s 0); [lia|].
  destruct (Z.ltb_spec e 0); [lia|]. destruct (Z.ltb_spec (a + s) 0); [lia|].
  destruct (Z.ltb_spec (a + e) 0); [lia|].
  rewrite length_take, length_drop. intros He.
  rewrite (Z.min_l s), (Z.min_l e) by lia.
  destruct (Z.le_gt_cases a (Z.of_nat (length l))) as [Hal|Hal].
  - rewrite !Z.min_l by lia. rewrite Z.min_l in He by lia.
    replace (Z.to_nat (a + e - (a + s))) with (Z.to_nat e - Z.to_nat s)%nat by lia.
    replace (Z.to_nat (e - s)) with (Z.to_nat e - Z.to_nat s)%nat by lia.
    replace (Z.to_nat (a + s)) with (Z.to_nat a + Z.to_nat s)%nat by lia.
    apply take_drop_take_drop. lia.
  - rewrite !Z.min_r by lia. rewrite Z.min_r in He by lia.
    replace (e - s) with 0 by lia.
    by replace (Z.of_nat (length l) - Z.of_nat (length l)) with 0 by lia.
Qed.

Lemma str_slice_slice (t : string) (a b s e : Z) :
  0 <= a -> 0 <= s <= e -> e <= Py.str_len (Py.str_slice t a b) ->
  Py.str_slice (Py.str_slice t a b) s e = Py.str_slice t (a + s) (a + e).
Proof.
  intros Ha Hs He. unfold Py.str_slice, Py.str_len in *. rewrite chars_str in *.
  f_equal. by apply slice_slice.
Qed.

Lemma len_slice_le {A} (l : list A) (a b : Z) :
  0 <= a <= Py.len l -> Py.len (Py.slice l a b) <= Py.len l - a.
Proof.
  intros Ha. unfold Py.slice, Py.slice_bound, Py.len in *.
  destruct (Z.ltb_spec a 0); [lia|]. rewrite length_take, length_drop. lia.
Qed.

Lemma str_len_slice_le (t : string) (a b : Z) :
  0 <= a <= Py.str_len t -> Py.str_len (Py.str_slice t a b) <= Py.str_len t - a.
Proof.
  intros Ha. unfold Py.str_len, Py.str_slice in *. rewrite chars_str.
  by apply len_slice_le.
Qed.

Section DesignRuns.

Variable round1 : float -> float.
Variable calc_tm : string -> float.
Variable calc_hairpin calc_homodimer : string -> thermo_result.
Variable calc_heterodimer : string -> string -> thermo_result.
Variable design_primers : seq_args -> gmap string p3val -> p3_out.

Variable template : string.
Variables junction_pos overlap_min overlap_max product_min product_max : Z.
Variable primer_params : option (gmap string p3val).
Variables left_pad right_pad max_candidates : Z.

Local Abbreviation run :=
  (design_junction_primer_pairs round1 calc_tm calc_hairpin calc_homodimer
     calc_heterodimer design_primers template junction_pos overlap_min overlap_max
     product_min product_max primer_params left_pad right_pad max_candidates).
Local Abbreviation n_full := (Py.str_len (clean_template template)).
Local Abbreviation win_start := (_clamp (junction_pos - left_pad) 0 n_full).
Local Abbreviation win_end := (_clamp (junction_pos + right_pad) 0 n_full).
Local Abbreviation local := (Py.str_slice (clean_template template) win_start win_end).
Local Abbreviation j_local := (junction_pos - win_start).
Local Abbreviation n := (Py.str_len local).
Local Abbreviation args := (junction_args primer_params product_min product_max).
Local Abbreviation diagnostic_call :=
  (CallDesignPrimers (SeqArgs "diagnostic_test" local None)
     (<["PRIMER_PICK_RIGHT_PRIMER" := PInt 1]>
        (<["PRIMER_PICK_LEFT_PRIMER" := PInt 1]> args))).
Local Abbreviation right_seq_args :=
  (SeqArgs ("right_search_" +:+ pretty junction_pos) local (Some (j_local, n - j_local))).
Local Abbreviation right_args :=
  (<["PRIMER_NUM_RETURN" := PInt 20]>
     (<["PRIMER_PICK_INTERNAL_OLIGO" := PInt 0]>
        (<["PRIMER_PICK_RIGHT_PRIMER" := PInt 1]>
           (<["PRIMER_PICK_LEFT_PRIMER" := PInt 0]> args)))).
Local Abbreviation right_out := (design_primers right_seq_args right_args).
Local Abbreviation num_right := (default 0 (PRIMER_RIGHT_NUM_RETURNED right_out)).
Local Abbreviation size_min := (py_int (default (PInt 18) (args !! "PRIMER_MIN_SIZE"))).
Local Abbreviation size_max := (py_int (default (PInt 25) (args !! "PRIMER_MAX_SIZE"))).
Local Abbreviation optimum := (py_float (default (PFloat 60.0) (args !! "PRIMER_OPT_TM"))).
Local Abbreviation paths :=
  (design_paths round1 calc_tm calc_hairpin calc_homodimer calc_heterodimer
     design_primers template junction_pos overlap_min overlap_max product_min
     product_max primer_params left_pad right_pad max_candidates).

(** Where a returned pair comes from: a candidate span of the window,
    analysed, and a right primer of the downstream search. *)
Lemma returned_pair_provenance (log : list event) (r : design_result) (p : primer_pair) :
  run = (log, Returned r) -> p ∈ pairs r ->
  exists primer_min primer_max sc rc,
    0 < junction_pos < n_full
    /\ size_min = inr primer_min /\ size_max = inr primer_max
    /\ sc.1.2 ∈ generate_candidates j_local n overlap_min overlap_max primer_min primer_max
    /\ sc.2 = analyze_primer round1 calc_tm calc_hairpin calc_homodimer
                (Py.str_slice local sc.1.2.1 sc.1.2.2)
    /\ rc ∈ collect_right_candidates right_out num_right
    /\ CallDesignPrimers right_seq_args right_args ∈ log
    /\ pair_from round1 calc_tm calc_hairpin calc_homodimer calc_heterodimer
         local win_start junction_pos product_min product_max sc rc p.
Proof.
  revert log r.
  apply (paths
           (fun x => forall log r, x = (log, Returned r) -> p ∈ pairs r ->
              exists primer_min primer_max sc rc,
                0 < junction_pos < n_full
                /\ size_min = inr primer_min /\ size_max = inr primer_max
                /\ sc.1.2 ∈ generate_candidates j_local n overlap_min overlap_max
                              primer_min primer_max
                /\ sc.2 = analyze_primer round1 calc_tm calc_hairpin calc_homodimer
                            (Py.str_slice local sc.1.2.1 sc.1.2.2)
                /\ rc ∈ collect_right_candidates right_out num_right
                /\ CallDesignPrimers right_seq_args right_args ∈ log
                /\ pair_from round1 calc_tm calc_hairpin calc_homodimer calc_heterodimer
                     local win_start junction_pos product_min product_max sc rc p)).
  - intros _ log r [= <- <-] Hp. by apply elem_of_nil in Hp.
  - intros _ _ log r [= <- <-] Hp. by apply elem_of_nil in Hp.
  - intros e _ _ log r [=].
  - intros primer_min primer_max Hjp Hmin Hmax candidates. split.
    { intros _ log r [= <- <-] Hp. by apply elem_of_nil in Hp. }
    intros _. split; [intros e _ log r [=]|].
    intros opt_tm _ log1 scored. split; [intros _ log r [=]|].
    intros _. split.
    { intros _ log r [= <- <-] Hp. by apply elem_of_nil in Hp. }
    intros _ log2. split.
    { intros _ log r [= <- <-] Hp. by apply elem_of_nil in Hp. }
    intros _ st log r [= <- <-] Hp. cbn [pairs] in Hp.
    pose proof (pair_matcher_provenance round1 calc_tm calc_hairpin calc_homodimer
                  calc_heterodimer local win_start junction_pos product_min product_max
                  scored (collect_right_candidates right_out num_right) log2) as Hprov.
    fold st in Hprov. rewrite Forall_forall in Hprov.
    destruct (Hprov p Hp) as (sc & rc & Hsc & Hrc & Hfrom).
    apply ranked_candidates_from in Hsc as [Hcand Han].
    exists primer_min, primer_max, sc, rc.
    split; [done|]. split; [done|]. split; [done|]. split; [done|]. split; [done|].
    split; [done|]. split; [|done].
    destruct (pair_matcher_calls round1 calc_tm calc_hairpin calc_homodimer
                calc_heterodimer local win_start junction_pos product_min product_max
                scored (collect_right_candidates right_out num_right) log2)
      as (extra & Hcalls & _).
    fold st in Hcalls. rewrite Hcalls. apply elem_of_app. left.
    apply elem_of_app. right. by apply list_elem_of_singleton.
Qed.

Lemma clamp_bounds (v hi : Z) : 0 <= hi -> 0 <= _clamp v 0 hi <= hi.
Proof. unfold _clamp. lia. Qed.

Lemma local_clean : Forall clean_char (Py.chars local).
Proof. apply str_slice_chars, clean_template_chars. Qed.

(** X11. Every left primer [design_junction_primer_pairs] returns lies
    across the junction in the coordinates of the cleaned template: with
    [overlap_min >= 0], its interval [(start, end)] has
    [start = junction_pos - left_ov] and [end = junction_pos + right_ov]
    for overlaps within [[overlap_min, overlap_max]], lies inside the
    template, and has a length within the primer size bounds in force;
    its sequence is the template read at that interval, its [length] is
    [end - start] and its [position] is [(start, end - start)]; and the
    pair repeats the junction position with [junction_spanning = "left"]. *)
Theorem returned_left_primers_span_junction (log : list event) (r : design_result)
    (p : primer_pair) :
  0 <= overlap_min ->
  design_junction_primer_pairs round1 calc_tm calc_hairpin calc_homodimer
    calc_heterodimer design_primers template junction_pos overlap_min overlap_max
    product_min product_max primer_params left_pad right_pad max_candidates
  = (log, Returned r) ->
  p ∈ pairs r ->
  let left := pp_left p in
  let iv := p_interval left in
  (exists primer_min primer_max,
     py_int (default (PInt 18)
               (junction_args primer_params product_min product_max !! "PRIMER_MIN_SIZE"))
     = inr primer_min
     /\ py_int (default (PInt 25)
                  (junction_args primer_params product_min product_max !! "PRIMER_MAX_SIZE"))
        = inr primer_max
     /\ primer_min <= iv.2 - iv.1 <= primer_max)
  /\ overlap_min <= junction_pos - iv.1 <= overlap_max
  /\ overlap_min <= iv.2 - junction_pos <= overlap_max
  /\ 0 <= iv.1 /\ iv.2 <= Py.str_len (clean_template template)
  /\ a_sequence (p_analysis left) = Py.str_slice (clean_template template) iv.1 iv.2
  /\ a_length (p_analysis left) = iv.2 - iv.1
  /\ p_position left = (iv.1, iv.2 - iv.1)
  /\ pp_junction_pos p = junction_pos
  /\ junction_spanning p = "left".
Proof.
  intros Hov Hrun Hp left iv.
  destruct (returned_pair_provenance log r p Hrun Hp)
    as (primer_min & primer_max & sc & rc & Hjp & Hmin & Hmax & Hcand & Han & _ & _ & Hfrom).
  destruct Hfrom as (_ & _ & Hj & Hspan & Hleft & Hiv & _ & _ & Hpos & _).
  apply elem_of_generate_candidates in Hcand
    as (left_ov & right_ov & Hl & Hr & Hsum & Hc & Hs & He).
  fold left in Hleft, Hiv, Hpos. fold iv in Hpos.
  assert (iv = (win_start + sc.1.2.1, win_start + sc.1.2.2)) as Hiv' by done.
  rewrite Hc in Hs, He, Hiv'. cbn [fst snd] in Hs, He, Hiv'.
  pose proof (clamp_bounds (junction_pos - left_pad) n_full ltac:(lia)) as Hws.
  assert (n <= n_full - win_start) as Hn by (by apply str_len_slice_le).
  assert (Py.str_slice local sc.1.2.1 sc.1.2.2
          = Py.str_slice (clean_template template) iv.1 iv.2) as Hslice.
  { rewrite Hiv', Hc. cbn [fst snd]. apply str_slice_slice; lia. }
  assert (clean_template (Py.str_slice local sc.1.2.1 sc.1.2.2)
          = Py.str_slice local sc.1.2.1 sc.1.2.2) as Hclean.
  { apply clean_template_fixed, str_slice_chars, local_clean. }
  rewrite Hiv'. cbn [fst snd].
  split; [exists primer_min, primer_max; repeat split; lia || done|].
  split; [lia|]. split; [lia|]. split; [lia|]. split; [lia|].
  rewrite Hleft, Han. cbn [a_sequence a_length analyze_primer]. rewrite Hclean.
  split; [by rewrite Hslice, Hiv'|]. split.
  - rewrite Hc. cbn [fst snd]. rewrite str_len_slice; lia.
  - split; [by rewrite Hpos, Hiv'|done].
Qed.


(** X12. [design_junction_primer_pairs] returns at most [max_pairs = 10]
    pairs, [num_pairs] is their number, and the pairs are numbered
    1, 2, ... in the order of the list. *)
Theorem returned_pairs_numbered_and_capped (log : list event) (r : design_result) :
  design_junction_primer_pairs round1 calc_tm calc_hairpin calc_homodimer
    calc_heterodimer design_primers template junction_pos overlap_min overlap_max
    product_min product_max primer_params left_pad right_pad max_candidates
  = (log, Returned r) ->
  num_pairs r = Py.len (pairs r)
  /\ num_pairs r <= max_pairs
  /\ forall (i : nat) p, pairs r !! i = Some p -> pair_number p = Z.of_nat i + 1.
Proof.
  revert log r.
  apply (paths
           (fun x => forall log r, x = (log, Returned r) ->
              num_pairs r = Py.len (pairs r)
              /\ num_pairs r <= max_pairs
              /\ forall (i : nat) p, pairs r !! i = Some p ->
                   pair_number p = Z.of_nat i + 1)).
  - by intros _ log r [= <- <-].
  - by intros _ _ log r [= <- <-].
  - intros e _ _ log r [=].
  - intros primer_min primer_max _ _ _ candidates. split; [by intros _ log r [= <- <-]|].
    intros _. split; [intros e _ log r [=]|].
    intros opt_tm _ log1 scored. split; [intros _ log r [=]|].
    intros _. split; [by intros _ log r [= <- <-]|].
    intros _ log2. split; [by intros _ log r [= <- <-]|].
    intros _ st log r [= <- <-]. cbn [num_pairs pairs]. split; [done|]. split.
    + apply pair_matcher_cap.
    + apply pair_matcher_numbered.
Qed.

(** X13. Every right primer [design_junction_primer_pairs] returns is
    one primer3 found in the downstream search of the run: for some index
    [i] of that search's result, the pair holds the analysis of
    [PRIMER_RIGHT_i_SEQUENCE], its interval is primer3's
    [(right_end, length)] turned into [(right_end - length + 1,
    right_end + 1)] and moved by the start of the window, its [position]
    holds that start and primer3's [length], the heterodimer metrics are
    those of the left primer's sequence with it, and the Tm that primer3
    reported for it is within [max_tm_diff] of the left primer's. *)
Theorem returned_right_primers_from_search (log : list event) (r : design_result)
    (p : primer_pair) :
  design_junction_primer_pairs round1 calc_tm calc_hairpin calc_homodimer
    calc_heterodimer design_primers template junction_pos overlap_min overlap_max
    product_min product_max primer_params left_pad right_pad max_candidates
  = (log, Returned r) ->
  p ∈ pairs r ->
  let shift := _clamp (junction_pos - left_pad) 0 (Py.str_len (clean_template template)) in
  exists sa search_args region i right_end length rseq,
    CallDesignPrimers sa search_args ∈ log
    /\ SEQUENCE_INCLUDED_REGION sa = Some region
    /\ PRIMER_RIGHT (design_primers sa search_args) i = Some (right_end, length)
    /\ PRIMER_RIGHT_SEQUENCE (design_primers sa search_args) i = Some rseq
    /\ rseq <> ""
    /\ p_analysis (pp_right p)
       = analyze_primer round1 calc_tm calc_hairpin calc_homodimer rseq
    /\ p_interval (pp_right p)
       = (shift + (right_end - length + 1), shift + (right_end + 1))
    /\ p_position (pp_right p) = (shift + (right_end - length + 1), length)
    /\ pp_pair_metrics p
       = analyze_pair round1 calc_heterodimer
           (a_sequence (p_analysis (pp_left p))) rseq
    /\ tm_incompatible (Py.float_or_zero (a_tm (p_analysis (pp_left p))))
         (Py.float_or_zero (PRIMER_RIGHT_TM (design_primers sa search_args) i))
       = false.
Proof.
  intros Hrun Hp shift.
  destruct (returned_pair_provenance log r p Hrun Hp)
    as (primer_min & primer_max & sc & rc & _ & _ & _ & _ & Han & Hrc & Hlog & Hfrom).
  destruct Hfrom as (Htm & _ & _ & _ & Hleft & _ & Hright & Hiv & _ & Hpos & _ & Hmet).
  apply elem_of_collect_right_candidates in Hrc
    as (right_end & length & _ & Hseq & Hne & Hp3 & Hloc & Hrtm).
  exists right_seq_args, right_args, (j_local, n - j_local), (rc_idx rc),
    right_end, length, (rc_seq rc).
  split; [done|]. split; [done|]. split; [done|]. split; [done|]. split; [done|].
  split; [done|]. rewrite Hloc in Hiv. cbn [fst snd] in Hiv.
  split; [done|]. split; [|split].
  - rewrite Hpos, Hiv. cbn [fst snd]. f_equal. lia.
  - rewrite Hmet, Hleft, Han. cbn [a_sequence analyze_primer].
    unfold analyze_pair. rewrite (clean_template_fixed (clean_template _)); [done|].
    apply clean_template_chars.
  - by rewrite Hleft, <- Hrtm.
Qed.

Lemma junction_args_fixed :
  relaxed_search args
  /\ args !! "PRIMER_PICK_LEFT_PRIMER" = Some (PInt 0)
  /\ args !! "PRIMER_NUM_RETURN" = Some (PInt 5).
Proof.
  unfold relaxed_search, junction_args.
  repeat split; rewrite ?lookup_insert_ne by done; by rewrite lookup_insert_eq.
Qed.

(** X14. Whatever the caller's [primer_params] say, every search primer3
    is asked for in a run has the Tm bounds 55 and 68, the GC bounds 35
    and 65, a right primer picked and no internal oligo, and works on the
    window cut around the junction; there are at most two searches; and a
    search with an included region is the search for right primers: the
    region starts at the junction and runs to the end of the window, the
    left primer is not picked, and 20 primers are asked for. *)
Theorem searches_are_relaxed (log : list event) (o : outcome) :
  design_junction_primer_pairs round1 calc_tm calc_hairpin calc_homodimer
    calc_heterodimer design_primers template junction_pos overlap_min overlap_max
    product_min product_max primer_params left_pad right_pad max_candidates
  = (log, o) ->
  let shift := _clamp (junction_pos - left_pad) 0 (Py.str_len (clean_template template)) in
  let window :=
    Py.str_slice (clean_template template) shift
      (_clamp (junction_pos + right_pad) 0 (Py.str_len (clean_template template))) in
  (length (search_calls log) <= 2)%nat
  /\ forall sa search_args, (sa, search_args) ∈ search_calls log ->
       relaxed_search search_args
       /\ SEQUENCE_TEMPLATE sa = window
       /\ forall start len, SEQUENCE_INCLUDED_REGION sa = Some (start, len) ->
            shift + start = junction_pos
            /\ start + len = Py.str_len window
            /\ search_args !! "PRIMER_PICK_LEFT_PRIMER" = Some (PInt 0)
            /\ search_args !! "PRIMER_NUM_RETURN" = Some (PInt 20).
Proof.
  intros Hrun shift window.
  destruct junction_args_fixed as (Hrelaxed & Hleft & Hnum).
  set (good := fun c : seq_args * gmap string p3val =>
         relaxed_search c.2 /\ SEQUENCE_TEMPLATE c.1 = window
         /\ forall start len, SEQUENCE_INCLUDED_REGION c.1 = Some (start, len) ->
              shift + start = junction_pos
              /\ start + len = Py.str_len window
              /\ c.2 !! "PRIMER_PICK_LEFT_PRIMER" = Some (PInt 0)
              /\ c.2 !! "PRIMER_NUM_RETURN" = Some (PInt 20)).
  cut ((length (search_calls log) <= 2)%nat /\ Forall good (search_calls log)).
  { intros [Hlen Hall]. split; [done|]. intros sa a Hin.
    rewrite Forall_forall in Hall. exact (Hall (sa, a) Hin). }
  assert (forall extra, Forall thermo_call extra -> search_calls extra = []) as Hthermo.
  { intros extra Hx. induction Hx as [|ev extra Hev _ IH]; [done|].
    unfold search_calls in *. cbn [omap list_omap]. rewrite IH. by destruct ev. }
  assert (forall l1 l2, search_calls (l1 ++ l2) = search_calls l1 ++ search_calls l2)
    as Happ by (intros; apply omap_app).
  assert (forall candidates,
            search_calls
              (c ← candidates; analyze_primer_calls (Py.str_slice local c.1 c.2)) = [])
    as Hana.
  { intros candidates. apply Hthermo, Forall_forall. intros ev Hev.
    apply list_elem_of_bind in Hev as (c & Hev & _). unfold analyze_primer_calls in Hev.
    repeat (apply elem_of_cons in Hev as [->|Hev]; [done|]).
    by apply elem_of_nil in Hev. }
  assert (good (SeqArgs "diagnostic_test" local None,
                <["PRIMER_PICK_RIGHT_PRIMER" := PInt 1]>
                  (<["PRIMER_PICK_LEFT_PRIMER" := PInt 1]> args))) as Hdiag.
  { split; [|split; [done|by intros start len [=]]].
    unfold relaxed_search in *. cbn [snd].
    destruct Hrelaxed as (? & ? & ? & ? & ? & ? & ?).
    repeat split; rewrite ?lookup_insert_ne by done; done || by rewrite lookup_insert_eq. }
  assert (good (right_seq_args, right_args)) as Hright.
  { split; [|split; [done|]].
    - unfold relaxed_search in *. cbn [snd].
      destruct Hrelaxed as (? & ? & ? & ? & ? & ? & ?).
      repeat split; rewrite ?lookup_insert_ne by done; done || by rewrite lookup_insert_eq.
    - cbn [fst snd SEQUENCE_INCLUDED_REGION]. intros start len [= <- <-].
      split; [unfold shift; lia|]. split; [unfold window, shift; lia|].
      split; [|by rewrite lookup_insert_eq].
      rewrite !lookup_insert_ne by done. by rewrite lookup_insert_eq. }
  revert log o Hrun.
  apply (paths
           (fun x => forall log o, x = (log, o) ->
              (length (search_calls log) <= 2)%nat /\ Forall good (search_calls log))).
  - intros _ log o [= <- <-]. split; [cbn; lia|constructor].
  - intros _ _ log o [= <- <-]. split; [cbn; lia|constructor].
  - intros e _ _ log o [= <- <-]. split; [cbn; lia|constructor].
  - intros primer_min primer_max _ _ _ candidates. split.
    { intros _ log o [= <- <-]. split; [cbn; lia|constructor]. }
    intros _. split.
    { intros e _ log o [= <- <-]. cbn. split; [lia|]. constructor; [exact Hdiag|constructor]. }
    intros opt_tm _ log1 scored.
    assert (search_calls log1
            = [(SeqArgs "diagnostic_test" local None,
                <["PRIMER_PICK_RIGHT_PRIMER" := PInt 1]>
                  (<["PRIMER_PICK_LEFT_PRIMER" := PInt 1]> args))]) as Hlog1.
    { unfold log1. by rewrite Happ, Hana. }
    split.
    { intros _ log o [= <- <-]. rewrite Hlog1. cbn. split; [lia|].
      constructor; [exact Hdiag|constructor]. }
    intros _. split.
    { intros _ log o [= <- <-]. rewrite Hlog1. cbn. split; [lia|].
      constructor; [exact Hdiag|constructor]. }
    intros _ log2.
    assert (search_calls log2
            = [(SeqArgs "diagnostic_test" local None,
                <["PRIMER_PICK_RIGHT_PRIMER" := PInt 1]>
                  (<["PRIMER_PICK_LEFT_PRIMER" := PInt 1]> args));
               (right_seq_args, right_args)]) as Hlog2.
    { unfold log2. by rewrite Happ, Hlog1. }
    split.
    { intros _ log o [= <- <-]. rewrite Hlog2. cbn. split; [lia|].
      constructor; [exact Hdiag|]. constructor; [exact Hright|constructor]. }
    intros _ st log o [= <- <-].
    destruct (pair_matcher_calls round1 calc_tm calc_hairpin calc_homodimer
                calc_heterodimer local win_start junction_pos product_min product_max
                scored (collect_right_candidates right_out num_right) log2)
      as (extra & Hcalls & Hextra).
    fold st in Hcalls. rewrite Hcalls, Happ, Hlog2, (Hthermo extra Hextra).
    cbn. split; [lia|].
    constructor; [exact Hdiag|]. constructor; [exact Hright|constructor].
Qed.

Lemma slice_nonempty {A} (l : list A) (m : Z) : l <> [] -> 1 <= m -> Py.slice l 0 m <> [].
Proof.
  intros Hl Hm. rewrite slice_from_start by lia.
  destruct l as [|x l]; [done|]. destruct (Z.to_nat m) as [|k] eqn:Ek; [lia|done].
Qed.

(** An exception of its own leaves [design_junction_primer_pairs] only
    from the conversion of a size or of the optimum Tm, or from the ranked
    list when [max_candidates] leaves it empty. *)
Lemma design_raises_only (e : pyexn) :
  run.2 = Raised e ->
  size_min = inl e \/ size_max = inl e \/ optimum = inl e
  \/ (e = IndexError /\ max_candidates < 1).
Proof.
  apply (paths (fun x => x.2 = Raised e ->
                  size_min = inl e \/ size_max = inl e \/ optimum = inl e
                  \/ (e = IndexError /\ max_candidates < 1))).
  - intros _ [=].
  - intros _ _ [=].
  - intros e' _ [He|[_ He]] [= <-]; auto.
  - intros primer_min primer_max _ _ _ candidates. split; [intros _ [=]|].
    intros Hcand. split; [intros e' He [= <-]; auto|].
    intros opt_tm _ log1 scored. split.
    { intros Hscored [= <-]. do 3 right. split; [done|].
      destruct (Z.lt_ge_cases max_candidates 1) as [?|Hmax]; [done|].
      exfalso. revert Hscored. unfold scored, rank_candidates.
      apply slice_nonempty; [|lia]. intros Hnil.
      apply (f_equal length) in Hnil.
      rewrite length_sorted in Hnil. unfold score_candidates in Hnil.
      rewrite length_fmap in Hnil. by destruct candidates. }
    intros _. split; [intros _ [=]|]. intros _ log2.
    split; [intros _ [=]|intros _ st [=]].
Qed.

(** What every result has: [num_pairs] counts the pairs, of which there
    are at most [max_pairs], and a result with an error has none. *)
Lemma design_result_shape (log : list event) (r : design_result) :
  run = (log, Returned r) ->
  num_pairs r = Py.len (pairs r) /\ num_pairs r <= max_pairs
  /\ (error r = None \/ num_pairs r = 0).
Proof.
  assert (forall msg,
            num_pairs (error_result msg) = Py.len (pairs (error_result msg))
            /\ num_pairs (error_result msg) <= max_pairs
            /\ (error (error_result msg) = None \/ num_pairs (error_result msg) = 0))
    as Herr.
  { intros msg. cbn. split; [done|]. split; [unfold max_pairs; lia|by right]. }
  revert log r.
  apply (paths
           (fun x => forall log r, x = (log, Returned r) ->
              num_pairs r = Py.len (pairs r) /\ num_pairs r <= max_pairs
              /\ (error r = None \/ num_pairs r = 0))).
  - intros _ log r [= <- <-]. apply Herr.
  - intros _ _ log r [= <- <-]. apply Herr.
  - intros e _ _ log r [=].
  - intros primer_min primer_max _ _ _ candidates. split.
    { intros _ log r [= <- <-]. apply Herr. }
    intros _. split; [intros e _ log r [=]|].
    intros opt_tm _ log1 scored. split; [intros _ log r [=]|].
    intros _. split; [intros _ log r [= <- <-]; apply Herr|].
    intros _ log2. split; [intros _ log r [= <- <-]; apply Herr|].
    intros _ st log r [= <- <-]. cbn [num_pairs pairs error].
    split; [done|]. split; [apply pair_matcher_cap|by left].
Qed.

Lemma default_arguments_convert :
  primer_params = None ->
  size_min = inr 18 /\ size_max = inr 25 /\ optimum = inr 62.0%float.
Proof.
  intros ->. unfold junction_args.
  repeat split; rewrite !lookup_insert_ne by done; reflexivity.
Qed.


(** X16. The pairs [design_junction_primer_pairs] returns follow the
    ranking of the left candidates. When the scores of the candidate spans
    of the window are numbers and some pair is returned, the left
    intervals of the pairs are those of the first [max_candidates]
    candidates of the stable ascending sort of the scored list, in that
    order, each repeated for as many pairs as it is part of: first the
    pairs of the best-ranked left candidate that found a partner, then
    those of the next one, and so on. *)
Theorem returned_pairs_follow_ranking (log : list event) (r : design_result) :
  design_junction_primer_pairs round1 calc_tm calc_hairpin calc_homodimer
    calc_heterodimer design_primers template junction_pos overlap_min overlap_max
    product_min product_max primer_params left_pad right_pad max_candidates
  = (log, Returned r) ->
  pairs r <> [] ->
  let shift := _clamp (junction_pos - left_pad) 0 (Py.str_len (clean_template template)) in
  let window :=
    Py.str_slice (clean_template template) shift
      (_clamp (junction_pos + right_pad) 0 (Py.str_len (clean_template template))) in
  exists primer_min primer_max opt_tm,
    py_int (default (PInt 18)
              (junction_args primer_params product_min product_max !! "PRIMER_MIN_SIZE"))
    = inr primer_min
    /\ py_int (default (PInt 25)
                 (junction_args primer_params product_min product_max !! "PRIMER_MAX_SIZE"))
       = inr primer_max
    /\ py_float (default (PFloat 60.0)
                   (junction_args primer_params product_min product_max !! "PRIMER_OPT_TM"))
       = inr opt_tm
    /\ let scored :=
         score_candidates round1 calc_tm calc_hairpin calc_homodimer window opt_tm
           (generate_candidates (junction_pos - shift) (Py.str_len window)
              overlap_min overlap_max primer_min primer_max) in
       Forall (fun x => is_number x.1.1) scored ->
       exists sorted,
         stably_sorted scored sorted
         /\ grouped_by_rank shift (Py.slice sorted 0 max_candidates)
              (left_intervals (pairs r)).
Proof.
  intros Hrun Hne shift window. revert log r Hrun Hne.
  apply (paths
           (fun x => forall log r, x = (log, Returned r) -> pairs r <> [] ->
              exists primer_min primer_max opt_tm,
                size_min = inr primer_min /\ size_max = inr primer_max
                /\ optimum = inr opt_tm
                /\ let scored :=
                     score_candidates round1 calc_tm calc_hairpin calc_homodimer
                       window opt_tm
                       (generate_candidates (junction_pos - shift) (Py.str_len window)
                          overlap_min overlap_max primer_min primer_max) in
                   Forall (fun x => is_number x.1.1) scored ->
                   exists sorted,
                     stably_sorted scored sorted
                     /\ grouped_by_rank shift (Py.slice sorted 0 max_candidates)
                          (left_intervals (pairs r)))).
  - by intros _ log r [= <- <-].
  - by intros _ _ log r [= <- <-].
  - intros e _ _ log r [=].
  - intros primer_min primer_max _ Hmin Hmax candidates. split; [by intros _ log r [= <- <-]|].
    intros _. split; [intros e _ log r [=]|].
    intros opt_tm Hopt log1 scored. split; [intros _ log r [=]|].
    intros _. split; [by intros _ log r [= <- <-]|].
    intros _ log2. split; [by intros _ log r [= <- <-]|].
    intros _ st log r [= <- <-] _. cbn [pairs].
    exists primer_min, primer_max, opt_tm.
    split; [done|]. split; [done|]. split; [done|].
    intros Hnum. eexists. split; [by apply sorted_stably_sorted|].
    destruct (left_loop_lefts round1 calc_tm calc_hairpin calc_homodimer
                calc_heterodimer local win_start junction_pos product_min product_max
                (collect_right_candidates right_out num_right) scored
                (PairState [] ∅ log2)) as (lefts & Hgrouped & Hlefts).
    unfold st, pair_matcher. rewrite Hlefts. exact Hgrouped.
Qed.

End DesignRuns.

Lemma returned_left_primers_span_junction_witness :
  exists p, pairs (returned test_run.2) !! 0%nat = Some p
    /\ 6 <= 40 - (p_interval (pp_left p)).1 <= 12
    /\ 6 <= (p_interval (pp_left p)).2 - 40 <= 12.
Proof.
  destruct (pairs (returned test_run.2)) as [|p ps] eqn:Hpairs;
    [vm_compute in Hpairs; discriminate Hpairs|].
  exists p. split; [reflexivity|].
  destruct (returned_left_primers_span_junction test_round1 test_calc_tm
              test_calc_thermo test_calc_thermo test_calc_heterodimer
              test_design_primers test_template 40 6 12 80 220 None 250 400 25
              test_run.1 (returned test_run.2) p) as (_ & Hl & Hr & _).
  - lia.
  - exact test_run_returns.
  - rewrite Hpairs. apply list_elem_of_here.
  - split; [exact Hl|exact Hr].
Defined.

Lemma returned_pairs_numbered_and_capped_witness :
  num_pairs (returned test_run.2) = 10 /\ num_pairs (returned test_run.2) <= max_pairs.
Proof.
  split; [vm_compute; reflexivity|].
  exact (proj1 (proj2 (returned_pairs_numbered_and_capped test_round1 test_calc_tm
                         test_calc_thermo test_calc_thermo test_calc_heterodimer
                         test_design_primers test_template 40 6 12 80 220 None
                         250 400 25 test_run.1 (returned test_run.2)
                         test_run_returns))).
Defined.

Lemma returned_right_primers_from_search_witness :
  exists p, pairs (returned test_run.2) !! 0%nat = Some p
    /\ exists i right_end length,
         PRIMER_RIGHT test_right_out i = Some (right_end, length)
         /\ p_position (pp_right p) = (0 + (right_end - length + 1), length).
Proof.
  destruct (pairs (returned test_run.2)) as [|p ps] eqn:Hpairs;
    [vm_compute in Hpairs; discriminate Hpairs|].
  exists p. split; [reflexivity|].
  assert (p ∈ pairs (returned test_run.2)) as Hp
    by (rewrite Hpairs; apply list_elem_of_here).
  destruct (returned_right_primers_from_search test_round1 test_calc_tm
              test_calc_thermo test_calc_thermo test_calc_heterodimer
              test_design_primers test_template 40 6 12 80 220 None 250 400 25
              test_run.1 (returned test_run.2) p test_run_returns Hp)
    as (sa & a & region & i & right_end & length & rseq
        & _ & _ & Hp3 & _ & _ & _ & _ & Hpos & _).
  exists i, right_end, length. split; [exact Hp3|exact Hpos].
Defined.

Lemma searches_are_relaxed_witness :
  (length (search_calls test_run.1) <= 2)%nat.
Proof.
  exact (proj1 (searches_are_relaxed test_round1 test_calc_tm test_calc_thermo
                  test_calc_thermo test_calc_heterodimer test_design_primers
                  test_template 40 6 12 80 220 None 250 400 25
                  test_run.1 (Returned (returned test_run.2)) test_run_returns)).
Defined.


Lemma returned_pairs_follow_ranking_witness :
  exists sorted,
    stably_sorted
      (score_candidates test_round1 test_calc_tm test_calc_thermo test_calc_thermo
         test_template 62.0%float (generate_candidates 40 240 6 12 18 25)) sorted
    /\ grouped_by_rank 0 (Py.slice sorted 0 25)
         (left_intervals (pairs (returned test_run.2))).
Proof.
  destruct (returned_pairs_follow_ranking test_round1 test_calc_tm
              test_calc_thermo test_calc_thermo test_calc_heterodimer
              test_design_primers test_template 40 6 12 80 220 None 250 400 25
              test_run.1 (returned test_run.2))
    as (primer_min & primer_max & opt_tm & Hmin & Hmax & Hopt & Hgrouped).
  - exact test_run_returns.
  - vm_compute. discriminate.
  - vm_compute in Hmin, Hmax, Hopt.
    injection Hmin as <-. injection Hmax as <-. injection Hopt as <-.
    apply Hgrouped. apply (bool_decide_unpack _). vm_compute. reflexivity.
Defined.

(** ** The junction route *)

#[local] Instance base_letter_dec (c : ascii) : Decision (base_letter c).
Proof. unfold base_letter. apply _. Defined.

Lemma base_letter_clean (c : ascii) : base_letter c -> clean_char c.
Proof.
  unfold base_letter. change (Py.chars "ACGTN") with ["A"; "C"; "G"; "T"; "N"]%char.
  intros H. repeat (apply elem_of_cons in H as [->|H]; [by vm_compute|]).
  by apply elem_of_nil in H.
Qed.

Lemma space_not_base (c : ascii) : is_space c = true -> ~ base_letter (Py.upper_char c).
Proof.
  destruct c as [b0 b1 b2 b3 b4 b5 b6 b7].
  destruct b0, b1, b2, b3, b4, b5, b6, b7; vm_compute; try discriminate;
    intros _ H; apply (bool_decide_pack _) in H; vm_compute in H; done.
Qed.

Lemma filter_lstrip (l : list ascii) :
  filter base_letter (Py.upper_char <$> lstrip l)
  = filter base_letter (Py.upper_char <$> l).
Proof.
  induction l as [|c l IH]; [done|]. cbn [lstrip].
  destruct (is_space c) eqn:Ec; [|done].
  rewrite IH, fmap_cons, filter_cons.
  destruct (decide (base_letter (Py.upper_char c))) as [Hb|Hb]; [|done].
  by apply space_not_base in Hb.
Qed.

(** The template of the route is made of the bases of the upper-cased
    sequence: what [strip] and [replace] remove is not a base. *)
Lemma route_template_bases (sequence : string) :
  Py.str (filter (fun c => c ∈ Py.chars "ACGTN")
            (Py.chars (Py.remove_spaces (Py.upper (str_strip sequence)))))
  = bases_of sequence.
Proof.
  unfold bases_of. f_equal. unfold Py.remove_spaces, Py.upper, str_strip.
  rewrite !chars_str.
  change (fun c : ascii => c ∈ Py.chars "ACGTN") with base_letter.
  rewrite list_filter_filter_l.
  2:{ intros c Hc ->. apply (bool_decide_pack _) in Hc. vm_compute in Hc. done. }
  rewrite fmap_reverse, filter_reverse, filter_lstrip.
  rewrite fmap_reverse, filter_reverse, reverse_involutive.
  apply filter_lstrip.
Qed.

Lemma bases_of_clean (sequence : string) :
  clean_template (bases_of sequence) = bases_of sequence.
Proof.
  apply clean_template_fixed. unfold bases_of. rewrite chars_str.
  apply Forall_forall. intros c Hc. apply list_elem_of_filter in Hc as [Hc _].
  by apply base_letter_clean.
Qed.

(** What [first_raise] finds: the calls made are a prefix of the log, the
    last of them is the first at which the collaborator raises. *)
Lemma first_raise_Some {A} (raises : A -> bool) (log made : list A) (failed : A) :
  first_raise raises log = Some (made, failed) ->
  exists answered rest,
    made = answered ++ [failed] /\ log = made ++ rest
    /\ raises failed = true /\ Forall (fun call => raises call = false) answered.
Proof.
  revert made. induction log as [|call log IH]; intros made H; [done|].
  cbn [first_raise] in H. destruct (raises call) eqn:Ecall.
  - injection H as <- <-. exists [], log. by repeat split.
  - destruct (first_raise raises log) as [[made' failed']|]; [|done].
    injection H as <- <-.
    destruct (IH made' eq_refl) as (answered & rest & -> & -> & Hf & Ha).
    exists (call :: answered), rest. split; [done|]. split; [done|].
    split; [done|]. by constructor.
Qed.

Lemma first_raise_None {A} (raises : A -> bool) (log : list A) :
  first_raise raises log = None <-> Forall (fun call => raises call = false) log.
Proof.
  induction log as [|call log IH]; [by split; [constructor|]|].
  cbn [first_raise]. destruct (raises call) eqn:Ecall.
  - split; [done|]. intros H. apply Forall_cons in H as [H _]. congruence.
  - destruct (first_raise raises log) as [[made failed]|].
    + split; [done|]. intros H. apply Forall_cons in H as [_ H].
      by apply IH in H.
    + split; [|done]. intros _. constructor; [done|]. by apply IH.
Qed.

Section RouteProperties.

Variable round1 : float -> float.
Variable calc_tm : string -> float.
Variable calc_hairpin calc_homodimer : string -> thermo_result.
Variable calc_heterodimer : string -> string -> thermo_result.
Variable design_primers : seq_args -> gmap string p3val -> p3_out.
Variable primer3_raises : event -> bool.
Variable int_of_str : string -> option Z.

Local Abbreviation route :=
  (design_primers_junction_mode round1 calc_tm calc_hairpin calc_homodimer
     calc_heterodimer design_primers primer3_raises int_of_str).
Local Abbreviation design :=
  (design_junction_primer_pairs round1 calc_tm calc_hairpin calc_homodimer
     calc_heterodimer design_primers).
Local Abbreviation reaches_route :=
  (fun call : event => primer3_raises call && negb (diagnostic_search call)).

(** The paths through the route: the sequence that is no string, the
    three refusals, and the call with the clamped numbers, which ends at
    a call at which primer3 raises or returns. *)
Lemma route_paths (P : list event * (pyexn + response) -> Prop)
    (request : junction_request) :
  ((forall s, json_or (jr_sequence request) (JStr "") <> JStr s) ->
   P ([], inl AttributeError)) ->
  (forall sequence,
     json_or (jr_sequence request) (JStr "") = JStr sequence ->
     let template := bases_of sequence in
     (template = "" ->
      P ([], inr (Response (ErrorBody "No template sequence provided") 400)))
     /\ (template <> "" -> read_junction_numbers int_of_str request = None ->
         P ([], inr (Response (ErrorBody "Invalid junction/amplicon parameters") 400)))
     /\ (forall nums,
           template <> "" -> read_junction_numbers int_of_str request = Some nums ->
           ~ (0 < jn_junction_pos nums < Py.str_len template) ->
           P ([], inr (Response
                         (ErrorBody "junction_pos out of range for provided sequence")
                         400)))
     /\ (forall nums log out,
           template <> "" -> read_junction_numbers int_of_str request = Some nums ->
           0 < jn_junction_pos nums < Py.str_len template ->
           let ov_min := Z.max 1 (jn_junction_overlap_min nums) in
           design template (jn_junction_pos nums) ov_min
             (Z.max ov_min (jn_junction_overlap_max nums))
             (jn_amplicon_min nums) (jn_amplicon_max nums) None
             (Z.max 80 (Z.min (jn_junction_left_pad nums) 800))
             (Z.max 120 (Z.min (jn_junction_right_pad nums) 1200))
             (Z.max 5 (Z.min (jn_junction_max_candidates nums) 60))
           = (log, Returned out) ->
           (forall made failed,
              first_raise reaches_route log = Some (made, failed) ->
              P (made, inr (Response (DesignFailed (Primer3Error failed)) 500)))
           /\ (first_raise reaches_route log = None ->
               (num_pairs out = 0 ->
                P (log, inr (Response (ErrorBody no_pairs_message) 404)))
               /\ (num_pairs out <> 0 ->
                   P (log, inr (Response (JunctionPairs "internal" out) 200)))))) ->
  P (route request).
Proof.
  intros Hattr Hstr.
  unfold design_primers_junction_mode.
  destruct (json_or (jr_sequence request) (JStr "")) as [| | | |sequence| |] eqn:Ev;
    cbn [json_strip]; try (apply Hattr; intros s; discriminate).
  destruct (Hstr sequence eq_refl) as (Hempty & Hnumbers & Hrange & Hcall).
  rewrite route_template_bases. set (template := bases_of sequence) in *.
  case_bool_decide as Ht; [by apply Hempty|].
  destruct (read_junction_numbers int_of_str request) as [nums|]; [|by apply Hnumbers].
  destruct (_ || _) eqn:Ejp.
  { apply (Hrange nums); [done|done|]. apply orb_true_iff in Ejp. lia. }
  apply orb_false_iff in Ejp as [Hlo Hhi].
  assert (0 < jn_junction_pos nums < Py.str_len template) as Hjp by lia.
  cbv zeta. unfold try_design.
  match goal with
  | |- context [design ?t ?jp ?a ?b ?c ?d None ?e ?f ?g] =>
      set (run := design t jp a b c d None e f g)
  end.
  assert (exists out, run = (run.1, Returned out)) as [out Hrun].
  { destruct run.2 as [out|e] eqn:Erun.
    - exists out. rewrite <- Erun. by destruct run.
    - exfalso. apply design_raises_only in Erun.
      destruct (default_arguments_convert (jn_amplicon_min nums) (jn_amplicon_max nums)
                  None eq_refl) as (Hmin & Hmax & Hopt).
      destruct Erun as [He|[He|[He|[_ He]]]].
      + rewrite Hmin in He. discriminate He.
      + rewrite Hmax in He. discriminate He.
      + rewrite Hopt in He. discriminate He.
      + lia. }
  destruct (Hcall nums run.1 out Ht eq_refl Hjp Hrun) as [Hraise Hanswer].
  destruct (first_raise reaches_route run.1) as [[made failed]|] eqn:Efirst.
  - cbn [fst snd]. by apply Hraise.
  - destruct (Hanswer eq_refl) as [Hzero Hsome].
    rewrite Hrun. cbn [fst snd].
    destruct (Z.eqb_spec (num_pairs out) 0); [by apply Hzero|by apply Hsome].
Qed.

(** X17. What the junction mode of [/design_primers] answers. A sequence
    that is neither a string nor falsy makes the route raise
    [AttributeError] before anything else. Otherwise it answers 200, 400,
    404 or 500. A 400 is one of three refusals, made before any call to
    primer3. A 500 comes only from primer3: it raised at the last call
    made, a call other than the diagnostic search, whose exceptions
    [design_junction_primer_pairs] catches; with the default primer3
    arguments and [max_candidates] clamped to [[5, 60]] the function
    raises nothing of its own. A 404 and a 200 come after a run in which
    primer3 raised at no call but the diagnostic search; a 404 carries one
    fixed message, whatever reason the design gave; a 200 carries the
    design's result, which has between 1 and 10 pairs, [num_pairs] of
    them, and no error. *)
Theorem junction_route_outcomes (request : junction_request) :
  let r :=
    design_primers_junction_mode round1 calc_tm calc_hairpin calc_homodimer
      calc_heterodimer design_primers primer3_raises int_of_str request in
  let reaches_route call := primer3_raises call && negb (diagnostic_search call) in
  match r.2 with
  | inl e =>
      e = AttributeError /\ r.1 = []
      /\ forall s, json_or (jr_sequence request) (JStr "") <> JStr s
  | inr answer =>
      (status answer = 400 ->
       r.1 = []
       /\ exists msg, body answer = ErrorBody msg /\ msg ∈ bad_request_messages)
      /\ (status answer = 500 ->
          exists answered failed,
            r.1 = answered ++ [failed]
            /\ body answer = DesignFailed (Primer3Error failed)
            /\ reaches_route failed = true
            /\ Forall (fun call => reaches_route call = false) answered)
      /\ (status answer = 404 ->
          body answer = ErrorBody no_pairs_message
          /\ Forall (fun call => reaches_route call = false) r.1)
      /\ (status answer = 200 ->
          Forall (fun call => reaches_route call = false) r.1
          /\ exists out, body answer = JunctionPairs "internal" out
                         /\ 1 <= num_pairs out <= 10
                         /\ num_pairs out = Py.len (pairs out)
                         /\ error out = None)
      /\ (status answer = 200 \/ status answer = 400
          \/ status answer = 404 \/ status answer = 500)
  end.
Proof.
  cbv zeta.
  assert (forall msg, msg ∈ bad_request_messages ->
            (fun r : list event * (pyexn + response) =>
               match r.2 with
               | inl e =>
                   e = AttributeError /\ r.1 = []
                   /\ forall s, json_or (jr_sequence request) (JStr "") <> JStr s
               | inr answer =>
                   (status answer = 400 ->
                    r.1 = []
                    /\ exists msg, body answer = ErrorBody msg
                                   /\ msg ∈ bad_request_messages)
                   /\ (status answer = 500 ->
                       exists answered failed,
                         r.1 = answered ++ [failed]
                         /\ body answer = DesignFailed (Primer3Error failed)
                         /\ reaches_route failed = true
                         /\ Forall (fun call => reaches_route call = false) answered)
                   /\ (status answer = 404 ->
                       body answer = ErrorBody no_pairs_message
                       /\ Forall (fun call => reaches_route call = false) r.1)
                   /\ (status answer = 200 ->
                       Forall (fun call => reaches_route call = false) r.1
                       /\ exists out, body answer = JunctionPairs "internal" out
                                      /\ 1 <= num_pairs out <= 10
                                      /\ num_pairs out = Py.len (pairs out)
                                      /\ error out = None)
                   /\ (status answer = 200 \/ status answer = 400
                       \/ status answer = 404 \/ status answer = 500)
               end) ([], inr (Response (ErrorBody msg) 400))) as Hrefusal.
  { intros msg Hmsg. cbn [fst snd status body]. split.
    { intros _. split; [done|]. by exists msg. }
    split; [intros [=]|]. split; [intros [=]|]. split; [intros [=]|auto]. }
  apply route_paths.
  - intros Hno. cbn [fst snd]. by repeat split.
  - intros sequence Hseq template. split; [|split; [|split]].
    + intros _. apply Hrefusal. apply (bool_decide_unpack _). vm_compute. reflexivity.
    + intros _ _. apply Hrefusal. apply (bool_decide_unpack _). vm_compute. reflexivity.
    + intros nums _ _ _. apply Hrefusal.
      apply (bool_decide_unpack _). vm_compute. reflexivity.
    + intros nums log out _ _ _ ov_min Hrun. split.
      * intros made failed Hfirst. cbn [fst snd status body].
        apply first_raise_Some in Hfirst as (answered & rest & -> & _ & Hf & Ha).
        split; [intros [=]|]. split.
        { intros _. by exists answered, failed. }
        split; [intros [=]|]. split; [intros [=]|auto].
      * intros Hnone. apply first_raise_None in Hnone.
        apply design_result_shape in Hrun as (Hlen & Hcap & Herr).
        pose proof (len_nonneg (pairs out)) as Hge. unfold max_pairs in Hcap.
        split; intros Hn; cbn [fst snd status body].
        -- split; [intros [=]|]. split; [intros [=]|]. split; [done|].
           split; [intros [=]|auto].
        -- split; [intros [=]|]. split; [intros [=]|]. split; [intros [=]|].
           split; [|auto]. intros _. split; [done|].
           exists out. split; [done|]. split; [lia|]. split; [done|].
           destruct Herr as [?|?]; [done|lia].
Qed.

(** X18. Every pair the junction mode of [/design_primers] answers with
    has a left primer that crosses the junction of the request by at
    least one base on each side, in the coordinates of the template the
    route designs on; that template is made of the letters A, C, G, T and
    N of the upper-cased sequence of the request, in order (what the
    route strips is none of them); the left primer is 18 to 25 bases
    long, its sequence is the template read at its interval, and the
    product size lies within the amplicon bounds of the request. *)
Theorem junction_route_pairs_cross_junction (request : junction_request)
    (mode : string) (out : design_result) (code : Z) :
  (design_primers_junction_mode round1 calc_tm calc_hairpin calc_homodimer
     calc_heterodimer design_primers primer3_raises int_of_str request).2
  = inr (Response (JunctionPairs mode out) code) ->
  exists sequence nums,
    json_or (jr_sequence request) (JStr "") = JStr sequence
    /\ read_junction_numbers int_of_str request = Some nums
    /\ let template := bases_of sequence in
       0 < jn_junction_pos nums < Py.str_len template
       /\ forall p, p ∈ pairs out ->
            let iv := p_interval (pp_left p) in
            iv.1 < jn_junction_pos nums < iv.2
            /\ 0 <= iv.1 /\ iv.2 <= Py.str_len template
            /\ 18 <= iv.2 - iv.1 <= 25
            /\ a_sequence (p_analysis (pp_left p)) = Py.str_slice template iv.1 iv.2
            /\ jn_amplicon_min nums <= product_size p <= jn_amplicon_max nums.
Proof.
  cbv zeta.
  apply (route_paths
           (fun r => r.2 = inr (Response (JunctionPairs mode out) code) ->
              exists sequence nums,
                json_or (jr_sequence request) (JStr "") = JStr sequence
                /\ read_junction_numbers int_of_str request = Some nums
                /\ 0 < jn_junction_pos nums < Py.str_len (bases_of sequence)
                /\ forall p, p ∈ pairs out ->
                     ((p_interval (pp_left p)).1 < jn_junction_pos nums
                      < (p_interval (pp_left p)).2)
                     /\ 0 <= (p_interval (pp_left p)).1
                     /\ (p_interval (pp_left p)).2 <= Py.str_len (bases_of sequence)
                     /\ 18 <= (p_interval (pp_left p)).2 - (p_interval (pp_left p)).1 <= 25
                     /\ a_sequence (p_analysis (pp_left p))
                        = Py.str_slice (bases_of sequence)
                            (p_interval (pp_left p)).1 (p_interval (pp_left p)).2
                     /\ jn_amplicon_min nums <= product_size p <= jn_amplicon_max nums)).
  - intros _ [=].
  - intros sequence Hseq template. split; [intros _ [=]|].
    split; [intros _ _ [=]|]. split; [intros nums _ _ _ [=]|].
    intros nums log out' _ Hnums Hjp ov_min Hrun.
    split; [intros made failed _ [=]|]. intros _. split; [intros _ [=]|].
    intros _ [= _ <- _]. exists sequence, nums. split; [done|]. split; [done|].
    split; [done|]. intros p Hp.
    subst template. set (template := bases_of sequence) in *.
    assert (clean_template template = template) as Hclean by apply bases_of_clean.
    destruct (returned_pair_provenance _ _ _ _ _ _ _ _ _ _ _ _ _ _ _ _ _ _ p Hrun Hp)
      as (primer_min & primer_max & sc & rc & _ & Hmin & Hmax & Hcand & Han & _ & _ & Hfrom).
    rewrite Hclean in Hcand, Han, Hfrom.
    set (shift := _clamp (jn_junction_pos nums
                          - Z.max 80 (Z.min (jn_junction_left_pad nums) 800)) 0
                    (Py.str_len template)) in *.
    set (window := Py.str_slice template shift
                     (_clamp (jn_junction_pos nums
                              + Z.max 120 (Z.min (jn_junction_right_pad nums) 1200)) 0
                        (Py.str_len template))) in *.
    destruct (default_arguments_convert (jn_amplicon_min nums) (jn_amplicon_max nums)
                None eq_refl) as (Hmin' & Hmax' & _).
    rewrite Hmin' in Hmin. rewrite Hmax' in Hmax.
    injection Hmin as <-. injection Hmax as <-.
    destruct Hfrom as (_ & Hprod & _ & _ & Hleft & Hiv & _ & _ & _ & _ & Hsize & _).
    apply elem_of_generate_candidates in Hcand
      as (left_ov & right_ov & Hl & Hr & Hsum & Hc & Hs & He).
    rewrite Hc in Hs, He, Hiv, Han, Hsize, Hprod.
    cbn [fst snd] in Hs, He, Hiv, Han, Hsize, Hprod.
    rewrite Hiv, Hsize. cbn [fst snd].
    pose proof (clamp_bounds (jn_junction_pos nums
                              - Z.max 80 (Z.min (jn_junction_left_pad nums) 800))
                  (Py.str_len template) ltac:(lia)) as Hws.
    fold shift in Hws.
    assert (Py.str_len window <= Py.str_len template - shift) as Hn
      by (by apply str_len_slice_le).
    unfold ov_min in *.
    split; [lia|]. split; [lia|]. split; [lia|]. split; [lia|]. split; [|done].
    rewrite Hleft, Han. cbn [a_sequence analyze_primer].
    rewrite clean_template_fixed.
    + unfold window. rewrite str_slice_slice by (fold window; lia). done.
    + apply str_slice_chars. unfold window. apply str_slice_chars.
      rewrite <- Hclean. apply clean_template_chars.
Qed.

End RouteProperties.

Lemma junction_route_pairs_cross_junction_witness :
  exists sequence nums,
    json_or (jr_sequence test_junction_request) (JStr "") = JStr sequence
    /\ read_junction_numbers test_int_of_str test_junction_request = Some nums
    /\ 0 < jn_junction_pos nums < Py.str_len (bases_of sequence)
    /\ forall p, p ∈ pairs (returned test_run.2) ->
         (p_interval (pp_left p)).1 < jn_junction_pos nums < (p_interval (pp_left p)).2.
Proof.
  destruct (junction_route_pairs_cross_junction test_round1 test_calc_tm
              test_calc_thermo test_calc_thermo test_calc_heterodimer
              test_design_primers test_primer3_answers test_int_of_str
              test_junction_request "internal" (returned test_run.2) 200)
    as (sequence & nums & Hseq & Hnums & Hjp & Hpairs).
  - vm_compute. reflexivity.
  - exists sequence, nums. split; [exact Hseq|]. split; [exact Hnums|].
    split; [exact Hjp|]. intros p Hp. exact (proj1 (Hpairs p Hp)).
Defined.

(** ** The CDS annotations read the CDS *)

Lemma slice_middle {A} (pre mid post : list A) (a b : Z) :
  0 <= a <= b -> b <= Py.len mid ->
  Py.slice (pre ++ mid ++ post) (Py.len pre + a) (Py.len pre + b) = Py.slice mid a b.
Proof.
  intros Ha Hb. unfold Py.slice, Py.slice_bound, Py.len in *.
  rewrite !length_app.
  destruct (Z.ltb_spec (Z.of_nat (length pre) + a) 0); [lia|].
  destruct (Z.ltb_spec (Z.of_nat (length pre) + b) 0); [lia|].
  destruct (Z.ltb_spec a 0); [lia|]. destruct (Z.ltb_spec b 0); [lia|].
  rewrite !Z.min_l by lia.
  replace (Z.to_nat (Z.of_nat (length pre) + a)) with (length pre + Z.to_nat a)%nat by lia.
  rewrite <- drop_drop, drop_app_length.
  replace (Z.of_nat (length pre) + b - (Z.of_nat (length pre) + a)) with (b - a) by lia.
  rewrite drop_app_le by lia. rewrite take_app_le; [done|].
  rewrite length_drop. lia.
Qed.

Lemma slice_reverse {A} (l : list A) (a b : Z) :
  0 <= a <= b -> b <= Py.len l ->
  Py.slice (reverse l) (Py.len l - b) (Py.len l - a) = reverse (Py.slice l a b).
Proof.
  intros Ha Hb. unfold Py.slice, Py.slice_bound, Py.len in *.
  rewrite !length_reverse.
  destruct (Z.ltb_spec (Z.of_nat (length l) - b) 0); [lia|].
  destruct (Z.ltb_spec (Z.of_nat (length l) - a) 0); [lia|].
  destruct (Z.ltb_spec a 0); [lia|]. destruct (Z.ltb_spec b 0); [lia|].
  rewrite !Z.min_l by lia.
  replace (Z.of_nat (length l) - a - (Z.of_nat (length l) - b)) with (b - a) by lia.
  rewrite drop_reverse, take_reverse, length_take. f_equal.
  rewrite take_drop_commute. f_equal; [lia|]. f_equal. lia.
Qed.

Lemma slice_fmap {A B} (f : A -> B) (l : list A) (a b : Z) :
  Py.slice (f <$> l) a b = f <$> Py.slice l a b.
Proof.
  unfold Py.slice, Py.len. by rewrite length_fmap, fmap_take, fmap_drop.
Qed.

#[local] Instance inside_one_dec (e c : interval) : Decision (inside_one e c).
Proof. unfold inside_one. apply _. Defined.

Section ReadingTheGenome.

Context {A : Type} (G : list A).

Lemma len_bases_at (iv : interval) :
  1 <= iv.1 -> iv.1 <= iv.2 -> iv.2 <= Py.len G ->
  Py.len (bases_at G iv) = block_len iv.
Proof.
  intros H1 H2 H3. unfold bases_at, block_len. rewrite len_slice; lia.
Qed.

(** The bases of a CDS interval, read inside the bases of its exon. *)
Lemma bases_at_inside (e c : interval) :
  1 <= e.1 -> e.2 <= Py.len G -> well_formed c -> inside_one e c ->
  Py.slice (bases_at G e) (c.1 - e.1) (c.2 - e.1 + 1) = bases_at G c.
Proof.
  intros H1 H2 Hwf [Hlo Hhi]. unfold well_formed in Hwf. unfold bases_at.
  rewrite slice_slice; [f_equal; lia|lia|lia|].
  rewrite len_slice; lia.
Qed.


Lemma filter_none {B} (P : B -> Prop) `{!forall x, Decision (P x)} (l : list B) :
  Forall (fun x => ~ P x) l -> filter P l = [].
Proof.
  induction 1 as [|x l Hx _ IH]; [done|]. by rewrite filter_cons, decide_False.
Qed.

(** In a list sorted by start, the CDS intervals inside the first exon
    come before those inside the later exons. *)
Lemma filter_inside_cons (e : interval) (es cs : list interval) :
  StronglySorted by_start cs -> Forall well_formed cs -> Forall (before e) es ->
  filter (inside (e :: es)) cs = filter (inside_one e) cs ++ filter (inside es) cs.
Proof.
  intros Hs Hwf He. rewrite Forall_forall in He.
  assert (forall c, inside es c -> e.2 < c.1) as Hlater.
  { intros c Hc. apply Exists_exists in Hc as (e' & He' & Hlo & _).
    specialize (He e' He'). unfold before in He. lia. }
  induction Hs as [|c cs Hs IH Hc]; [done|].
  apply Forall_cons in Hwf as [Hwc Hwf]. specialize (IH Hwf).
  unfold well_formed in Hwc. rewrite !filter_cons.
  destruct (decide (inside_one e c)) as [Hin|Hin].
  - rewrite decide_True by (by left). rewrite decide_False.
    + by rewrite IH.
    + intros Hes. apply Hlater in Hes. unfold inside_one in Hin. lia.
  - destruct (decide (inside es c)) as [Hes|Hes].
    + rewrite decide_True by (by right).
      assert (filter (inside_one e) cs = []) as Hnone.
      { apply filter_none. rewrite Forall_forall in Hc, Hwf.
        apply Forall_forall. intros c' Hc' [_ Hhi].
        specialize (Hc c' Hc'). specialize (Hwf c' Hc'). apply Hlater in Hes.
        unfold by_start, well_formed in *. lia. }
      rewrite IH, Hnone. done.
    + rewrite decide_False; [done|].
      intros Hx. apply Exists_cons in Hx as [?|?]; done.
Qed.

(** The spliced intervals one exon gives read the bases of the CDS
    intervals inside it. *)
Lemma overlaps_read (pre post : list A) (e : interval) (cs : list interval) :
  1 <= e.1 -> e.1 <= e.2 -> e.2 <= Py.len G ->
  Forall well_formed cs -> Forall (fun c => inside_one e c \/ apart c e) cs ->
  (fun a => Py.slice (pre ++ bases_at G e ++ post) a.1 a.2)
    <$> overlaps e.1 e.2 (Py.len pre) cs
  = bases_at G <$> filter (inside_one e) cs.
Proof.
  intros H1 H2 H3 Hwf Hcs.
  induction Hcs as [|c cs Hc _ IH]; [done|].
  apply Forall_cons in Hwf as [Hwc Hwf]. specialize (IH Hwf).
  unfold overlaps in *. cbn [omap list_omap]. rewrite filter_cons.
  unfold project_overlap at 1. unfold well_formed in Hwc.
  destruct (decide (inside_one e c)) as [[Hlo Hhi]|Hin].
  - destruct (Z.leb_spec (Z.max e.1 c.1) (Z.min e.2 c.2)); [|lia].
    rewrite !fmap_cons, IH. f_equal. cbn [fst snd].
    replace (Py.len pre + (Z.max e.1 c.1 - e.1)) with (Py.len pre + (c.1 - e.1)) by lia.
    replace (Py.len pre + (Z.min e.2 c.2 - e.1) + 1)
      with (Py.len pre + (c.2 - e.1 + 1)) by lia.
    rewrite slice_middle.
    + by apply bases_at_inside.
    + lia.
    + rewrite len_bases_at by done. unfold block_len. lia.
  - destruct Hc as [Hc|Hc]; [done|]. unfold apart in Hc.
    destruct (Z.leb_spec (Z.max e.1 c.1) (Z.min e.2 c.2)); [lia|]. exact IH.
Qed.

(** Read on the concatenated exons, the projection gives the bases of the
    CDS intervals that lie inside an exon, in the order of the CDS. *)
Lemma projection_reads (es cs : list interval) (pre post : list A) :
  StronglySorted before es ->
  Forall (fun e => 1 <= e.1 /\ e.1 <= e.2 /\ e.2 <= Py.len G) es ->
  StronglySorted by_start cs -> Forall well_formed cs ->
  Forall (fun c => inside es c \/ Forall (apart c) es) cs ->
  (fun a => Py.slice (pre ++ mjoin (bases_at G <$> es) ++ post) a.1 a.2)
    <$> projection_by_intersection cs es (Py.len pre)
  = bases_at G <$> filter (inside es) cs.
Proof.
  intros Hes. revert pre.
  induction Hes as [|e es Hes IH Hbefore]; intros pre Hon Hcs Hwf Hin.
  - cbn [projection_by_intersection fmap list_fmap]. rewrite filter_none; [done|].
    apply Forall_forall. intros c _ Hc. by apply Exists_nil in Hc.
  - apply Forall_cons in Hon as [(H1 & H2 & H3) Hon].
    cbn [projection_by_intersection]. rewrite fmap_app.
    rewrite filter_inside_cons by done. rewrite fmap_app.
    rewrite Forall_forall in Hbefore.
    f_equal.
    + rewrite fmap_cons. cbn [mjoin list_join]. rewrite <- (app_assoc (bases_at G e)).
      apply overlaps_read; [done..|].
      eapply Forall_impl; [exact Hin|]. cbn beta. intros c [Hc|Hc].
      * apply Exists_cons in Hc as [Hc|Hc]; [by left|]. right.
        apply Exists_exists in Hc as (e' & He' & Hlo & _).
        specialize (Hbefore e' He'). unfold apart, before in *. lia.
      * right. by apply Forall_cons in Hc as [? _].
    + specialize (IH (pre ++ bases_at G e)).
      replace (Py.len (pre ++ bases_at G e)) with (Py.len pre + block_len e) in IH.
      2:{ rewrite <- (len_bases_at e) by done. unfold Py.len.
          rewrite length_app. lia. }
      rewrite <- IH; [|done..|].
      * rewrite fmap_cons. cbn [mjoin list_join]. by rewrite <- !app_assoc.
      * rewrite Forall_forall in Hin, Hwf. apply Forall_forall. intros c Hc.
        specialize (Hwf c Hc). unfold well_formed in Hwf.
        destruct (Hin c Hc) as [Hx|Hx].
        -- apply Exists_cons in Hx as [[_ Hhi]|Hx]; [right|by left].
           apply Forall_forall. intros e' He'. specialize (Hbefore e' He').
           unfold apart, before in *. lia.
        -- right. by apply Forall_cons in Hx as [_ ?].
Qed.

End ReadingTheGenome.

Lemma chars_str_slice (s : string) (a b : Z) :
  Py.chars (Py.str_slice s a b) = Py.slice (Py.chars s) a b.
Proof. unfold Py.str_slice. apply chars_str. Qed.

Lemma str_slice_reverse_complement (s : string) (a b : Z) :
  0 <= a <= b -> b <= Py.str_len s ->
  Py.str_slice (reverse_complement s) (Py.str_len s - b) (Py.str_len s - a)
  = reverse_complement (Py.str_slice s a b).
Proof.
  intros Ha Hb. apply chars_inj.
  rewrite chars_str_slice, !reverse_complement_chars, chars_str_slice.
  unfold Py.str_len in *.
  replace (Py.len (Py.chars s)) with (Py.len (comp_char <$> Py.chars s))
    by (unfold Py.len; by rewrite length_fmap).
  rewrite slice_reverse.
  - by rewrite slice_fmap.
  - done.
  - unfold Py.len in *. rewrite length_fmap. done.
Qed.

Lemma fmap_mjoin {A B} (f : A -> B) (ls : list (list A)) :
  f <$> mjoin ls = mjoin (fmap f <$> ls).
Proof.
  induction ls as [|l ls IH]; [done|].
  rewrite fmap_cons.
  change (mjoin (l :: ls)) with (l ++ mjoin ls).
  change (mjoin ((f <$> l) :: (fmap f <$> ls))) with ((f <$> l) ++ mjoin (fmap f <$> ls)).
  by rewrite fmap_app, IH.
Qed.

Lemma filter_all {A} (P : A -> Prop) `{!forall x, Decision (P x)} (l : list A) :
  Forall P l -> filter P l = l.
Proof.
  induction 1 as [|x l Hx _ IH]; [done|]. by rewrite filter_cons, decide_True, IH.
Qed.

Lemma sorted_exons_before (exons : list interval) :
  Forall well_formed exons -> pairwise_disjoint exons ->
  StronglySorted before (Py.sorted Py.lt_pair exons).
Proof.
  intros Hwf Hd.
  eapply (StronglySorted_weaken in_order_apart before well_formed).
  - intros a b _ Hb [Hs Ha]. unfold by_start, apart, before, well_formed in *. lia.
  - by rewrite sorted_Permutation.
  - by apply sorted_cds_in_order_apart.
Qed.

Section AnnotationsReadTheCds.

Variable region_seq : string -> string -> Z -> Z -> Z -> option string.
Variables species chrom genome : string.
Hypothesis service : reads_chromosome region_seq species chrom genome.

Local Abbreviation seq_of := (fun iv : interval => Py.str_slice genome (iv.1 - 1) iv.2).
Local Abbreviation G := (Py.upper_char <$> Py.chars genome).

Lemma region_on_chromosome (iv : interval) :
  on_chromosome genome iv ->
  (get_region_sequence region_seq chrom iv.1 iv.2 1 species).2 = Some (seq_of iv).
Proof.
  intros (H1 & H2 & H3). unfold get_region_sequence.
  destruct (Z.ltb_spec iv.2 iv.1); [lia|]. cbn [snd]. by apply service.
Qed.

Lemma upper_concat_seq (ivs : list interval) :
  Py.chars (Py.upper (String.concat "" (seq_of <$> ivs))) = mjoin (bases_at G <$> ivs).
Proof.
  rewrite chars_upper, chars_concat, fmap_mjoin, <- !list_fmap_compose.
  f_equal. apply list_fmap_ext. intros _ iv _. cbn.
  rewrite chars_str_slice. unfold bases_at. by rewrite slice_fmap.
Qed.

(** On the plus strand: the spliced exons, read at the projected
    intervals, give the spliced CDS. *)
Lemma projection_reads_cds (exons cds : list interval) :
  Forall (on_chromosome genome) exons -> pairwise_disjoint exons ->
  Forall well_formed cds -> Forall (inside exons) cds ->
  let spliced := Py.upper (String.concat "" (seq_of <$> Py.sorted Py.lt_pair exons)) in
  String.concat "" ((fun a => Py.str_slice spliced a.1 a.2) <$> cds_projection exons cds)
  = Py.upper (String.concat "" (seq_of <$> Py.sorted Py.lt_pair cds)).
Proof.
  intros Hon Hd Hwf Hin spliced. apply chars_inj.
  assert (Forall well_formed exons) as Hwfe.
  { eapply Forall_impl; [exact Hon|]. by intros e (_ & ? & _). }
  rewrite chars_concat, <- list_fmap_compose, upper_concat_seq.
  rewrite cds_projection_by_intersection. f_equal.
  etrans; [|etrans].
  2:{ apply (projection_reads G (Py.sorted Py.lt_pair exons) (Py.sorted Py.lt_pair cds)
               [] []).
      - by apply sorted_exons_before.
      - apply Forall_forall. intros e He. rewrite sorted_Permutation in He.
        rewrite Forall_forall in Hon. destruct (Hon e He) as (H1 & H2 & H3).
        unfold Py.str_len, Py.len in *. rewrite length_fmap. done.
      - apply sorted_by_start.
      - by rewrite sorted_Permutation.
      - apply Forall_forall. intros c Hc. rewrite sorted_Permutation in Hc.
        rewrite Forall_forall in Hin. specialize (Hin c Hc).
        left. unfold inside in *. by rewrite sorted_Permutation. }
  - apply list_fmap_ext. intros _ a _. cbn.
    rewrite chars_str_slice. unfold spliced. rewrite upper_concat_seq.
    by rewrite app_nil_r.
  - f_equal. apply filter_all. apply Forall_forall. intros c Hc.
    rewrite sorted_Permutation in Hc.
    rewrite Forall_forall in Hin. specialize (Hin c Hc).
    unfold inside in *. by rewrite sorted_Permutation.
Qed.


(** X19. The CDS annotations mark the coding bases: when the service
    reads its sequences off one chromosome, the exons lie on it with
    [start <= end] and are pairwise non-overlapping, and the CDS intervals
    are pairwise non-overlapping, each with [start <= end] and inside one
    exon, then the spliced exon sequence of [build_spliced_sequence],
    read at the intervals [cds_annotations_in_transcript_coords] returns
    and joined in their order, is the spliced CDS sequence that
    [build_spliced_sequence] returns for the CDS, on either strand. *)
Theorem cds_annotations_read_cds (tinfo : gmap string tval) (strand : string) :
  tinfo !! "chrom" = Some (VStr chrom) ->
  tinfo !! "strand" = Some (VStr strand) ->
  let exons := get_intervals tinfo "exons" in
  let cds := get_intervals tinfo "cds" in
  Forall (on_chromosome genome) exons -> pairwise_disjoint exons ->
  cds <> [] -> Forall well_formed cds -> Forall (inside exons) cds ->
  pairwise_disjoint cds ->
  exists spliced coding,
    (build_spliced_sequence region_seq tinfo "exons" species).2 = inr (Some spliced)
    /\ (build_spliced_sequence region_seq tinfo "cds" species).2 = inr (Some coding)
    /\ String.concat ""
         ((fun a => Py.str_slice spliced a.1 a.2)
            <$> cds_annotations_in_transcript_coords tinfo)
       = coding.
Proof.
  intros Hchrom Hstrand exons cds Hon Hd Hne Hwf Hin Hcd.
  assert (Forall well_formed exons) as Hwfe.
  { eapply Forall_impl; [exact Hon|]. by intros e (_ & ? & _). }
  assert (Forall (on_chromosome genome) cds) as Honc.
  { rewrite Forall_forall in Hin, Hwf, Hon. apply Forall_forall. intros c Hc.
    specialize (Hwf c Hc). destruct (proj1 (Exists_exists _ _) (Hin c Hc))
      as (e & He & Hlo & Hhi).
    destruct (Hon e He) as (H1 & H2 & H3).
    unfold on_chromosome, well_formed in *. lia. }
  assert (exons <> []) as Hnee.
  { intros Hnil. destruct cds as [|c cds']; [done|].
    apply Forall_cons in Hin as [Hc _]. unfold inside in Hc. rewrite Hnil in Hc.
    by apply Exists_nil in Hc. }
  set (Eraw := String.concat "" (seq_of <$> Py.sorted Py.lt_pair exons)).
  set (Craw := String.concat "" (seq_of <$> Py.sorted Py.lt_pair cds)).
  pose proof (build_spliced_sequence_parts region_seq tinfo "exons" species chrom
                strand seq_of Hchrom Hstrand Hnee) as Hex.
  pose proof (build_spliced_sequence_parts region_seq tinfo "cds" species chrom
                strand seq_of Hchrom Hstrand Hne) as Hcds.
  cbv zeta in Hex, Hcds. fold exons in Hex. fold cds in Hcds.
  fold Eraw in Hex. fold Craw in Hcds.
  rewrite Hex by (intros iv Hiv; apply region_on_chromosome;
                  rewrite Forall_forall in Hon; by apply Hon).
  rewrite Hcds by (intros iv Hiv; apply region_on_chromosome;
                   rewrite Forall_forall in Honc; by apply Honc).
  eexists _, _. split; [done|]. split; [done|].
  pose proof (projection_reads_cds exons cds Hon Hd Hwf Hin) as Hplus.
  cbv zeta in Hplus. fold Eraw in Hplus. fold Craw in Hplus.
  rewrite cds_annotations_equation. fold exons. fold cds.
  rewrite (strand_is_minus_lookup _ _ Hstrand).
  destruct (bool_decide (strand = "-")); [|exact Hplus].
  pose proof (cds_projection_laid_out exons cds Hwfe Hcd) as Hlaid.
  pose proof (laid_out_reflect _ _ Hlaid) as Hminus.
  rewrite (sorted_pairs_unique _ (reverse (reflect (spliced_len exons)
                                             <$> cds_projection exons cds)));
    [|apply reverse_Permutation|by apply laid_out_Sorted in Hminus].
  assert (Py.str_len (Py.upper Eraw) = spliced_len exons) as Hlen.
  { rewrite str_len_upper. unfold Eraw. rewrite str_len_concat.
    rewrite <- (spliced_len_Permutation _ _ (sorted_Permutation Py.lt_pair exons)).
    unfold spliced_len. rewrite <- list_fmap_compose. f_equal.
    apply list_fmap_ext. intros k e He. apply list_elem_of_lookup_2 in He.
    rewrite sorted_Permutation in He. rewrite Forall_forall in Hon.
    destruct (Hon e He) as (H1 & H2 & H3). cbn.
    rewrite str_len_slice; unfold block_len; lia. }
  rewrite !upper_reverse_complement, <- Hplus, reverse_complement_concat.
  f_equal. rewrite fmap_reverse. f_equal. rewrite <- !list_fmap_compose.
  apply list_fmap_ext. intros k a Ha. apply list_elem_of_lookup_2 in Ha.
  destruct Hlaid as [Hall _]. rewrite Forall_forall in Hall.
  destruct (Hall a Ha) as (H0 & H1 & H2).
  cbn. rewrite <- Hlen in *. apply str_slice_reverse_complement; lia.
Qed.

End AnnotationsReadTheCds.

Lemma test_region_seq_reads_chromosome :
  reads_chromosome test_region_seq "homo_sapiens" "7" test_chromosome.
Proof.
  intros s e Hs He. change (Py.str_len test_chromosome) with 60 in He.
  unfold test_region_seq.
  destruct (Z.leb_spec 1 s); [|lia]. destruct (Z.leb_spec e 60); [|lia]. done.
Qed.

Lemma cds_annotations_read_cds_witness :
  exists spliced coding,
    (build_spliced_sequence test_region_seq (test_tinfo "ENST01") "exons"
       "homo_sapiens").2 = inr (Some spliced)
    /\ (build_spliced_sequence test_region_seq (test_tinfo "ENST01") "cds"
          "homo_sapiens").2 = inr (Some coding)
    /\ String.concat ""
         ((fun a => Py.str_slice spliced a.1 a.2)
            <$> cds_annotations_in_transcript_coords (test_tinfo "ENST01"))
       = coding.
Proof.
  apply (cds_annotations_read_cds test_region_seq "homo_sapiens" "7" test_chromosome
           test_region_seq_reads_chromosome (test_tinfo "ENST01") "-").
  - reflexivity.
  - reflexivity.
  - apply (bool_decide_unpack _). vm_compute. reflexivity.
  - intros [|[|[|i]]] [|[|[|j]]] a b Hij Ha Hb; try done;
      vm_compute in Ha, Hb; simplify_eq; unfold apart; simpl; lia.
  - vm_compute. discriminate.
  - apply (bool_decide_unpack _). vm_compute. reflexivity.
  - apply (bool_decide_unpack _). vm_compute. reflexivity.
  - intros [|[|[|i]]] [|[|[|j]]] a b Hij Ha Hb; try done;
      vm_compute in Ha, Hb; simplify_eq; unfold apart; simpl; lia.
Defined.

(** ** The genomic view of [/get_sequence] *)









Section GenomicView.

Variable lookup_id : string -> http_answer lookup_data.
Variable region_seq : string -> string -> Z -> Z -> Z -> option string.
Variable lookup_raises : string -> bool.
Variable region_raises : fetch -> bool.
Variable int_of_str : string -> option Z.
Variables species chrom genome : string.
Hypothesis service : reads_chromosome region_seq species chrom genome.

Local Abbreviation seq_of := (fun iv : interval => Py.str_slice genome (iv.1 - 1) iv.2).







End GenomicView.


(** ** What [/get_sequence] answers *)





